(** * SDCAmr: the multilevel SDC + AMR controller of RNS

    A shallow embedding of [RNS/src/SDCAmr.cpp]: the restriction and
    interpolation operators, the controller's [timeStep], [rebuild_mlsdc],
    [regrid] and constructor, and the per-level sweeper builder.  BoxLib (the mesh
    provider) and SDCLib (the step library) are consumed through an
    interface record; the controller code itself is transcribed statement
    by statement over an explicit state. *)

From Stdlib Require Import ZArith String Lia Bool Sorted.
From stdpp Require Import base tactics option list list_numbers.

Local Open Scope Z_scope.

(** ** Outcomes of a call

    A C++ call either returns, terminates the process through
    [BoxLib::Abort] or a failed [BL_ASSERT], or has no defined behaviour
    (indexing outside a container, dereferencing [NULL], signed overflow). *)

Inductive outcome (A : Type) : Type :=
| Done (a : A)
| Aborted (msg : string)
| Undefined.
Arguments Done {A} a.
Arguments Aborted {A} msg.
Arguments Undefined {A}.

Definition bind {A B : Type} (m : outcome A) (k : A -> outcome B) : outcome B :=
  match m with
  | Done a => k a
  | Aborted msg => Aborted msg
  | Undefined => Undefined
  end.

(** The value that a run produced, [d] when it produced none. *)
Definition returned {A : Type} (d : A) (o : outcome A) : A :=
  match o with
  | Done a => a
  | _ => d
  end.

Notation "x <- m ;; k" := (bind m (fun x => k))
  (at level 20, m at level 99, k at level 200, only parsing).

Notation "' pat <- m ;; k" := (bind m (fun pat => k))
  (at level 20, pat pattern, m at level 99, k at level 200, only parsing).

(** [for (x : l) body], the state threaded through the iterations. *)
Fixpoint forM {A S : Type} (body : A -> S -> outcome S) (l : list A) (s : S)
  : outcome S :=
  match l with
  | [] => Done s
  | x :: l' => s' <- body x s ;; forM body l' s'
  end.

(** [v[i]] and [v[i] = x] on a container indexed by a C [int]. *)
Definition lookupZ {A : Type} (l : list A) (i : Z) : outcome A :=
  if i <? 0 then Undefined
  else match l !! Z.to_nat i with
       | Some x => Done x
       | None => Undefined
       end.

Definition updateZ {A : Type} (l : list A) (i : Z) (x : A) : outcome (list A) :=
  if i <? 0 then Undefined
  else if Z.of_nat (length l) <=? i then Undefined
  else Done (<[Z.to_nat i := x]> l).

(** C [int] arithmetic: a result outside the 32-bit range is undefined. *)
Definition INT_MAX : Z := 2147483647.
Definition INT_MIN : Z := -2147483648.

Definition int_of (z : Z) : outcome Z :=
  if (INT_MIN <=? z) && (z <=? INT_MAX) then Done z else Undefined.

(** ** Carriers

    [Real] is BoxLib's [Real]; the controller only forwards times and adds
    a step size to one.  [Val] is the content of one component of a
    [MultiFab] on one region: the valid cells, or one ring of ghost cells.
    [NAN] is such a content after [setVal(NAN)], and [has_nan] tells
    whether a content holds a not-a-number. *)

Class Carriers : Type := {
  Real : Type;
  Rplus : Real -> Real -> Real;
  Val : Type;
  NAN : Val;
  has_nan : Val -> bool;
  (** the encapsulation object returned by [build_encap] *)
  sdc_encap : Type
}.

(** ** Mesh data (BoxLib) *)

Section Model.
Context `{Car : Carriers}.

Definition IntVect : Type := list Z.
Definition Box : Type := (IntVect * IntVect)%type.
Definition BoxArray : Type := list Box.

(** [fabs U !! c] is component [c]; in it, entry [0] is the valid region
    and entry [g] the [g]-th ring of ghost cells, [g <= nGrow U]. *)
Record MultiFab : Type := mkMultiFab {
  boxArray : BoxArray;
  nGrow : nat;
  fabs : list (list Val)
}.

Definition nComp (U : MultiFab) : nat := length (fabs U).

Definition wf_mf (U : MultiFab) : Prop :=
  Forall (fun row => length row = S (nGrow U)) (fabs U).

Definition same_shape (U V : MultiFab) : Prop :=
  boxArray U = boxArray V /\ nGrow U = nGrow V /\ nComp U = nComp V.

Definition copy_row (nghost : nat) (srow drow : list Val) : list Val :=
  take (S nghost) srow ++ drop (S nghost) drow.

(** [MultiFab::Copy(dst, src, srccomp, dstcomp, numcomp, nghost)]: the
    valid region and [nghost] ghost rings of [numcomp] components.  The
    two layouts must coincide and both must have the components and the
    ghost rings that are copied. *)
Definition MultiFab_Copy (dst src : MultiFab) (srccomp dstcomp numcomp nghost : nat)
  : outcome MultiFab :=
  if bool_decide (boxArray dst = boxArray src)
     && (nghost <=? nGrow dst)%nat && (nghost <=? nGrow src)%nat
     && (srccomp + numcomp <=? nComp src)%nat
     && (dstcomp + numcomp <=? nComp dst)%nat
  then Done {| boxArray := boxArray dst;
               nGrow := nGrow dst;
               fabs := take dstcomp (fabs dst)
                       ++ zip_with (copy_row nghost)
                            (take numcomp (drop srccomp (fabs src)))
                            (take numcomp (drop dstcomp (fabs dst)))
                       ++ drop (dstcomp + numcomp) (fabs dst) |}
  else Undefined.

(** [U.setVal(v, ngrow)]: every component, valid region and [ngrow] rings. *)
Definition setVal (v : Val) (ngrow : nat) (U : MultiFab) : MultiFab :=
  {| boxArray := boxArray U;
     nGrow := nGrow U;
     fabs := map (fun row => replicate (Nat.min (S ngrow) (length row)) v
                             ++ drop (S ngrow) row) (fabs U) |}.

(** [U.contains_nan()]: all components, ghost cells included. *)
Definition contains_nan (U : MultiFab) : bool :=
  existsb (existsb has_nan) (fabs U).

(** One state type of one level: its new-time [MultiFab], and the time
    levels as last given to [setTimeLevel(time, dt_old, dt_new)]. *)
Record StateData : Type := mkStateData {
  new_data : MultiFab;
  time_level : option (Real * Real * Real)
}.

(** [state] has one entry per descriptor: [get_desc_lst().size()] is its
    length. *)
Record AmrLevel : Type := mkAmrLevel {
  grids : BoxArray;
  state : list StateData
}.

(** The members of the [Amr] base class that the controller touches. *)
Record Amr : Type := mkAmr {
  finest_level : Z;
  amr_level : list AmrLevel;
  level_steps : list Z;
  level_count : list Z;
  n_cycle : list Z;
  dt_min : list Real;
  dt_level : list Real
}.

(** What is fixed when the run starts; [ndebug] is the [NDEBUG] build. *)
Record AmrParams : Type := mkAmrParams {
  max_level : Z;
  blockingFactor : Z -> Z;
  ndebug : bool
}.

(** The [mlsdc] table of the inputs file, as [ParmParse::query] sees it. *)
Record ParmParse : Type := mkParmParse {
  pp_max_iters : option Z;
  pp_max_trefs : option Z
}.

(** [RNS::fill_boundary] modes used in this file. *)
Inductive FillType : Type :=
| use_FillCoarsePatch
| use_FillBoundary
| set_PhysBoundary.

(** The shape of the mesh hierarchy: level count and patch layouts. *)
Definition shape (a : Amr) : Z * list BoxArray :=
  (finest_level a, map grids (take (Z.to_nat (finest_level a + 1)) (amr_level a))).

(** ** Integration data (SDCLib) *)

Inductive sdc_hook : Type :=
| SDC_HOOK_POST_STEP
| SDC_HOOK_POST_TRANS.

Inductive sdc_qtype : Type :=
| SDC_GAUSS_LOBATTO.

(** A node set: [Q] is empty until the orchestrator allocates it; [ctx] is
    the level that [&getLevel(lev)] points to. *)
Record sdc_nset : Type := mkNset {
  nnodes : Z;
  qtype : sdc_qtype;
  Q : list MultiFab;
  ctx : option Z;
  encap : option sdc_encap
}.

(** An IMEX sweeper; every hook added in this file is [sdc_poststep_hook]. *)
Record sdc_sweeper : Type := mkSweeper {
  nset : sdc_nset;
  hooks : list sdc_hook
}.

(** The orchestrator.  [mg_sweepers] holds pointers: entry [k] is the slot
    of the controller's [sweepers] vector that owns the registered object.
    Every registration in this file carries [mlsdc_amr_interpolate] and
    [mlsdc_amr_restrict]. *)
Record sdc_mg : Type := mkMg {
  mg_capacity : Z;
  mg_sweepers : list Z;
  mg_hooks : list sdc_hook
}.

Definition nlevels (m : sdc_mg) : Z := Z.of_nat (length (mg_sweepers m)).

Record sdc_state : Type := mkSdcState {
  t : Real;
  kind : Z
}.

(** ** What the controller consumes

    The mesh provider, the RNS level class and the step library.  Every
    level-bound call receives the hierarchy and the level's index. *)
Record Externals : Type := mkExternals {
  okToRegrid : Amr -> Z -> bool;
  (** [Amr::regrid(lbase, time, initial)]: new finest level and levels *)
  Amr_regrid : Z -> Real -> bool -> Amr -> Z * list AmrLevel;
  (** [computeNewDt], with [stop_time] and [post_regrid_flag]: the new
      [n_cycle], [dt_min] and [dt_level] *)
  computeNewDt : Amr -> Real -> Z -> list Z * list Real * list Real;
  fill_boundary : Amr -> Z -> MultiFab -> Real -> FillType -> MultiFab;
  (** [levelG.avgDown(UG, UF)]: the new [UG] *)
  avgDown : Amr -> Z -> MultiFab -> MultiFab -> MultiFab;
  build_encap : Amr -> Z -> sdc_encap;
  (** what the encapsulation's [create] returns for one node *)
  encap_create : sdc_encap -> MultiFab;
  SDC_SOLUTION : Z;
  SDC_MG_LAST_SWEEP : Z;
  (** [sdc_mg_spread] and [sdc_mg_sweep] with time, step size and flags:
      the new node fields of the registered levels, coarsest first *)
  sdc_mg_spread : Amr -> list (list MultiFab) -> Real -> Real -> Z -> list (list MultiFab);
  sdc_mg_sweep : Amr -> list (list MultiFab) -> Real -> Real -> Z -> list (list MultiFab)
}.

(** ** The controller *)

Inductive Event : Type :=
| EvAmrRegrid (lbase : Z) (changed : bool)
| EvRebuild
| EvFill (lev : Z) (st : nat) (mode : FillType)
| EvSeed (lev : Z) (st : nat)
| EvSpread
| EvSweep (flags : Z)
| EvFinal (lev : Z) (st : nat).

(** [SDCAmr]: the base class, the options, the orchestrator and the two
    per-level vectors of pointers: [None] is [NULL] and [Some x] points to
    the object [x], which in [encaps] may have been deleted, since
    [rebuild_mlsdc] deletes an encapsulation without resetting its slot.
    [trace] is the history of what was called, oldest first; no code reads
    it. *)
Record SDCAmr : Type := mkSDCAmr {
  amr : Amr;
  max_iters : Z;
  max_trefs : Z;
  mg : sdc_mg;
  sweepers : list (option sdc_sweeper);
  encaps : list (option sdc_encap);
  trace : list Event
}.


(** *** State updates *)

Definition log (e : Event) (s : SDCAmr) : SDCAmr :=
  {| amr := amr s; max_iters := max_iters s; max_trefs := max_trefs s;
     mg := mg s; sweepers := sweepers s; encaps := encaps s;
     trace := trace s ++ [e] |}.

Definition set_amr (a : Amr) (s : SDCAmr) : SDCAmr :=
  {| amr := a; max_iters := max_iters s; max_trefs := max_trefs s;
     mg := mg s; sweepers := sweepers s; encaps := encaps s;
     trace := trace s |}.

Definition set_mg (m : sdc_mg) (s : SDCAmr) : SDCAmr :=
  {| amr := amr s; max_iters := max_iters s; max_trefs := max_trefs s;
     mg := m; sweepers := sweepers s; encaps := encaps s;
     trace := trace s |}.

Definition set_sweepers (l : list (option sdc_sweeper)) (s : SDCAmr) : SDCAmr :=
  {| amr := amr s; max_iters := max_iters s; max_trefs := max_trefs s;
     mg := mg s; sweepers := l; encaps := encaps s;
     trace := trace s |}.

Definition set_encaps (l : list (option sdc_encap)) (s : SDCAmr) : SDCAmr :=
  {| amr := amr s; max_iters := max_iters s; max_trefs := max_trefs s;
     mg := mg s; sweepers := sweepers s; encaps := l;
     trace := trace s |}.

Definition set_mesh (m : Z * list AmrLevel) (a : Amr) : Amr :=
  {| finest_level := m.1; amr_level := m.2;
     level_steps := level_steps a; level_count := level_count a;
     n_cycle := n_cycle a; dt_min := dt_min a; dt_level := dt_level a |}.

Definition set_dt (d : list Z * list Real * list Real) (a : Amr) : Amr :=
  {| finest_level := finest_level a; amr_level := amr_level a;
     level_steps := level_steps a; level_count := level_count a;
     n_cycle := d.1.1; dt_min := d.1.2; dt_level := d.2 |}.

Definition set_level_steps (l : list Z) (a : Amr) : Amr :=
  {| finest_level := finest_level a; amr_level := amr_level a;
     level_steps := l; level_count := level_count a;
     n_cycle := n_cycle a; dt_min := dt_min a; dt_level := dt_level a |}.

Definition set_level_count (l : list Z) (a : Amr) : Amr :=
  {| finest_level := finest_level a; amr_level := amr_level a;
     level_steps := level_steps a; level_count := l;
     n_cycle := n_cycle a; dt_min := dt_min a; dt_level := dt_level a |}.

(** Writing through the reference [amrlevel.get_state_data(st)]. *)
Definition alter_state (f : StateData -> StateData) (lev : Z) (st : nat) (a : Amr) : Amr :=
  {| finest_level := finest_level a;
     amr_level := alter (fun L => {| grids := grids L; state := alter f st (state L) |})
                        (Z.to_nat lev) (amr_level a);
     level_steps := level_steps a; level_count := level_count a;
     n_cycle := n_cycle a; dt_min := dt_min a; dt_level := dt_level a |}.

Definition set_new_data (U : MultiFab) (sd : StateData) : StateData :=
  {| new_data := U; time_level := time_level sd |}.

Definition setTimeLevel (time dt_old dt_new : Real) (sd : StateData) : StateData :=
  {| new_data := new_data sd; time_level := Some (time, dt_old, dt_new) |}.

Definition set_nset (n : sdc_nset) (sw : sdc_sweeper) : sdc_sweeper :=
  {| nset := n; hooks := hooks sw |}.

Definition set_Q (q : list MultiFab) (sw : sdc_sweeper) : sdc_sweeper :=
  set_nset {| nnodes := nnodes (nset sw); qtype := qtype (nset sw); Q := q;
              ctx := ctx (nset sw); encap := encap (nset sw) |} sw.

Definition set_ctx (c : option Z) (sw : sdc_sweeper) : sdc_sweeper :=
  set_nset {| nnodes := nnodes (nset sw); qtype := qtype (nset sw); Q := Q (nset sw);
              ctx := c; encap := encap (nset sw) |} sw.

Definition set_encap (e : option sdc_encap) (sw : sdc_sweeper) : sdc_sweeper :=
  set_nset {| nnodes := nnodes (nset sw); qtype := qtype (nset sw); Q := Q (nset sw);
              ctx := ctx (nset sw); encap := e |} sw.

(** Writing through the pointer [p] to a sweeper. *)
Definition alter_sweeper (f : sdc_sweeper -> sdc_sweeper) (p : Z) (s : SDCAmr) : SDCAmr :=
  set_sweepers (alter (fmap f) (Z.to_nat p) (sweepers s)) s.

(** *** Reads *)

Definition getLevel (a : Amr) (lev : Z) : outcome AmrLevel :=
  lookupZ (amr_level a) lev.

Definition lookup_nat {A : Type} (l : list A) (i : nat) : outcome A :=
  match l !! i with
  | Some x => Done x
  | None => Undefined
  end.

(** [*sweepers[p]] *)
Definition deref (s : SDCAmr) (p : Z) : outcome sdc_sweeper :=
  o <- lookupZ (sweepers s) p ;;
  match o with
  | Some sw => Done sw
  | None => Undefined
  end.

(** [mg.sweepers[lev]]: the pointer and the object behind it. *)
Definition mg_sweeper (s : SDCAmr) (lev : Z) : outcome (Z * sdc_sweeper) :=
  p <- lookupZ (mg_sweepers (mg s)) lev ;;
  sw <- deref s p ;;
  Done (p, sw).


(** *** The step library's registry, as this file uses it *)

Definition sdc_mg_build (nlev : Z) : sdc_mg :=
  {| mg_capacity := nlev; mg_sweepers := []; mg_hooks := [] |}.

Definition sdc_mg_hooks_add (h : sdc_hook) (m : sdc_mg) : sdc_mg :=
  {| mg_capacity := mg_capacity m; mg_sweepers := mg_sweepers m;
     mg_hooks := mg_hooks m ++ [h] |}.

Definition sdc_mg_reset (m : sdc_mg) : sdc_mg :=
  {| mg_capacity := mg_capacity m; mg_sweepers := []; mg_hooks := mg_hooks m |}.

(** One more level than [sdc_mg_build] made room for runs past the array. *)
Definition sdc_mg_add_level (m : sdc_mg) (p : Z) : outcome sdc_mg :=
  if nlevels m <? mg_capacity m
  then Done {| mg_capacity := mg_capacity m; mg_sweepers := mg_sweepers m ++ [p];
               mg_hooks := mg_hooks m |}
  else Undefined.

(** [sdc_mg_setup] prepares quadrature and transfer tables, none of which
    is part of this state. *)
Definition sdc_mg_setup (m : sdc_mg) : sdc_mg := m.

Section Controller.
Variable P : AmrParams.
Variable E : Externals.

(** [sdc_mg_allocate]: every registered node set gets its [nnodes] fields
    from its encapsulation. *)
Definition sdc_mg_allocate (s : SDCAmr) : outcome SDCAmr :=
  forM (fun p s =>
          sw <- deref s p ;;
          match encap (nset sw) with
          | Some e =>
              Done (alter_sweeper
                      (set_Q (replicate (Z.to_nat (nnodes (nset sw))) (encap_create E e)))
                      p s)
          | None => Undefined
          end)
       (mg_sweepers (mg s)) s.

(** The node fields of the registered levels, and writing them back. *)
Fixpoint mg_fields (s : SDCAmr) (ptrs : list Z) : outcome (list (list MultiFab)) :=
  match ptrs with
  | [] => Done []
  | p :: ptrs' =>
      sw <- deref s p ;;
      qs <- mg_fields s ptrs' ;;
      Done (Q (nset sw) :: qs)
  end.

Fixpoint mg_store (ptrs : list Z) (qs : list (list MultiFab)) (s : SDCAmr) : SDCAmr :=
  match ptrs, qs with
  | p :: ptrs', q :: qs' => mg_store ptrs' qs' (alter_sweeper (set_Q q) p s)
  | _, _ => s
  end.

Definition mg_apply (f : list (list MultiFab) -> list (list MultiFab)) (s : SDCAmr)
  : outcome SDCAmr :=
  qs <- mg_fields s (mg_sweepers (mg s)) ;;
  Done (mg_store (mg_sweepers (mg s)) (f qs) s).

(** *** [mlsdc_amr_restrict] *)

Inductive ProviderCall : Type :=
| Call_fill_boundary (lev : Z) (U : MultiFab) (time : Real) (mode : FillType)
| Call_avgDown (lev : Z) (UG UF : MultiFab).

(** Returns the two fields as the call leaves them, and the provider calls
    it made, in order.  [ctxF] and [ctxG] are the two levels. *)
Definition mlsdc_amr_restrict (a : Amr) (F G : MultiFab) (state : sdc_state)
    (ctxF ctxG : Z) : MultiFab * MultiFab * list ProviderCall :=
  let '(UF, calls1) :=
    if kind state =? SDC_SOLUTION E
    then (fill_boundary E a ctxF F (t state) use_FillBoundary,
          [Call_fill_boundary ctxF F (t state) use_FillBoundary])
    else (F, []) in
  let UG := avgDown E a ctxG G UF in
  let calls2 := calls1 ++ [Call_avgDown ctxG G UF] in
  if kind state =? SDC_SOLUTION E
  then (UF, fill_boundary E a ctxG UG (t state) use_FillBoundary,
        calls2 ++ [Call_fill_boundary ctxG UG (t state) use_FillBoundary])
  else (UF, UG, calls2).

(** *** [rns_sdc_build_level] *)

Definition nnodes0 : Z := 3.
Definition trat : Z := 2.

(** [(int) pow(b, e)] for [b >= 2]: a power of a small integer is exact in
    a [double]; a negative exponent gives a value below one, which
    truncates to zero; a value outside the [int] range does not convert. *)
Definition int_pow (b e : Z) : outcome Z :=
  if e <? 0 then Done 0 else int_of (b ^ e).

Definition sdc_imex_create (n : Z) (q : sdc_qtype) : sdc_sweeper :=
  {| nset := {| nnodes := n; qtype := q; Q := []; ctx := None; encap := None |};
     hooks := [] |}.

Definition sdc_hooks_add (h : sdc_hook) (sw : sdc_sweeper) : sdc_sweeper :=
  {| nset := nset sw; hooks := hooks sw ++ [h] |}.

Definition rns_sdc_build_level (lev : Z) : outcome sdc_sweeper :=
  p <- int_pow trat lev ;;
  m <- int_of ((nnodes0 - 1) * p) ;;
  n <- int_of (1 + m) ;;
  let imex := sdc_imex_create n SDC_GAUSS_LOBATTO in
  Done (sdc_hooks_add SDC_HOOK_POST_STEP imex).

(** *** [SDCAmr::rebuild_mlsdc] *)

Definition destroy_level (lev : Z) (s : SDCAmr) : outcome SDCAmr :=
  o <- lookupZ (sweepers s) lev ;;
  match o with
  | Some _ =>
      e <- lookupZ (encaps s) lev ;;
      match e with
      | Some _ =>
          (* [delete encaps[lev]] frees the object and leaves the pointer
             in its slot: only [sweepers[lev]] is set to [NULL] *)
          sweepers' <- updateZ (sweepers s) lev None ;;
          Done (set_sweepers sweepers' s)
      | None => Undefined
      end
  | None => Done s
  end.

Definition build_level (lev : Z) (s : SDCAmr) : outcome SDCAmr :=
  let e := build_encap E (amr s) lev in
  encaps' <- updateZ (encaps s) lev (Some e) ;;
  sw <- rns_sdc_build_level lev ;;
  sweepers' <- updateZ (sweepers s) lev (Some sw) ;;
  _ <- getLevel (amr s) lev ;;
  let s := set_sweepers sweepers' (set_encaps encaps' s) in
  let s := alter_sweeper (set_ctx (Some lev)) lev s in
  let s := alter_sweeper (set_encap (Some e)) lev s in
  m <- sdc_mg_add_level (mg s) lev ;;
  Done (set_mg m s).

(** The first loop counts with an [unsigned int] against [max_level]: a
    negative [max_level] compares as a huge bound. *)
Definition rebuild_mlsdc (s : SDCAmr) : outcome SDCAmr :=
  let s := set_mg (sdc_mg_reset (mg s)) s in
  s <- (if max_level P <? 0 then Undefined
        else forM destroy_level (seqZ 0 (max_level P + 1)) s) ;;
  s <- forM build_level (seqZ 0 (finest_level (amr s) + 1)) s ;;
  let s := set_mg (sdc_mg_setup (mg s)) s in
  s <- sdc_mg_allocate s ;;
  Done (log EvRebuild s).

(** *** [SDCAmr::regrid] *)

Definition regrid (lbase : Z) (time : Real) (initial : bool) (s : SDCAmr)
  : outcome SDCAmr :=
  let a := set_mesh (Amr_regrid E lbase time initial (amr s)) (amr s) in
  let changed := bool_decide (shape a <> shape (amr s)) in
  let s := log (EvAmrRegrid lbase changed) (set_amr a s) in
  rebuild_mlsdc s.

(** *** [SDCAmr::timeStep] *)

(** The regrid loop [for (i = level; i <= lev_top; i++)].  The body may
    reset [lev_top], but never above [max_level - 1], so the loop makes at
    most [max_level - i] more iterations: [n] counts them down. *)
Definition regrid_body (time stop_time : Real) (i : Z) (s : SDCAmr) : outcome SDCAmr :=
  if okToRegrid E (amr s) i then
    s <- regrid i time false s ;;
    let s := set_amr (set_dt (computeNewDt E (amr s) stop_time 1) (amr s)) s in
    lc <- forM (fun k lc => updateZ lc k 0)
               (seqZ i (finest_level (amr s) - i + 1)) (level_count (amr s)) ;;
    Done (set_amr (set_level_count lc (amr s)) s)
  else Done s.

Fixpoint regrid_loop (n : nat) (time stop_time : Real) (i lev_top : Z) (s : SDCAmr)
  : outcome SDCAmr :=
  match n with
  | O => Done s
  | S n' =>
      if i <=? lev_top then
        let old_finest := finest_level (amr s) in
        s' <- regrid_body time stop_time i s ;;
        let lev_top' :=
          if finest_level (amr s') <? old_finest
          then Z.min (finest_level (amr s')) (max_level P - 1)
          else lev_top in
        regrid_loop n' time stop_time (i + 1) lev_top' s'
      else Done s
  end.

Definition regridding (level : Z) (time stop_time : Real) (s : SDCAmr) : outcome SDCAmr :=
  let lev_top := Z.min (finest_level (amr s)) (max_level P - 1) in
  regrid_loop (Z.to_nat (max_level P - level)) time stop_time level lev_top s.

(** "set intial conditions" *)
Definition seed_mode (lev : Z) : FillType :=
  if lev =? 0 then use_FillBoundary else use_FillCoarsePatch.

Definition seed_state (time : Real) (lev : Z) (st : nat) (s : SDCAmr) : outcome SDCAmr :=
  amrlevel <- getLevel (amr s) lev ;;
  sd <- lookup_nat (state amrlevel) st ;;
  let fill_boundary_type := seed_mode lev in
  let Unew := fill_boundary E (amr s) lev (new_data sd) time fill_boundary_type in
  let s := log (EvFill lev st fill_boundary_type)
               (set_amr (alter_state (set_new_data Unew) lev st (amr s)) s) in
  '(p, sw) <- mg_sweeper s lev ;;
  U0 <- lookupZ (Q (nset sw)) 0 ;;
  let U0 := if ndebug P then U0 else setVal NAN (nGrow U0) U0 in
  U0 <- MultiFab_Copy U0 Unew 0 0 (nComp U0) (nGrow U0) ;;
  if negb (ndebug P) && contains_nan U0
  then Aborted "Assertion `U0.contains_nan() == false' failed"
  else Done (log (EvSeed lev st)
                 (alter_sweeper (fun sw => set_Q (<[0%nat := U0]> (Q (nset sw))) sw) p s)).

Definition seed_level (time : Real) (lev : Z) (s : SDCAmr) : outcome SDCAmr :=
  amrlevel <- getLevel (amr s) lev ;;
  forM (seed_state time lev) (seq 0 (length (state amrlevel))) s.

Definition seeding (time : Real) (s : SDCAmr) : outcome SDCAmr :=
  forM (seed_level time) (seqZ 0 (finest_level (amr s) + 1)) s.

(** "set times" *)
Definition set_time_state (time : Real) (lev : Z) (st : nat) (s : SDCAmr) : outcome SDCAmr :=
  dt0 <- lookupZ (dt_level (amr s)) 0 ;;
  Done (set_amr (alter_state (setTimeLevel (Rplus time dt0) dt0 dt0) lev st (amr s)) s).

Definition set_time_level (time : Real) (lev : Z) (s : SDCAmr) : outcome SDCAmr :=
  amrlevel <- getLevel (amr s) lev ;;
  forM (set_time_state time lev) (seq 0 (length (state amrlevel))) s.

Definition set_times (time : Real) (s : SDCAmr) : outcome SDCAmr :=
  forM (set_time_level time) (seqZ 0 (finest_level (amr s) + 1)) s.

(** Spread and iterate.  The residual echo under [verbose] only prints. *)
Definition spreading (time : Real) (s : SDCAmr) : outcome SDCAmr :=
  dt0 <- lookupZ (dt_level (amr s)) 0 ;;
  s <- mg_apply (fun qs => sdc_mg_spread E (amr s) qs time dt0 0) s ;;
  Done (log EvSpread s).

Definition sweep (time : Real) (k : Z) (s : SDCAmr) : outcome SDCAmr :=
  dt0 <- lookupZ (dt_level (amr s)) 0 ;;
  let flags := if k =? max_iters s - 1 then SDC_MG_LAST_SWEEP E else 0 in
  s <- mg_apply (fun qs => sdc_mg_sweep E (amr s) qs time dt0 flags) s ;;
  Done (log (EvSweep flags) s).

Definition sweeping (time : Real) (s : SDCAmr) : outcome SDCAmr :=
  forM (sweep time) (seqZ 0 (max_iters s)) s.

(** "copy final solution from SDCLib to 'new data'" *)
Definition final_state (lev : Z) (st : nat) (s : SDCAmr) : outcome SDCAmr :=
  amrlevel <- getLevel (amr s) lev ;;
  '(_, sw) <- mg_sweeper s lev ;;
  let nnodes := nnodes (nset sw) in
  sd <- lookup_nat (state amrlevel) st ;;
  Uend <- lookupZ (Q (nset sw)) (nnodes - 1) ;;
  Unew <- MultiFab_Copy (new_data sd) Uend 0 0 (nComp Uend) (nGrow Uend) ;;
  Done (log (EvFinal lev st)
            (set_amr (alter_state (set_new_data Unew) lev st (amr s)) s)).

Definition final_level (lev : Z) (s : SDCAmr) : outcome SDCAmr :=
  amrlevel <- getLevel (amr s) lev ;;
  forM (final_state lev) (seq 0 (length (state amrlevel))) s.

Definition finalizing (s : SDCAmr) : outcome SDCAmr :=
  forM final_level (seqZ 0 (finest_level (amr s) + 1)) s.

(** [level_steps[level]++; level_count[level]++;] *)
Definition count_step (level : Z) (s : SDCAmr) : outcome SDCAmr :=
  n <- lookupZ (level_steps (amr s)) level ;;
  n <- int_of (n + 1) ;;
  ls <- updateZ (level_steps (amr s)) level n ;;
  let s := set_amr (set_level_steps ls (amr s)) s in
  n <- lookupZ (level_count (amr s)) level ;;
  n <- int_of (n + 1) ;;
  lc <- updateZ (level_count (amr s)) level n ;;
  Done (set_amr (set_level_count lc (amr s)) s).

(** The step up to the seeding: the assertion, the first build of the
    sweepers and the regrid loop. *)
Definition preparing (level : Z) (time stop_time : Real) (s : SDCAmr)
  : outcome SDCAmr :=
  if negb (ndebug P) && negb (level =? 0)
  then Aborted "Assertion `level == 0' failed"
  else
    o <- lookupZ (sweepers s) 0 ;;
    s <- (match o with
          | None => rebuild_mlsdc s
          | Some _ => Done s
          end) ;;
    regridding level time stop_time s.

(** The step up to and including the seeding of [Q[0]]. *)
Definition timeStep_seeded (level : Z) (time stop_time : Real) (s : SDCAmr)
  : outcome SDCAmr :=
  s <- preparing level time stop_time s ;;
  seeding time s.

Definition timeStep (level : Z) (time : Real) (iteration niter : Z) (stop_time : Real)
    (s : SDCAmr) : outcome SDCAmr :=
  s <- timeStep_seeded level time stop_time s ;;
  s <- set_times time s ;;
  s <- spreading time s ;;
  s <- sweeping time s ;;
  s <- finalizing s ;;
  count_step level s.

(** *** [SDCAmr::SDCAmr]

    The base class is constructed first: [a] is its state. *)
Definition check_blocking (i : Z) (u : unit) : outcome unit :=
  if blockingFactor P i <? 4
  then Aborted "For AMR runs, set blocking_factor to at least 4."
  else Done u.

Definition SDCAmr_new (pp : ParmParse) (a : Amr) : outcome SDCAmr :=
  let max_iters := default 22 (pp_max_iters pp) in
  let max_trefs := default 3 (pp_max_trefs pp) in
  let mg := sdc_mg_hooks_add SDC_HOOK_POST_TRANS (sdc_mg_build (max_level P + 1)) in
  if max_level P <? 0 then Undefined
  else
    let n := Z.to_nat (max_level P + 1) in
    let s := {| amr := a; max_iters := max_iters; max_trefs := max_trefs; mg := mg;
                sweepers := replicate n None; encaps := replicate n None;
                trace := [] |} in
    _ <- (if 0 <? max_level P
          then forM check_blocking (seqZ 0 (max_level P + 1)) ()
          else Done ()) ;;
    Done s.

(** *** The driving loop: a sequence of [Step] and [Regrid] calls *)

Inductive Call : Type :=
| Step (level : Z) (time : Real) (iteration niter : Z) (stop_time : Real)
| Regrid (lbase : Z) (time : Real) (initial : bool).

Definition call (c : Call) (s : SDCAmr) : outcome SDCAmr :=
  match c with
  | Step level time iteration niter stop_time =>
      timeStep level time iteration niter stop_time s
  | Regrid lbase time initial => regrid lbase time initial s
  end.

Definition run (calls : list Call) (s : SDCAmr) : outcome SDCAmr :=
  forM call calls s.

(** ** Observations *)

(** [*(MultiFab* ) mg.sweepers[lev]->nset->Q[m]] *)
Definition node (s : SDCAmr) (lev m : Z) : outcome MultiFab :=
  '(_, sw) <- mg_sweeper s lev ;;
  lookupZ (Q (nset sw)) m.

(** [mg.sweepers[lev]->nset->Q[nnodes - 1]] *)
Definition last_node (s : SDCAmr) (lev : Z) : outcome MultiFab :=
  '(_, sw) <- mg_sweeper s lev ;;
  lookupZ (Q (nset sw)) (nnodes (nset sw) - 1).

(** [getLevel(lev).get_new_data(st)] *)
Definition Unew (a : Amr) (lev : Z) (st : nat) : outcome MultiFab :=
  amrlevel <- getLevel a lev ;;
  sd <- lookup_nat (state amrlevel) st ;;
  Done (new_data sd).

Definition is_sweep (e : Event) : bool :=
  match e with
  | EvSweep _ => true
  | _ => false
  end.

Definition is_rebuild (e : Event) : bool :=
  match e with
  | EvRebuild => true
  | _ => false
  end.

Definition is_regrid (e : Event) : bool :=
  match e with
  | EvAmrRegrid _ _ => true
  | _ => false
  end.

Definition is_change (e : Event) : bool :=
  match e with
  | EvAmrRegrid _ true => true
  | _ => false
  end.

(** [getLevel(lev).get_desc_lst().size()], zero when there is no such level. *)
Definition nstates (a : Amr) (lev : Z) : nat :=
  from_option (fun L => length (state L)) O (amr_level a !! Z.to_nat lev).

(** What seeding calls, level by level and state by state. *)
Definition level_seed_events (lev : Z) (n : nat) : list Event :=
  st ← seq 0 n; [EvFill lev st (seed_mode lev); EvSeed lev st].

Definition seed_events (a : Amr) : list Event :=
  lev ← seqZ 0 (finest_level a + 1); level_seed_events lev (nstates a lev).

Definition level_final_events (lev : Z) (n : nat) : list Event :=
  st ← seq 0 n; [EvFinal lev st].

Definition final_events (a : Amr) : list Event :=
  lev ← seqZ 0 (finest_level a + 1); level_final_events lev (nstates a lev).

Definition sweep_events (n : Z) : list Event :=
  (fun k => EvSweep (if k =? n - 1 then SDC_MG_LAST_SWEEP E else 0)) <$> seqZ 0 n.

(** In a history, a rebuild separates every mesh regrid from every later
    seeding copy. *)
Definition rebuilt_before_seeding (tr : list Event) : Prop :=
  forall (i j : nat) lbase changed lev st,
    tr !! i = Some (EvAmrRegrid lbase changed) ->
    tr !! j = Some (EvSeed lev st) ->
    (i < j)%nat ->
    exists k, (i < k < j)%nat /\ tr !! k = Some EvRebuild.

(** ** Well-formed states and lawful collaborators *)

Definition nnodes_of (lev : Z) : Z := 1 + (nnodes0 - 1) * trat ^ lev.

(** Fields of one layout. *)
Definition uniform_fields (q : list MultiFab) : Prop :=
  forall U V, U ∈ q -> V ∈ q -> same_shape U V.

(** The state fields of a level are well formed and share the level's
    layout. *)
Definition level_ok (L : AmrLevel) : Prop :=
  Forall (fun sd => wf_mf (new_data sd)) (state L) /\
  uniform_fields (new_data <$> state L).

Definition mesh_ok (a : Amr) : Prop :=
  0 <= finest_level a <= max_level P /\
  finest_level a < Z.of_nat (length (amr_level a)) /\
  Forall level_ok (amr_level a).

Definition counters_ok (a : Amr) : Prop :=
  max_level P < Z.of_nat (length (level_steps a)) /\
  max_level P < Z.of_nat (length (level_count a)) /\
  dt_level a <> [].

(** The step counters of the base level can be incremented in an [int]. *)
Definition can_count (a : Amr) : Prop :=
  exists n c,
    level_steps a !! 0%nat = Some n /\ level_count a !! 0%nat = Some c /\
    INT_MIN <= n + 1 <= INT_MAX /\ INT_MIN <= c + 1 <= INT_MAX.

(** The two vectors as the constructor sizes them; a slot that holds a
    sweeper holds the sweeper's encapsulation.  Level [max_level] can be
    built with [int] node counts. *)
Definition slots_ok (s : SDCAmr) : Prop :=
  max_level P <= 29 /\
  Z.of_nat (length (sweepers s)) = max_level P + 1 /\
  Z.of_nat (length (encaps s)) = max_level P + 1 /\
  mg_capacity (mg s) = max_level P + 1 /\
  (forall (i : nat) sw, sweepers s !! i = Some (Some sw) ->
     exists e, encaps s !! i = Some (Some e)).

(** The node storage of a level fits every state field of the level. *)
Definition node_ok (L : AmrLevel) (sw : sdc_sweeper) : Prop :=
  nnodes (nset sw) = Z.of_nat (length (Q (nset sw))) /\
  1 <= nnodes (nset sw) /\
  uniform_fields (Q (nset sw)) /\
  Forall (fun U => wf_mf U /\ Forall (fun sd => same_shape U (new_data sd)) (state L))
         (Q (nset sw)).

(** The orchestrator holds one sweeper per mesh level, each sized for it. *)
Definition synced (s : SDCAmr) : Prop :=
  mg_sweepers (mg s) = seqZ 0 (finest_level (amr s) + 1) /\
  forall lev : nat, Z.of_nat lev <= finest_level (amr s) ->
    exists L sw, amr_level (amr s) !! lev = Some L /\
                 sweepers s !! lev = Some (Some sw) /\
                 node_ok L sw.

(** A controller as a rebuild leaves it, and as the constructor does too. *)
Definition in_sync (s : SDCAmr) : Prop :=
  mesh_ok (amr s) /\ counters_ok (amr s) /\ slots_ok s /\ synced s.

Definition ready (s : SDCAmr) : Prop :=
  mesh_ok (amr s) /\ counters_ok (amr s) /\ slots_ok s /\
  (sweepers s !! 0%nat = Some None \/ synced s).

(** What a phase of a step leaves alone: everything but the fields. *)
Definition same_scalars (s s' : SDCAmr) : Prop :=
  finest_level (amr s') = finest_level (amr s) /\
  level_steps (amr s') = level_steps (amr s) /\
  level_count (amr s') = level_count (amr s) /\
  dt_level (amr s') = dt_level (amr s) /\
  max_iters s' = max_iters s /\
  mg s' = mg s.

(** Level [lev] apart, the mesh data and the sweepers are the same. *)
Definition frame (lev : nat) (s s' : SDCAmr) : Prop :=
  forall j : nat, j <> lev ->
    amr_level (amr s') !! j = amr_level (amr s) !! j /\
    sweepers s' !! j = sweepers s !! j.

(** The histories that regridding can write: each mesh regrid with the
    rebuild that follows it; before them, the first build of the sweepers. *)
Inductive regrid_trace : list Event -> Prop :=
| regrid_trace_nil : regrid_trace []
| regrid_trace_cons lbase changed evs :
    regrid_trace evs ->
    regrid_trace (EvAmrRegrid lbase changed :: EvRebuild :: evs).

Definition prepare_trace (evs : list Event) : Prop :=
  exists evs', regrid_trace evs' /\ (evs = evs' \/ evs = EvRebuild :: evs').

(** What the controller relies on from its collaborators: a regrid leaves
    a well-formed hierarchy, boundary fill and the step library keep the
    layout of the fields they update (the step library is given well-formed
    node fields, those of one level of one layout), an encapsulation creates
    fields laid out like the level's state, and in a debug build a filled
    field holds no not-a-number, so that the assertion on a seeded node
    holds. *)
Record Lawful : Prop := mkLawful {
  regrid_mesh_ok : forall lbase time initial a,
    mesh_ok a -> mesh_ok (set_mesh (Amr_regrid E lbase time initial a) a);
  newdt_ok : forall a stop_time flag,
    (computeNewDt E a stop_time flag).2 <> [];
  fill_shape : forall a lev U time mode,
    wf_mf U ->
    wf_mf (fill_boundary E a lev U time mode) /\
    same_shape (fill_boundary E a lev U time mode) U;
  fill_no_nan : ndebug P = false -> forall a lev U time mode,
    wf_mf U -> contains_nan (fill_boundary E a lev U time mode) = false;
  encap_shape : forall a (lev : nat) L,
    mesh_ok a -> amr_level a !! lev = Some L ->
    wf_mf (encap_create E (build_encap E a (Z.of_nat lev))) /\
    Forall (fun sd => same_shape (encap_create E (build_encap E a (Z.of_nat lev)))
                                 (new_data sd)) (state L);
  spread_shape : forall a qs time dt flags,
    Forall (fun q => Forall wf_mf q /\ uniform_fields q) qs ->
    Forall2 (Forall2 (fun U' U => wf_mf U' /\ same_shape U' U))
            (sdc_mg_spread E a qs time dt flags) qs;
  sweep_shape : forall a qs time dt flags,
    Forall (fun q => Forall wf_mf q /\ uniform_fields q) qs ->
    Forall2 (Forall2 (fun U' U => wf_mf U' /\ same_shape U' U))
            (sdc_mg_sweep E a qs time dt flags) qs
}.

(** The state that [seed_state] returns when the hierarchies are in step
    (lemma [seed_state_seeded]). *)
Definition seeded (time : Real) (lev : Z) (st : nat) (sd : StateData) (s : SDCAmr)
  : SDCAmr :=
  let U := fill_boundary E (amr s) lev (new_data sd) time (seed_mode lev) in
  log (EvSeed lev st)
    (alter_sweeper (fun sw => set_Q (<[0%nat := U]> (Q (nset sw))) sw) lev
       (log (EvFill lev st (seed_mode lev))
          (set_amr (alter_state (set_new_data U) lev st (amr s)) s))).

(** The state that [rebuild_mlsdc] returns (lemma [rebuild_mlsdc_rebuilt]):
    a sweeper as [build_level] leaves it, then as allocation does. *)
Definition prebuilt (a : Amr) (lev : Z) : sdc_sweeper :=
  let e := build_encap E a lev in
  {| nset := {| nnodes := nnodes_of lev; qtype := SDC_GAUSS_LOBATTO; Q := [];
                ctx := Some lev; encap := Some e |};
     hooks := [SDC_HOOK_POST_STEP] |}.

Definition built (a : Amr) (lev : Z) : sdc_sweeper :=
  let e := build_encap E a lev in
  {| nset := {| nnodes := nnodes_of lev; qtype := SDC_GAUSS_LOBATTO;
                Q := replicate (Z.to_nat (nnodes_of lev)) (encap_create E e);
                ctx := Some lev; encap := Some e |};
     hooks := [SDC_HOOK_POST_STEP] |}.

(** [g 0, ..., g (k - 1)] in the first slots of a vector of [n] slots. *)
Definition slots {A : Type} (g : Z -> A) (k : Z) (n : nat) : list (option A) :=
  ((fun lev => Some (g lev)) <$> seqZ 0 k) ++ replicate (n - Z.to_nat k) None.

(** [g 0, ..., g (k - 1)] in the first slots of the vector [old], the other
    slots of which are as they were. *)
Definition refill {A : Type} (g : Z -> A) (k : Z) (old : list (option A))
  : list (option A) :=
  ((fun lev => Some (g lev)) <$> seqZ 0 k) ++ drop (Z.to_nat k) old.

Definition rebuilt (s : SDCAmr) : SDCAmr :=
  let a := amr s in
  let n := Z.to_nat (max_level P + 1) in
  {| amr := a; max_iters := max_iters s; max_trefs := max_trefs s;
     mg := {| mg_capacity := mg_capacity (mg s);
              mg_sweepers := seqZ 0 (finest_level a + 1);
              mg_hooks := mg_hooks (mg s) |};
     sweepers := slots (built a) (finest_level a + 1) n;
     encaps := refill (build_encap E a) (finest_level a + 1) (encaps s);
     trace := trace s ++ [EvRebuild] |}.

(** ** The sentences of the specification that the code does not satisfy
    as they are written *)

(** "A [Step] with no shape change must not rebuild": when the sweepers
    exist and no regrid of the step changes the shape of the mesh, the
    step's history holds no rebuild. *)
Definition quiet_step_no_rebuild (time : Real) (iteration niter : Z) (stop_time : Real)
    (s : SDCAmr) : Prop :=
  forall s' evs,
    sweepers s !! 0%nat <> Some None ->
    timeStep 0 time iteration niter stop_time s = Done s' ->
    trace s' = trace s ++ evs ->
    existsb is_change evs = false ->
    existsb is_rebuild evs = false.


(** "The per-level step counter and sub-step counter are incremented for
    every level of the hierarchy." *)
Definition counters_of_every_level (time : Real) (iteration niter : Z)
    (stop_time : Real) (s : SDCAmr) : Prop :=
  forall s', timeStep 0 time iteration niter stop_time s = Done s' ->
    forall lev n c,
      0 <= lev <= finest_level (amr s') ->
      lookupZ (level_steps (amr s)) lev = Done n ->
      lookupZ (level_count (amr s)) lev = Done c ->
      lookupZ (level_steps (amr s')) lev = Done (n + 1) /\
      lookupZ (level_count (amr s')) lev = Done (c + 1).

(** ** Sequences of calls *)

(** A [Step] is called on the base level. *)
Definition base_call (c : Call) : Prop :=
  match c with
  | Step level _ _ _ _ => level = 0
  | Regrid _ _ _ => True
  end.

(** The counters of the base level can be incremented [k] times. *)
Definition can_count_n (k : nat) (a : Amr) : Prop :=
  exists n c,
    level_steps a !! 0%nat = Some n /\ level_count a !! 0%nat = Some c /\
    INT_MIN <= n + 1 /\ n + Z.of_nat k <= INT_MAX /\
    INT_MIN <= c + 1 /\ Z.max c 0 + Z.of_nat k <= INT_MAX.

(** In a history, the event after every mesh regrid is a rebuild. *)
Definition rebuild_follows (tr : list Event) : Prop :=
  forall (i : nat) lbase changed,
    tr !! i = Some (EvAmrRegrid lbase changed) -> tr !! S i = Some EvRebuild.

End Controller.
End Model.

(** * A two-level hierarchy to run the controller on

    Fields of one component and one ghost ring over integers; a negative
    value stands for a not-a-number.  Boundary fill writes the ghost ring
    and leaves the valid region; spreading copies the first node to the
    others; a sweep adds one everywhere.  A regrid is due at the base level
    when [due], and then keeps the grids as they are, or, with [coarsen],
    drops every fine level. *)

Section Demo.

#[local] Instance demo_carriers : Carriers := {|
  Real := Z;
  Rplus := Z.add;
  Val := Z;
  NAN := -1;
  has_nan := fun v => v <? 0;
  sdc_encap := (list (list Z * list Z) * nat * nat)%type
|}.

Definition demo_fill_row (v : Z) (row : list Z) : list Z :=
  match row with
  | [] => []
  | x :: ghost => x :: map (fun _ => v) ghost
  end.

Definition demo_fill (mode : FillType) (U : MultiFab) : MultiFab :=
  {| boxArray := boxArray U; nGrow := nGrow U;
     fabs := map (demo_fill_row (match mode with
                                 | use_FillCoarsePatch => 8
                                 | use_FillBoundary => 7
                                 | set_PhysBoundary => 9
                                 end)) (fabs U) |}.

Definition demo_bump (U : MultiFab) : MultiFab :=
  {| boxArray := boxArray U; nGrow := nGrow U;
     fabs := map (map Z.succ) (fabs U) |}.

Definition demo_spread (q : list MultiFab) : list MultiFab :=
  match q with
  | [] => []
  | U0 :: _ => map (fun _ => U0) q
  end.

Definition demo_encap (a : Amr) (lev : Z) : list (list Z * list Z) * nat * nat :=
  match amr_level a !! Z.to_nat lev with
  | Some L =>
      match state L with
      | sd :: _ => (boxArray (new_data sd), nGrow (new_data sd), nComp (new_data sd))
      | [] => ([], O, O)
      end
  | None => ([], O, O)
  end.

Definition demo_create (e : list (list Z * list Z) * nat * nat) : MultiFab :=
  {| boxArray := e.1.1; nGrow := e.1.2;
     fabs := replicate e.2 (replicate (S e.1.2) 0) |}.

Definition demo_externals (due coarsen : bool) : Externals := {|
  okToRegrid := fun _ i => due && (i =? 0);
  Amr_regrid := fun _ _ _ a =>
    if coarsen then (0, amr_level a) else (finest_level a, amr_level a);
  computeNewDt := fun a _ _ =>
    (n_cycle a, dt_min a, match dt_level a with [] => [1] | l => l end);
  fill_boundary := fun _ _ U _ mode => demo_fill mode U;
  avgDown := fun _ _ UG _ => UG;
  build_encap := demo_encap;
  encap_create := demo_create;
  SDC_SOLUTION := 1;
  SDC_MG_LAST_SWEEP := 1;
  sdc_mg_spread := fun _ qs _ _ _ => map demo_spread qs;
  sdc_mg_sweep := fun _ qs _ _ _ => map (map demo_bump) qs
|}.

Definition demo_field (hi valid ghost : Z) : MultiFab :=
  {| boxArray := [([0], [hi])]; nGrow := 1; fabs := [[valid; ghost]] |}.

Definition demo_level (hi valid ghost : Z) : AmrLevel :=
  {| grids := [([0], [hi])];
     state := [{| new_data := demo_field hi valid ghost; time_level := None |}] |}.

Definition demo_amr : Amr :=
  {| finest_level := 1;
     amr_level := [demo_level 7 10 11; demo_level 15 20 21];
     level_steps := [0; 0]; level_count := [0; 0];
     n_cycle := [1; 1]; dt_min := [1; 1]; dt_level := [5; 5] |}.

Definition demo_params : AmrParams :=
  {| max_level := 1; blockingFactor := fun _ => 8; ndebug := true |}.

Definition demo_inputs : ParmParse :=
  {| pp_max_iters := Some 2; pp_max_trefs := None |}.

(** The controller as its constructor leaves it on [demo_amr]. *)
Definition demo_state : SDCAmr :=
  {| amr := demo_amr; max_iters := 2; max_trefs := 3;
     mg := {| mg_capacity := 2; mg_sweepers := []; mg_hooks := [SDC_HOOK_POST_TRANS] |};
     sweepers := [None; None]; encaps := [None; None]; trace := [] |}.

(** The same controller once its sweepers are built. *)
Definition demo_built (due coarsen : bool) : SDCAmr :=
  rebuilt demo_params (demo_externals due coarsen) demo_state.

(** A step on built sweepers during which a regrid is due and leaves the
    grids as they are. *)
Definition demo_quiet_step : SDCAmr :=
  returned demo_state
    (timeStep demo_params (demo_externals true false) 0 0 0 1 100 (demo_built true false)).


Definition demo_stepped : SDCAmr :=
  returned demo_state
    (timeStep demo_params (demo_externals false false) 0 0 0 1 100 demo_state).

End Demo.

(** * Interpolation, and further observations on meshes and histories *)

Section Transfer.
Context `{Car : Carriers}.

(** The base levels of the mesh regrids of a history, oldest first. *)
Definition regrid_levels (evs : list Event) : list Z :=
  omap (fun e => match e with
                 | EvAmrRegrid lbase _ => Some lbase
                 | _ => None
                 end) evs.

(** The time levels of every state of every level, as [setTimeLevel] left
    them. *)
Definition times (a : Amr) : list (list (option (Real * Real * Real))) :=
  (fun L => time_level <$> state L) <$> amr_level a.

(** The number of steps in a sequence of calls. *)
Definition is_Step (c : Call) : bool :=
  match c with
  | Step _ _ _ _ _ => true
  | Regrid _ _ _ => false
  end.

Definition steps_of (calls : list Call) : Z :=
  Z.of_nat (length (List.filter is_Step calls)).

(** [Box::grow(n)] *)
Definition grow (n : Z) (b : Box) : Box :=
  ((fun x => x - n) <$> b.1, (fun x => x + n) <$> b.2).

(** What [mlsdc_amr_interpolate] consumes besides boundary fill: the
    descriptor of the fine level's first state type (its boundary records
    and its interpolater [map]), the parallel copy of [MultiFab], and
    [BoxLib::setBC].  [fresh] is the content of a [MultiFab] that has just
    been allocated. *)
Record Interp : Type := mkInterp {
  BCRecs : Type;
  (** [levelG.fineRatio()] *)
  fineRatio : Amr -> Z -> IntVect;
  (** [dl[0].getBCs()] of the fine level *)
  getBCs : Amr -> Z -> BCRecs;
  (** [map.CoarseBox(box, ratio)] *)
  CoarseBox : Amr -> Z -> Box -> IntVect -> Box;
  fresh : Val;
  (** [UC.copy(UG)]: the new [UC] *)
  MultiFab_copy : MultiFab -> MultiFab -> MultiFab;
  (** [BoxLib::setBC(box, levelF.Domain(), 0, 0, ncomp, bcs, bcr)]: the
      new [bcr], all [ncomp] entries of which are written *)
  setBC : Box -> Amr -> Z -> nat -> BCRecs -> BCRecs;
  (** [map.interp(UC[i], 0, UF[i], 0, ncomp, box, ratio, crse_geom,
      fine_geom, bcr, 0, 0)] for patch [i], the two geometries being those
      of the patch's boxes: the new [UF] *)
  interp : nat -> MultiFab -> MultiFab -> nat -> Box -> IntVect -> BCRecs -> MultiFab
}.

Section Interpolate.
Variable P : AmrParams.
Variable E : Externals.
Variable I : Interp.

(** [MultiFab UC(crseba, ncomp, 0)] *)
Definition MultiFab_new (ba : BoxArray) (ncomp ngrow : nat) : MultiFab :=
  {| boxArray := ba; nGrow := ngrow;
     fabs := replicate ncomp (replicate (S ngrow) (fresh I)) |}.

(** One iteration of [for (MFIter mfi(UF); mfi.isValid(); ++mfi)] on patch
    [i], whose box [UF[mfi].box()] is [box]. *)
Definition interp_patch (a : Amr) (ctxF : Z) (ratio : IntVect) (ncomp : nat)
    (bcs : BCRecs I) (UC : MultiFab) (UF : MultiFab) (patch : nat * Box) : MultiFab :=
  let '(i, box) := patch in
  let bcr := setBC I box a ctxF ncomp bcs in
  interp I i UC UF ncomp box ratio bcr.

(** The patches of a field: their indices and their boxes, which are the
    grid boxes grown by the ghost width. *)
Definition patches (U : MultiFab) : list (nat * Box) :=
  imap (fun i b => (i, grow (Z.of_nat (nGrow U)) b)) (boxArray U).

(** [mlsdc_amr_interpolate(F, G, state, ctxF, ctxG)]: the fine field as the
    call leaves it; the coarse field [G] is only read.  [ctxF] and [ctxG]
    are the two levels, and [sdc] is the argument [state].  The descriptor
    [dl[0]] is that of the first state of the fine level, whose field has
    [dl[0].nComp()] components. *)
Definition mlsdc_amr_interpolate (a : Amr) (F G : MultiFab) (sdc : sdc_state)
    (ctxF ctxG : Z) : outcome MultiFab :=
  let ratio := fineRatio I a ctxG in
  levelF <- getLevel a ctxF ;;
  dl0 <- lookup_nat (state levelF) 0 ;;
  let bcs := getBCs I a ctxF in
  let ncomp := nComp (new_data dl0) in
  let crseba := (fun p => CoarseBox I a ctxF p.2 ratio) <$> patches F in
  let UC := MultiFab_new crseba ncomp 0 in
  let UC := if ndebug P then UC else setVal NAN (nGrow UC) UC in
  let UF := if ndebug P then F else setVal NAN (nGrow F) F in
  let UC := MultiFab_copy I UC G in
  let UC := fill_boundary E a ctxG UC (t sdc) set_PhysBoundary in
  if negb (ndebug P) && contains_nan UC
  then Aborted "Assertion `UC.contains_nan() == false' failed"
  else
    let UF := fold_left (interp_patch a ctxF ratio ncomp bcs UC) (patches F) UF in
    let UF := fill_boundary E a ctxF UF (t sdc) set_PhysBoundary in
    if negb (ndebug P) && contains_nan UF
    then Aborted "Assertion `UF.contains_nan() == false' failed"
    else Done UF.

(** The coarse copy [UC] of [mlsdc_amr_interpolate] as its first assertion
    reads it, after the copy from [G] and the boundary fill, and the fine
    field [UF] as the second assertion reads it, after the interpolation of
    every patch and the boundary fill; [ncomp] is [dl[0].nComp()]. *)
Definition interpolate_UC (a : Amr) (F G : MultiFab) (sdc : sdc_state)
    (ctxF ctxG : Z) (ncomp : nat) : MultiFab :=
  let ratio := fineRatio I a ctxG in
  let crseba := (fun p => CoarseBox I a ctxF p.2 ratio) <$> patches F in
  let UC := MultiFab_new crseba ncomp 0 in
  let UC := if ndebug P then UC else setVal NAN (nGrow UC) UC in
  let UC := MultiFab_copy I UC G in
  fill_boundary E a ctxG UC (t sdc) set_PhysBoundary.

Definition interpolate_UF (a : Amr) (F G : MultiFab) (sdc : sdc_state)
    (ctxF ctxG : Z) (ncomp : nat) : MultiFab :=
  let ratio := fineRatio I a ctxG in
  let bcs := getBCs I a ctxF in
  let UC := interpolate_UC a F G sdc ctxF ctxG ncomp in
  let UF := if ndebug P then F else setVal NAN (nGrow F) F in
  let UF := fold_left (interp_patch a ctxF ratio ncomp bcs UC) (patches F) UF in
  fill_boundary E a ctxF UF (t sdc) set_PhysBoundary.

End Interpolate.

(** ** The node fields through the sweeps *)

Section NodeFields.
Variable E : Externals.

(** The node fields of the levels that the orchestrator holds, coarsest
    level first: what [sdc_mg_spread] and [sdc_mg_sweep] read and write. *)
Definition fields (s : SDCAmr) : outcome (list (list MultiFab)) :=
  mg_fields s (mg_sweepers (mg s)).

(** The flags of iteration [k] of [n]:
    [k == max_iters - 1 ? SDC_MG_LAST_SWEEP : 0]. *)
Definition sweep_flags (n k : Z) : Z :=
  if k =? n - 1 then SDC_MG_LAST_SWEEP E else 0.

(** The node fields after the calls of [sdc_mg_sweep] of iterations
    [0, ..., n - 1], each on the fields that the one before left. *)
Definition sweeps (a : Amr) (time dt : Real) (n : Z) (qs : list (list MultiFab))
  : list (list MultiFab) :=
  fold_left (fun qs k => sdc_mg_sweep E a qs time dt (sweep_flags n k)) (seqZ 0 n) qs.

End NodeFields.
End Transfer.

(** * More of the two-level hierarchy: a debug build, a boundary fill that
    leaves a not-a-number, and an interpolater *)

Section DemoTransfer.
#[local] Existing Instance demo_carriers.

(** [demo_params] without [NDEBUG]. *)
Definition demo_debug : AmrParams :=
  {| max_level := 1; blockingFactor := fun _ => 8; ndebug := false |}.

(** The collaborators of [demo_externals false false], except that the
    boundary fill writes a not-a-number into the ghost ring. *)
Definition demo_nan_externals : Externals := {|
  okToRegrid := fun _ _ => false;
  Amr_regrid := fun _ _ _ a => (finest_level a, amr_level a);
  computeNewDt := fun a _ _ =>
    (n_cycle a, dt_min a, match dt_level a with [] => [1] | l => l end);
  fill_boundary := fun _ _ U _ _ =>
    {| boxArray := boxArray U; nGrow := nGrow U;
       fabs := map (demo_fill_row (-1)) (fabs U) |};
  avgDown := fun _ _ UG _ => UG;
  build_encap := demo_encap;
  encap_create := demo_create;
  SDC_SOLUTION := 1;
  SDC_MG_LAST_SWEEP := 1;
  sdc_mg_spread := fun _ qs _ _ _ => map demo_spread qs;
  sdc_mg_sweep := fun _ qs _ _ _ => map (map demo_bump) qs
|}.

(** Piecewise-constant interpolation in one dimension with ratio [2]: a
    patch takes the valid value of the coarse field in all its regions. *)
Definition demo_interp : Interp := {|
  BCRecs := unit;
  fineRatio := fun _ _ => [2];
  getBCs := fun _ _ => ();
  CoarseBox := fun _ _ b _ => ((fun x => x / 2) <$> b.1, (fun x => x / 2) <$> b.2);
  fresh := 0;
  MultiFab_copy := fun UC UG =>
    {| boxArray := boxArray UC; nGrow := nGrow UC;
       fabs := zip_with (fun c g => take 1 g ++ drop 1 c) (fabs UC) (fabs UG) |};
  setBC := fun _ _ _ _ _ => ();
  interp := fun _ UC UF _ _ _ _ =>
    {| boxArray := boxArray UF; nGrow := nGrow UF;
       fabs := zip_with (fun c f => map (fun _ => hd 0 c) f) (fabs UC) (fabs UF) |}
|}.

(** Three levels: the finest is beyond [max_level] of [demo_params]. *)
Definition demo_deep_amr : Amr :=
  {| finest_level := 2;
     amr_level := [demo_level 7 10 11; demo_level 15 20 21; demo_level 31 30 31];
     level_steps := [0; 0; 0]; level_count := [0; 0; 0];
     n_cycle := [1; 1; 1]; dt_min := [1; 1; 1]; dt_level := [5; 5; 5] |}.

End DemoTransfer.

(** * Properties *)

(** ** Outcomes, loops and containers *)

Lemma bind_Done {A B : Type} (m : outcome A) (k : A -> outcome B) (b : B) :
  bind m k = Done b <-> exists a, m = Done a /\ k a = Done b.
Proof.
  split.
  - destruct m as [a| |]; simpl; intros H; try discriminate. eauto.
  - intros (a & -> & H). exact H.
Qed.

Lemma lookupZ_Some {A : Type} (l : list A) (i : Z) (x : A) :
  0 <= i -> l !! Z.to_nat i = Some x -> lookupZ l i = Done x.
Proof.
  intros Hi Hl. unfold lookupZ.
  destruct (Z.ltb_spec i 0); [lia|]. by rewrite Hl.
Qed.

Lemma lookupZ_nat {A : Type} (l : list A) (i : nat) (x : A) :
  l !! i = Some x -> lookupZ l (Z.of_nat i) = Done x.
Proof. intros H. apply lookupZ_Some; [lia|]. by rewrite Nat2Z.id. Qed.

Lemma lookupZ_Done {A : Type} (l : list A) (i : Z) (x : A) :
  lookupZ l i = Done x -> 0 <= i /\ l !! Z.to_nat i = Some x.
Proof.
  unfold lookupZ. destruct (Z.ltb_spec i 0); [discriminate|].
  destruct (l !! Z.to_nat i); [|discriminate]. intros [= ->]. split; [lia|done].
Qed.

Lemma updateZ_Some {A : Type} (l : list A) (i : Z) (x : A) :
  0 <= i < Z.of_nat (length l) -> updateZ l i x = Done (<[Z.to_nat i := x]> l).
Proof.
  intros Hi. unfold updateZ.
  destruct (Z.ltb_spec i 0); [lia|].
  destruct (Z.leb_spec (Z.of_nat (length l)) i); [lia|done].
Qed.

Lemma int_of_Done (z : Z) : INT_MIN <= z <= INT_MAX -> int_of z = Done z.
Proof.
  intros Hz. unfold int_of.
  destruct (Z.leb_spec INT_MIN z); [|lia].
  destruct (Z.leb_spec z INT_MAX); [done|lia].
Qed.

(** A loop over [lo, lo + n) establishes [Inv (lo + n)] when each iteration
    returns and carries [Inv i] to [Inv (i + 1)]. *)
Lemma forM_seqZ {St : Type} (body : Z -> St -> outcome St) (Inv : Z -> St -> Prop)
    (lo n : Z) (s : St) :
  0 <= n ->
  Inv lo s ->
  (forall i s, lo <= i < lo + n -> Inv i s ->
     exists s', body i s = Done s' /\ Inv (i + 1) s') ->
  exists s', forM body (seqZ lo n) s = Done s' /\ Inv (lo + n) s'.
Proof.
  intros Hn. rewrite <- (Z2Nat.id n Hn). clear Hn.
  generalize (Z.to_nat n) as m. clear n. intros m. revert lo s.
  induction m as [|m IH]; intros lo s H0 Hstep.
  - exists s. rewrite seqZ_nil by lia. split; [done|].
    by replace (lo + Z.of_nat 0) with lo by lia.
  - rewrite seqZ_cons by lia. simpl.
    destruct (Hstep lo s) as (s1 & Hb & H1); [lia|done|].
    rewrite Hb. simpl.
    replace (Z.pred (Z.of_nat (S m))) with (Z.of_nat m) by lia.
    destruct (IH (Z.succ lo) s1) as (s2 & Hf & H2).
    + by replace (Z.succ lo) with (lo + 1) by lia.
    + intros i s' Hi. apply Hstep. lia.
    + exists s2. split; [done|].
      by replace (lo + Z.of_nat (S m)) with (Z.succ lo + Z.of_nat m) by lia.
Qed.

Lemma forM_seq {St : Type} (body : nat -> St -> outcome St) (Inv : nat -> St -> Prop)
    (lo n : nat) (s : St) :
  Inv lo s ->
  (forall i s, (lo <= i < lo + n)%nat -> Inv i s ->
     exists s', body i s = Done s' /\ Inv (S i) s') ->
  exists s', forM body (seq lo n) s = Done s' /\ Inv (lo + n)%nat s'.
Proof.
  revert lo s. induction n as [|n IH]; intros lo s H0 Hstep.
  - exists s. split; [done|]. by rewrite Nat.add_0_r.
  - simpl. destruct (Hstep lo s) as (s1 & Hb & H1); [lia|done|].
    rewrite Hb. simpl.
    destruct (IH (S lo) s1) as (s2 & Hf & H2); [done| |].
    + intros i s' Hi. apply Hstep. lia.
    + exists s2. split; [done|]. by rewrite Nat.add_succ_r.
Qed.

(** ** Fields *)

Section Fields.
Context `{Car : Carriers}.

Lemma same_shape_refl (U : MultiFab) : same_shape U U.
Proof. by repeat split. Qed.

Lemma same_shape_sym (U V : MultiFab) : same_shape U V -> same_shape V U.
Proof. intros (? & ? & ?). by repeat split. Qed.

Lemma same_shape_trans (U V W : MultiFab) :
  same_shape U V -> same_shape V W -> same_shape U W.
Proof. intros (? & ? & ?) (? & ? & ?). repeat split; congruence. Qed.

Lemma zip_copy_row (ng : nat) (fs fd : list (list Val)) :
  Forall (fun row => length row = S ng) fs ->
  Forall (fun row => length row = S ng) fd ->
  length fs = length fd ->
  zip_with (copy_row ng) fs fd = fs.
Proof.
  intros Hs. revert fd. induction Hs as [|srow fs Hrow _ IH]; intros fd Hd Hlen.
  - by destruct fd.
  - destruct Hd as [|drow fd Hdrow Hd]; [discriminate|]. simpl in *.
    f_equal; [|apply IH; [done|lia]].
    unfold copy_row. rewrite take_ge by lia. rewrite drop_ge by lia.
    by rewrite app_nil_r.
Qed.

(** Copying all the components and ghost rings between two fields of one
    layout leaves the source in the destination. *)
Lemma MultiFab_Copy_full (dst src : MultiFab) :
  wf_mf dst -> wf_mf src -> same_shape dst src ->
  MultiFab_Copy dst src 0 0 (nComp dst) (nGrow dst) = Done src.
Proof.
  intros Hd Hs (Hb & Hg & Hc). unfold MultiFab_Copy.
  rewrite bool_decide_eq_true_2 by done.
  rewrite <- Hg, <- Hc. rewrite !Nat.leb_refl. simpl.
  destruct src as [b g fs], dst as [b' g' fd]. unfold nComp, wf_mf in *. simpl in *.
  subst. f_equal.
  rewrite !drop_0, !take_ge, drop_ge by lia.
  rewrite app_nil_r. f_equal. by apply zip_copy_row.
Qed.

Lemma MultiFab_Copy_full_src (dst src : MultiFab) :
  wf_mf dst -> wf_mf src -> same_shape src dst ->
  MultiFab_Copy dst src 0 0 (nComp src) (nGrow src) = Done src.
Proof.
  intros Hd Hs Hsh. destruct Hsh as (Hb & Hg & Hc). rewrite Hg, Hc.
  apply MultiFab_Copy_full; [done..|]. by repeat split.
Qed.

Lemma setVal_wf (v : Val) (ng : nat) (U : MultiFab) :
  wf_mf U -> wf_mf (setVal v ng U).
Proof.
  unfold wf_mf, setVal. cbn [fabs nGrow]. intros H. apply Forall_fmap.
  eapply Forall_impl; [exact H|]. intros row Hrow. unfold compose.
  rewrite length_app, length_replicate, length_drop. cbv beta in Hrow. lia.
Qed.

Lemma setVal_shape (v : Val) (ng : nat) (U : MultiFab) :
  same_shape (setVal v ng U) U.
Proof. unfold same_shape, setVal, nComp. simpl. by rewrite length_map. Qed.

Lemma uniform_fields_related (q' q : list MultiFab) :
  Forall2 same_shape q' q -> uniform_fields q -> uniform_fields q'.
Proof.
  intros Hrel Hu U V HU HV.
  apply list_elem_of_lookup in HU as (i & HU), HV as (j & HV).
  destruct (Forall2_lookup_l _ _ _ _ _ Hrel HU) as (U0 & HU0 & HUU0).
  destruct (Forall2_lookup_l _ _ _ _ _ Hrel HV) as (V0 & HV0 & HVV0).
  eapply same_shape_trans; [exact HUU0|].
  eapply same_shape_trans; [|apply same_shape_sym; exact HVV0].
  apply Hu; eapply list_elem_of_lookup_2; eassumption.
Qed.

Lemma uniform_fields_replicate (n : nat) (U : MultiFab) :
  uniform_fields (replicate n U).
Proof.
  intros V W HV HW. apply elem_of_replicate in HV as (-> & _).
  apply elem_of_replicate in HW as (-> & _). apply same_shape_refl.
Qed.

Lemma level_ok_wf (L : AmrLevel) (st : nat) (sd : StateData) :
  level_ok L -> state L !! st = Some sd -> wf_mf (new_data sd).
Proof. intros (Hwf & _) Hsd. by eapply Forall_lookup_1 in Hwf. Qed.

(** Altering one state of a level without changing the layout of its field. *)
Lemma level_ok_alter (L : AmrLevel) (st : nat) (sd : StateData)
    (f : StateData -> StateData) :
  level_ok L -> state L !! st = Some sd ->
  wf_mf (new_data (f sd)) -> same_shape (new_data (f sd)) (new_data sd) ->
  level_ok {| grids := grids L; state := alter f st (state L) |}.
Proof.
  intros (Hwf & Hu) Hsd HU Hsh. split; cbn [state].
  - apply Forall_alter; [done|]. intros sd' Hsd' _.
    by assert (sd' = sd) as -> by congruence.
  - eapply uniform_fields_related; [|exact Hu].
    apply Forall2_fmap. apply Forall2_alter_l.
    + apply Forall_Forall2_diag, Forall_true. intros x. apply same_shape_refl.
    + intros x y Hx Hy _. assert (x = sd) as -> by congruence.
      assert (y = sd) as -> by congruence. exact Hsh.
Qed.

End Fields.

(** ** Vectors of slots *)

Lemma mark_lookup {A : Type} (l : list A) (k : nat) (y : A) :
  (replicate k y ++ drop k l) !! k = l !! k.
Proof.
  rewrite lookup_app_r by (rewrite length_replicate; lia).
  rewrite length_replicate, Nat.sub_diag, lookup_drop. f_equal. lia.
Qed.

Lemma mark_length {A : Type} (l : list A) (k : nat) (y : A) :
  (k <= length l)%nat -> length (replicate k y ++ drop k l) = length l.
Proof. intros H. rewrite length_app, length_replicate, length_drop. lia. Qed.

Lemma mark_same {A : Type} (l : list A) (k : nat) (y : A) :
  l !! k = Some y -> replicate k y ++ drop k l = replicate (S k) y ++ drop (S k) l.
Proof.
  intros H. rewrite (drop_S l y k H).
  rewrite replicate_S_end. by rewrite <- app_assoc.
Qed.

Lemma mark_step {A : Type} (l : list A) (k : nat) (x y : A) :
  l !! k = Some x ->
  <[k := y]> (replicate k y ++ drop k l) = replicate (S k) y ++ drop (S k) l.
Proof.
  intros H. rewrite (drop_S l x k H).
  rewrite insert_app_r_alt by (rewrite length_replicate; lia).
  rewrite length_replicate, Nat.sub_diag. cbn [insert list_insert].
  rewrite replicate_S_end. by rewrite <- app_assoc.
Qed.

Lemma insert_at_end {A : Type} (pre rest : list A) (x y : A) :
  <[length pre := y]> (pre ++ x :: rest) = pre ++ y :: rest.
Proof. induction pre as [|a pre IH]; simpl; [done|]. f_equal. exact IH. Qed.

Lemma alter_at_end {A : Type} (f : A -> A) (pre rest : list A) (x : A) :
  alter f (length pre) (pre ++ x :: rest) = pre ++ f x :: rest.
Proof. induction pre as [|a pre IH]; simpl; [done|]. f_equal. exact IH. Qed.

Lemma lookup_at_end {A : Type} (pre rest : list A) (x : A) :
  (pre ++ x :: rest) !! length pre = Some x.
Proof. induction pre as [|a pre IH]; simpl; [done|]. exact IH. Qed.

Lemma insert_at {A : Type} (pre rest : list A) (x y : A) (k : nat) :
  length pre = k -> <[k := y]> (pre ++ x :: rest) = pre ++ y :: rest.
Proof. intros <-. apply insert_at_end. Qed.

Lemma alter_at {A : Type} (f : A -> A) (pre rest : list A) (x : A) (k : nat) :
  length pre = k -> alter f k (pre ++ x :: rest) = pre ++ f x :: rest.
Proof. intros <-. apply alter_at_end. Qed.

Lemma lookup_at {A : Type} (pre rest : list A) (x : A) (k : nat) :
  length pre = k -> (pre ++ x :: rest) !! k = Some x.
Proof. intros <-. apply lookup_at_end. Qed.

Lemma slots_length {A : Type} (g : Z -> A) (k : Z) (n : nat) :
  0 <= k <= Z.of_nat n -> length (slots g k n) = n.
Proof.
  intros H. unfold slots. rewrite length_app, length_fmap, length_seqZ, length_replicate. lia.
Qed.

Lemma slots_lookup_lt {A : Type} (g : Z -> A) (k : Z) (n i : nat) :
  Z.of_nat i < k -> slots g k n !! i = Some (Some (g (Z.of_nat i))).
Proof.
  intros H. unfold slots.
  rewrite lookup_app_l by (rewrite length_fmap, length_seqZ; lia).
  rewrite list_lookup_fmap, lookup_seqZ_lt by lia. simpl. do 3 f_equal. 
Qed.

Lemma slots_lookup_ge {A : Type} (g : Z -> A) (k : Z) (n i : nat) :
  0 <= k <= Z.of_nat i -> (i < n)%nat -> slots g k n !! i = Some None.
Proof.
  intros H Hn. unfold slots.
  rewrite lookup_app_r by (rewrite length_fmap, length_seqZ; lia).
  apply lookup_replicate_2. rewrite length_fmap, length_seqZ. lia.
Qed.

Lemma slots_unfold {A : Type} (g : Z -> A) (k : Z) (n : nat) :
  0 <= k < Z.of_nat n ->
  slots g k n = ((fun lev => Some (g lev)) <$> seqZ 0 k)
                ++ None :: replicate (n - Z.to_nat (k + 1)) None.
Proof.
  intros H. unfold slots. f_equal.
  replace (n - Z.to_nat k)%nat with (S (n - Z.to_nat (k + 1))) by lia. done.
Qed.

Lemma slots_fold {A : Type} (g : Z -> A) (k : Z) (n : nat) :
  0 <= k ->
  ((fun lev => Some (g lev)) <$> seqZ 0 k) ++ Some (g k) :: replicate (n - Z.to_nat (k + 1)) None
  = slots g (k + 1) n.
Proof.
  intros H. unfold slots. rewrite seqZ_app by lia. rewrite fmap_app, <- app_assoc.
  f_equal.
Qed.

Lemma slots_prefix_length {A : Type} (g : Z -> A) (k : Z) :
  0 <= k -> length ((fun lev => Some (g lev)) <$> seqZ 0 k) = Z.to_nat k.
Proof. intros. by rewrite length_fmap, length_seqZ. Qed.

Lemma refill_length {A : Type} (g : Z -> A) (k : Z) (old : list (option A)) :
  0 <= k <= Z.of_nat (length old) -> length (refill g k old) = length old.
Proof.
  intros H. unfold refill.
  rewrite length_app, length_fmap, length_seqZ, length_drop. lia.
Qed.

Lemma refill_lookup_lt {A : Type} (g : Z -> A) (k : Z) (old : list (option A)) (i : nat) :
  Z.of_nat i < k -> refill g k old !! i = Some (Some (g (Z.of_nat i))).
Proof.
  intros H. unfold refill.
  rewrite lookup_app_l by (rewrite length_fmap, length_seqZ; lia).
  rewrite list_lookup_fmap, lookup_seqZ_lt by lia. simpl. do 3 f_equal.
Qed.

Lemma refill_lookup_ge {A : Type} (g : Z -> A) (k : Z) (old : list (option A)) (i : nat) :
  0 <= k <= Z.of_nat i -> refill g k old !! i = old !! i.
Proof.
  intros H. unfold refill.
  rewrite lookup_app_r by (rewrite length_fmap, length_seqZ; lia).
  rewrite length_fmap, length_seqZ, lookup_drop. f_equal. lia.
Qed.

Lemma refill_0 {A : Type} (g : Z -> A) (old : list (option A)) : refill g 0 old = old.
Proof. unfold refill. by rewrite seqZ_nil, drop_0 by lia. Qed.

Lemma refill_insert {A : Type} (g : Z -> A) (k : Z) (old : list (option A)) :
  0 <= k < Z.of_nat (length old) ->
  <[Z.to_nat k := Some (g k)]> (refill g k old) = refill g (k + 1) old.
Proof.
  intros H. unfold refill.
  assert (Hlt : (Z.to_nat k < length old)%nat) by lia.
  destruct (lookup_lt_is_Some_2 _ _ Hlt) as [x Hx].
  rewrite (drop_S old x (Z.to_nat k) Hx).
  rewrite insert_at by (apply slots_prefix_length; lia).
  rewrite seqZ_app by lia. rewrite fmap_app, <- app_assoc.
  replace (Z.to_nat (k + 1)) with (S (Z.to_nat k)) by lia. done.
Qed.

(** Refilling what has been refilled. *)
Lemma refill_refill {A : Type} (g : Z -> A) (k : Z) (old : list (option A)) :
  0 <= k -> refill g k (refill g k old) = refill g k old.
Proof.
  intros H. unfold refill at 1 3. f_equal. unfold refill.
  rewrite drop_app_length'; [done|]. symmetry. by apply slots_prefix_length.
Qed.

(** ** [rebuild_mlsdc] *)

Section Rebuild.
Context `{Car : Carriers}.
Variable P : AmrParams.
Variable E : Externals.

Lemma rns_sdc_build_level_Done (lev : Z) :
  0 <= lev <= 29 ->
  rns_sdc_build_level lev
  = Done (sdc_hooks_add SDC_HOOK_POST_STEP
            (sdc_imex_create (nnodes_of lev) SDC_GAUSS_LOBATTO)).
Proof.
  intros H. unfold rns_sdc_build_level, int_pow, nnodes_of, nnodes0, trat.
  destruct (Z.ltb_spec lev 0); [lia|].
  assert (Hp : 1 <= 2 ^ lev <= 2 ^ 29).
  { split; [|apply Z.pow_le_mono_r; lia].
    assert (0 < 2 ^ lev) by (apply Z.pow_pos_nonneg; lia). lia. }
  change (2 ^ 29) with 536870912 in Hp.
  rewrite int_of_Done by (unfold INT_MIN, INT_MAX; lia). simpl.
  rewrite int_of_Done by (unfold INT_MIN, INT_MAX; lia). simpl.
  rewrite int_of_Done by (unfold INT_MIN, INT_MAX; lia). done.
Qed.

(** The first loop of [rebuild_mlsdc] empties every slot of [sweepers]
    and leaves [encaps] as it is. *)
Lemma destroy_levels (s : SDCAmr) :
  slots_ok P s -> 0 <= max_level P ->
  forM destroy_level (seqZ 0 (max_level P + 1)) s
  = Done (set_sweepers (replicate (Z.to_nat (max_level P + 1)) None) s).
Proof.
  intros (_ & Hls & Hle & _ & Hco) HM.
  pose (Inv := fun (k : Z) (s' : SDCAmr) =>
    s' = set_sweepers (replicate (Z.to_nat k) None ++ drop (Z.to_nat k) (sweepers s)) s).
  destruct (forM_seqZ destroy_level Inv 0 (max_level P + 1) s) as (s' & Hf & Hi).
  - lia.
  - unfold Inv. simpl. rewrite !drop_0. by destruct s.
  - intros i s1 Hi ->. unfold Inv, destroy_level.
    assert (Hin : (Z.to_nat i < length (sweepers s))%nat) by lia.
    destruct (lookup_lt_is_Some_2 _ _ Hin) as [o Ho].
    cbn [sweepers encaps set_sweepers].
    rewrite (lookupZ_Some _ i o); [|lia|by rewrite mark_lookup]. simpl.
    replace (Z.to_nat (i + 1)) with (S (Z.to_nat i)) by lia.
    destruct o as [sw|].
    + destruct (Hco _ _ Ho) as (e & Hoe).
      rewrite (lookupZ_Some _ i (Some e)); [|lia|done]. simpl.
      rewrite !updateZ_Some by (rewrite mark_length; lia). simpl.
      eexists. split; [done|]. unfold set_sweepers. simpl.
      by rewrite (mark_step _ _ _ _ Ho).
    + eexists. split; [done|].
      by rewrite <- (mark_same _ _ _ Ho).
  - rewrite Hf, Hi. do 2 f_equal.
    rewrite drop_ge by lia. by rewrite app_nil_r.
Qed.

(** The second loop fills the slots of the levels of the hierarchy. *)
Lemma build_levels (s : SDCAmr) :
  let a := amr s in
  let n := Z.to_nat (max_level P + 1) in
  0 <= finest_level a <= max_level P -> max_level P <= 29 ->
  finest_level a < Z.of_nat (length (amr_level a)) ->
  mg_capacity (mg s) = max_level P + 1 ->
  mg_sweepers (mg s) = [] ->
  sweepers s = replicate n None -> length (encaps s) = n ->
  forM (build_level E) (seqZ 0 (finest_level a + 1)) s
  = Done {| amr := a; max_iters := max_iters s; max_trefs := max_trefs s;
            mg := {| mg_capacity := mg_capacity (mg s);
                     mg_sweepers := seqZ 0 (finest_level a + 1);
                     mg_hooks := mg_hooks (mg s) |};
            sweepers := slots (prebuilt E a) (finest_level a + 1) n;
            encaps := refill (build_encap E a) (finest_level a + 1) (encaps s);
            trace := trace s |}.
Proof.
  intros a n Hf HM Hlen Hcap Hmg Hsw Hen.
  pose (B := fun k : Z =>
    {| amr := a; max_iters := max_iters s; max_trefs := max_trefs s;
       mg := {| mg_capacity := mg_capacity (mg s); mg_sweepers := seqZ 0 k;
                mg_hooks := mg_hooks (mg s) |};
       sweepers := slots (prebuilt E a) k n;
       encaps := refill (build_encap E a) k (encaps s);
       trace := trace s |}).
  destruct (forM_seqZ (build_level E) (fun k s' => s' = B k) 0 (finest_level a + 1) s)
    as (s' & Hs' & ->); [lia| | |exact Hs'].
  - unfold B, slots. rewrite refill_0. rewrite seqZ_nil by lia. simpl.
    rewrite Nat.sub_0_r.
    rewrite <- Hsw, <- Hmg. destruct s as [? ? ? [] ? ? ?]. done.
  - intros i s1 Hi ->. unfold build_level, B.
    cbn [amr encaps sweepers mg set_sweepers set_encaps set_mg mg_sweepers mg_capacity].
    assert (Hin : 0 <= i < Z.of_nat n) by lia.
    rewrite !updateZ_Some by (rewrite refill_length; lia).
    rewrite rns_sdc_build_level_Done by lia.
    cbn [bind].
    rewrite !updateZ_Some by (rewrite slots_length; lia).
    cbn [bind].
    assert (HL : (Z.to_nat i < length (amr_level a))%nat) by lia.
    destruct (lookup_lt_is_Some_2 _ _ HL) as [L HLi].
    unfold getLevel. rewrite (lookupZ_Some _ i L) by (done || lia).
    cbn [bind]. unfold alter_sweeper, set_sweepers, sdc_mg_add_level, nlevels.
    cbn [amr encaps sweepers mg set_sweepers set_encaps set_mg mg_sweepers mg_capacity
         max_iters max_trefs trace mg_hooks].
    rewrite length_seqZ.
    destruct (Z.ltb_spec (Z.of_nat (Z.to_nat i)) (mg_capacity (mg s))); [|lia].
    cbn [bind]. eexists. split; [done|]. unfold set_mg.
    cbn [amr encaps sweepers mg max_iters max_trefs trace]. f_equal.
    + f_equal. rewrite seqZ_app by lia. done.
    + rewrite !(slots_unfold _ i n) by lia.
      rewrite insert_at by (apply slots_prefix_length; lia).
      rewrite !alter_at by (apply slots_prefix_length; lia).
      rewrite <- slots_fold by lia. done.
    + apply refill_insert. lia.
Qed.

(** Allocation gives every registered node set its fields. *)
Lemma allocate_levels (s : SDCAmr) (a : Amr) (n : nat) (f : Z) :
  0 <= f -> f + 1 <= Z.of_nat n ->
  mg_sweepers (mg s) = seqZ 0 (f + 1) ->
  sweepers s = slots (prebuilt E a) (f + 1) n ->
  sdc_mg_allocate E s = Done (set_sweepers (slots (built E a) (f + 1) n) s).
Proof.
  intros Hf Hn Hmg Hsw. unfold sdc_mg_allocate. rewrite Hmg.
  pose (mid := fun k : Z =>
    ((fun lev => Some (built E a lev)) <$> seqZ 0 k)
    ++ ((fun lev => Some (prebuilt E a lev)) <$> seqZ k (f + 1 - k))
    ++ replicate (n - Z.to_nat (f + 1)) None).
  destruct (forM_seqZ
              (fun p s => sw <- deref s p ;;
                 match encap (nset sw) with
                 | Some e =>
                     Done (alter_sweeper
                             (set_Q (replicate (Z.to_nat (nnodes (nset sw)))
                                       (encap_create E e))) p s)
                 | None => Undefined
                 end)
              (fun k s' => s' = set_sweepers (mid k) s) 0 (f + 1) s)
    as (s' & Hs' & ->); [lia| | |].
  - unfold mid. rewrite seqZ_nil by lia. simpl. rewrite Z.sub_0_r.
    fold (slots (prebuilt E a) (f + 1) n). rewrite <- Hsw. by destruct s.
  - intros i s1 Hi ->. unfold deref, mid. cbn [sweepers set_sweepers].
    rewrite (seqZ_cons i) by lia. rewrite fmap_cons. cbn [app].
    erewrite lookupZ_Some; [|lia|apply lookup_at, slots_prefix_length; lia].
    cbn [bind prebuilt nset encap nnodes]. eexists. split; [done|].
    unfold alter_sweeper, set_sweepers. cbn [sweepers]. f_equal.
    rewrite alter_at by (apply slots_prefix_length; lia).
    rewrite (seqZ_app 0 i 1), fmap_app, <- app_assoc by lia.
    replace (Z.succ i) with (0 + i + 1) by lia.
    replace (Z.pred (f + 1 - i)) with (f + 1 - (i + 1)) by lia.
    done.
  - rewrite Hs'. unfold mid, slots. do 2 f_equal.
    replace (0 + (f + 1)) with (f + 1) by lia.
    rewrite (seqZ_nil (f + 1)) by lia. done.
Qed.

(** [rebuild_mlsdc] returns, and what it returns depends on the hierarchy
    alone, but for the slots of [encaps] above [finest_level]. *)
Lemma rebuild_mlsdc_rebuilt (s : SDCAmr) :
  mesh_ok P (amr s) -> slots_ok P s ->
  rebuild_mlsdc P E s = Done (rebuilt P E s).
Proof.
  intros (Hf & Hlen & _) Hslots. pose proof Hslots as (HM & Hls & Hle & Hcap & Hco).
  unfold rebuild_mlsdc.
  destruct (Z.ltb_spec (max_level P) 0); [lia|].
  rewrite destroy_levels; [|done|lia]. cbn [bind].
  rewrite build_levels; [|first [done|cbn [encaps set_sweepers set_mg]; lia]..].
  cbn [bind amr set_sweepers set_encaps set_mg mg max_iters max_trefs trace
       sdc_mg_reset mg_capacity mg_hooks].
  rewrite (allocate_levels _ (amr s) (Z.to_nat (max_level P + 1)) (finest_level (amr s)));
    [|lia|lia|done..].
  reflexivity.
Qed.

Lemma nnodes_of_ge (lev : Z) : 0 <= lev -> 3 <= nnodes_of lev.
Proof.
  intros H. unfold nnodes_of, nnodes0, trat.
  assert (0 < 2 ^ lev) by (apply Z.pow_pos_nonneg; lia). lia.
Qed.

Lemma rebuilt_slots_ok (s : SDCAmr) :
  mesh_ok P (amr s) -> slots_ok P s -> slots_ok P (rebuilt P E s).
Proof.
  intros (Hf & _) (HM & _ & Hle & Hcap & _). unfold slots_ok, rebuilt.
  cbn [sweepers encaps mg mg_capacity].
  rewrite slots_length by lia. rewrite refill_length by lia.
  split; [done|]. split; [lia|]. split; [done|]. split; [done|].
  intros i sw Hi. destruct (decide (Z.of_nat i < finest_level (amr s) + 1)).
  - rewrite refill_lookup_lt by lia. eauto.
  - apply lookup_lt_Some in Hi as Hlt. rewrite slots_length in Hlt by lia.
    rewrite slots_lookup_ge in Hi by lia. discriminate.
Qed.

Lemma built_node_ok (a : Amr) (lev : nat) (L : AmrLevel) :
  Lawful P E -> mesh_ok P a -> amr_level a !! lev = Some L ->
  node_ok L (built E a (Z.of_nat lev)).
Proof.
  intros Law Hm HL. pose proof (nnodes_of_ge (Z.of_nat lev) ltac:(lia)).
  unfold node_ok, built. cbn [nset nnodes Q].
  rewrite length_replicate. split; [lia|]. split; [lia|].
  split; [apply uniform_fields_replicate|].
  apply Forall_replicate. exact (encap_shape P E Law a lev L Hm HL).
Qed.

Lemma rebuilt_synced (s : SDCAmr) :
  Lawful P E -> mesh_ok P (amr s) -> synced (rebuilt P E s).
Proof.
  intros Law Hm. pose proof Hm as (Hf & Hlen & _). split; [done|].
  intros lev Hlev. cbn [rebuilt amr sweepers] in *.
  assert (Hlt : (lev < length (amr_level (amr s)))%nat) by lia.
  destruct (lookup_lt_is_Some_2 _ _ Hlt) as [L HL].
  exists L, (built E (amr s) (Z.of_nat lev)). split; [done|]. split.
  - apply slots_lookup_lt. lia.
  - by apply built_node_ok.
Qed.

Lemma rebuilt_in_sync (s : SDCAmr) :
  Lawful P E -> mesh_ok P (amr s) -> counters_ok P (amr s) -> slots_ok P s ->
  in_sync P (rebuilt P E s).
Proof.
  intros Law Hm Hc Hs. split; [exact Hm|]. split; [exact Hc|]. split.
  - by apply rebuilt_slots_ok.
  - by apply rebuilt_synced.
Qed.

(** [regrid]: the mesh regrid, then the rebuild, whatever the regrid did. *)
Lemma regrid_rebuilt (lbase : Z) (time : Real) (initial : bool) (s : SDCAmr) :
  Lawful P E -> mesh_ok P (amr s) -> slots_ok P s ->
  let a := set_mesh (Amr_regrid E lbase time initial (amr s)) (amr s) in
  regrid P E lbase time initial s
  = Done (rebuilt P E
            (log (EvAmrRegrid lbase (bool_decide (shape a <> shape (amr s))))
                 (set_amr a s))).
Proof.
  intros Law Hm Hs a. unfold regrid. apply rebuild_mlsdc_rebuilt.
  - exact (regrid_mesh_ok P E Law lbase time initial (amr s) Hm).
  - exact Hs.
Qed.

End Rebuild.

(** ** Regridding *)

Section Regridding.
Context `{Car : Carriers}.
Variable P : AmrParams.
Variable E : Externals.

Lemma regrid_trace_app (evs1 evs2 : list Event) :
  regrid_trace evs1 -> regrid_trace evs2 -> regrid_trace (evs1 ++ evs2).
Proof.
  induction 1 as [|lbase changed evs _ IH]; intros H2; simpl; [done|].
  constructor. by apply IH.
Qed.

Lemma in_sync_log (e : Event) (s : SDCAmr) : in_sync P s -> in_sync P (log e s).
Proof. done. Qed.

(** [for (k = i; k <= finest; k++) level_count[k] = 0] *)
Lemma reset_counts (lc : list Z) (i f : Z) :
  0 <= i -> f < Z.of_nat (length lc) ->
  exists lc',
    forM (fun k lc => updateZ lc k 0) (seqZ i (f - i + 1)) lc = Done lc' /\
    length lc' = length lc /\
    forall j : nat,
      lc' !! j = if decide (i <= Z.of_nat j <= f) then Some 0 else lc !! j.
Proof.
  intros Hi Hf. destruct (Z.lt_ge_cases (f - i + 1) 0) as [Hneg|Hpos].
  { exists lc. rewrite seqZ_nil by lia. repeat split; try done.
    intros j. destruct (decide _); [lia|done]. }
  pose (Inv := fun (k : Z) (lc' : list Z) =>
    length lc' = length lc /\
    forall j : nat,
      lc' !! j = if decide (i <= Z.of_nat j < k) then Some 0 else lc !! j).
  destruct (forM_seqZ (fun k lc => updateZ lc k 0) Inv i (f - i + 1) lc)
    as (lc' & Hlc & Hlen & Hlk); [lia| | |].
  - split; [done|]. intros j. destruct (decide _); [lia|done].
  - intros k l1 Hk (Hlen & Hlk). rewrite updateZ_Some by lia.
    eexists. split; [done|]. split; [by rewrite length_insert|].
    intros j. destruct (decide (j = Z.to_nat k)) as [->|Hne].
    + rewrite list_lookup_insert_eq by lia. destruct (decide _); [done|lia].
    + rewrite list_lookup_insert_ne by done. rewrite Hlk.
      destruct (decide _), (decide _); try done; lia.
  - exists lc'. repeat split; try done.
    intros j. rewrite Hlk. destruct (decide _), (decide _); try done; lia.
Qed.

Lemma regrid_body_spec (time stop_time : Real) (i : Z) (s : SDCAmr) :
  Lawful P E -> in_sync P s -> 0 <= i ->
  exists s',
    regrid_body P E time stop_time i s = Done s' /\
    in_sync P s' /\
    level_steps (amr s') = level_steps (amr s) /\
    max_iters s' = max_iters s /\
    (exists evs, trace s' = trace s ++ evs /\ regrid_trace evs) /\
    (forall j : nat, level_count (amr s') !! j = level_count (amr s) !! j \/
                     level_count (amr s') !! j = Some 0) /\
    (okToRegrid E (amr s) i = false -> s' = s).
Proof.
  intros Law Hsync Hi. pose proof Hsync as (Hm & Hc & Hs & _).
  unfold regrid_body. destruct (okToRegrid E (amr s) i) eqn:Hok.
  2:{ exists s. repeat split; try done; try apply Hsync.
      - exists []. split; [by rewrite app_nil_r|constructor].
      - by left. }
  rewrite regrid_rebuilt by done. cbn [bind].
  set (a := set_mesh (Amr_regrid E i time false (amr s)) (amr s)).
  set (ev := EvAmrRegrid i (bool_decide (shape a <> shape (amr s)))).
  set (s1 := rebuilt P E (log ev (set_amr a s))).
  assert (Hma : mesh_ok P a) by exact (regrid_mesh_ok P E Law i time false (amr s) Hm).
  assert (Hs1 : in_sync P s1).
  { apply rebuilt_in_sync; try done. }
  destruct Hc as (Hc1 & Hc2 & Hc3).
  destruct (reset_counts (level_count (amr s)) i (finest_level a)) as (lc' & Hlc & Hlen & Hlk).
  { lia. } { destruct Hma as (? & _). cbn [amr set_amr log rebuilt] in *. lia. }
  cbn [amr set_amr set_dt finest_level level_count s1 rebuilt log set_mesh a] in *.
  rewrite Hlc. cbn [bind]. eexists. split; [done|].
  split; [|split; [done|split; [done|split; [|split; [|discriminate]]]]].
  - destruct Hs1 as (H1 & H2 & H3 & H4).
    split; [exact H1|]. split; [|split; [exact H3|exact H4]].
    split; [exact Hc1|]. split; [|exact (newdt_ok P E Law _ _ _)].
    cbn [amr set_amr set_level_count level_count]. lia.
  - exists [ev; EvRebuild]. split; [|repeat constructor].
    unfold s1. cbn [trace set_amr rebuilt log]. by rewrite <- app_assoc.
  - intros j. cbn [amr set_amr set_level_count level_count]. rewrite Hlk.
    destruct (decide _); [by right|by left].
Qed.

Lemma regrid_loop_spec (n : nat) (time stop_time : Real) (i lev_top : Z) (s : SDCAmr) :
  Lawful P E -> in_sync P s -> 0 <= i ->
  exists s',
    regrid_loop P E n time stop_time i lev_top s = Done s' /\
    in_sync P s' /\
    level_steps (amr s') = level_steps (amr s) /\
    max_iters s' = max_iters s /\
    (exists evs, trace s' = trace s ++ evs /\ regrid_trace evs) /\
    (forall j : nat, level_count (amr s') !! j = level_count (amr s) !! j \/
                     level_count (amr s') !! j = Some 0).
Proof.
  intros Law. revert i lev_top s.
  induction n as [|n IH]; intros i lev_top s Hsync Hi; simpl.
  - exists s. repeat split; try done; try apply Hsync.
    + exists []. split; [by rewrite app_nil_r|constructor].
    + by left.
  - destruct (Z.leb_spec i lev_top).
    2:{ exists s. repeat split; try done; try apply Hsync.
        + exists []. split; [by rewrite app_nil_r|constructor].
        + by left. }
    destruct (regrid_body_spec time stop_time i s Law Hsync Hi)
      as (s1 & Hb & Hs1 & Hls1 & Hmi1 & (evs1 & Htr1 & Hrt1) & Hlc1 & _).
    rewrite Hb. cbn [bind].
    match goal with |- context [regrid_loop _ _ _ _ _ _ ?lt _] =>
      destruct (IH (i + 1) lt s1 Hs1 ltac:(lia))
        as (s2 & Hl & Hs2 & Hls2 & Hmi2 & (evs2 & Htr2 & Hrt2) & Hlc2)
    end.
    exists s2. split; [done|]. split; [done|]. split; [congruence|].
    split; [congruence|]. split.
    + exists (evs1 ++ evs2). split; [|by apply regrid_trace_app].
      by rewrite Htr2, Htr1, app_assoc.
    + intros j. destruct (Hlc2 j) as [Hj|Hj]; rewrite Hj; [apply Hlc1|by right].
Qed.

(** When no level is due, the regrid loop leaves the controller as it is. *)
Lemma regrid_loop_idle (n : nat) (time stop_time : Real) (i lev_top : Z) (s : SDCAmr) :
  (forall j, i <= j <= lev_top -> okToRegrid E (amr s) j = false) ->
  regrid_loop P E n time stop_time i lev_top s = Done s.
Proof.
  revert i. induction n as [|n IH]; intros i Hidle; simpl; [done|].
  destruct (Z.leb_spec i lev_top); [|done].
  unfold regrid_body. rewrite Hidle by lia. cbn [bind].
  rewrite Z.ltb_irrefl. apply IH. intros j Hj. apply Hidle. lia.
Qed.

(** The count of iterations given to the loop is enough: more changes
    nothing. *)
Lemma regrid_loop_fuel (n m : nat) (time stop_time : Real) (i lev_top : Z) (s : SDCAmr) :
  lev_top <= max_level P - 1 ->
  max_level P - i <= Z.of_nat n -> max_level P - i <= Z.of_nat m ->
  regrid_loop P E n time stop_time i lev_top s
  = regrid_loop P E m time stop_time i lev_top s.
Proof.
  revert m i lev_top s.
  induction n as [|n IH]; intros m i lev_top s Htop Hn Hm.
  - destruct m as [|m]; simpl; [done|].
    destruct (Z.leb_spec i lev_top); [lia|done].
  - simpl. destruct (Z.leb_spec i lev_top) as [Hle|Hgt].
    + destruct m as [|m]; [lia|]. simpl.
      destruct (Z.leb_spec i lev_top); [|lia].
      destruct (regrid_body P E time stop_time i s) as [s'| |]; simpl; [|done..].
      apply IH; [|lia..]. destruct (_ <? _); lia.
    + destruct m as [|m]; simpl; [done|].
      destruct (Z.leb_spec i lev_top); [lia|done].
Qed.

End Regridding.

(** ** Updates that keep the two hierarchies in step *)

Section Sync.
Context `{Car : Carriers}.
Variable P : AmrParams.
Variable E : Externals.

(** Updating a state of a level without changing the layout of its field. *)
Lemma sync_alter_state (s : SDCAmr) (lev : Z) (st : nat) (L : AmrLevel)
    (sd : StateData) (f : StateData -> StateData) :
  in_sync P s ->
  amr_level (amr s) !! Z.to_nat lev = Some L -> state L !! st = Some sd ->
  wf_mf (new_data (f sd)) -> same_shape (new_data (f sd)) (new_data sd) ->
  in_sync P (set_amr (alter_state f lev st (amr s)) s).
Proof.
  intros ((Hf & Hlen & Hwf) & Hc & Hs & Hmg & Hsyn) HL Hsd HU Hsh.
  split; [|split; [exact Hc|split; [exact Hs|split; [exact Hmg|]]]].
  - split; [exact Hf|]. cbn [amr set_amr alter_state finest_level amr_level].
    split; [by rewrite length_alter|].
    apply Forall_alter; [done|]. intros L' HL' HwfL.
    assert (L' = L) as -> by congruence. by eapply level_ok_alter.
  - intros j Hj. cbn [amr set_amr alter_state finest_level amr_level sweepers] in *.
    destruct (Hsyn j Hj) as (L' & sw & HL' & Hsw & Hn1 & Hn2 & Hnu & Hn3).
    destruct (decide (j = Z.to_nat lev)) as [->|Hne].
    + rewrite list_lookup_alter_eq, HL. cbn [fmap option_fmap option_map].
      eexists _, sw. split; [done|]. split; [done|].
      split; [done|]. split; [done|]. split; [done|].
      assert (L' = L) as -> by congruence.
      eapply Forall_impl; [exact Hn3|]. cbn beta. intros U' (HwU' & HshU').
      split; [done|]. cbn [state]. apply Forall_alter; [done|].
      intros sd' Hsd' HU'. assert (sd' = sd) as -> by congruence.
      eapply same_shape_trans; [exact HU'|]. by apply same_shape_sym.
    + rewrite list_lookup_alter_ne by done. by exists L', sw.
Qed.

Lemma mesh_ok_wf (a : Amr) (lev st : nat) (L : AmrLevel) (sd : StateData) :
  mesh_ok P a -> amr_level a !! lev = Some L -> state L !! st = Some sd ->
  wf_mf (new_data sd).
Proof.
  intros (_ & _ & Hwf) HL Hsd. eapply Forall_lookup_1 in Hwf; [|exact HL].
  by eapply level_ok_wf.
Qed.

Lemma sync_set_field (s : SDCAmr) (lev : Z) (st : nat) (L : AmrLevel)
    (sd : StateData) (U : MultiFab) :
  in_sync P s ->
  amr_level (amr s) !! Z.to_nat lev = Some L -> state L !! st = Some sd ->
  wf_mf U -> same_shape U (new_data sd) ->
  in_sync P (set_amr (alter_state (set_new_data U) lev st (amr s)) s).
Proof. intros. by eapply sync_alter_state. Qed.

(** Replacing the node fields of a level by fields of the same layout. *)
Lemma sync_set_Q (s : SDCAmr) (lev : Z) (sw : sdc_sweeper)
    (f : sdc_sweeper -> sdc_sweeper) (q : list MultiFab) :
  in_sync P s ->
  sweepers s !! Z.to_nat lev = Some (Some sw) -> f sw = set_Q q sw ->
  Forall2 (fun U' U => wf_mf U' /\ same_shape U' U) q (Q (nset sw)) ->
  in_sync P (alter_sweeper f lev s).
Proof.
  intros (Hm & Hc & (HM & Hls & Hle & Hcap & Hco) & Hmg & Hsyn) Hsw Hf Hq.
  split; [exact Hm|]. split; [exact Hc|]. split; [|split; [exact Hmg|]].
  - split; [exact HM|]. cbn [alter_sweeper set_sweepers sweepers encaps mg].
    rewrite length_alter. repeat (split; [done|]).
    intros i sw0. destruct (decide (i = Z.to_nat lev)) as [->|Hne].
    + intros _. by apply (Hco _ sw).
    + rewrite list_lookup_alter_ne by done. apply Hco.
  - intros j Hj. cbn [alter_sweeper set_sweepers sweepers amr] in *.
    destruct (Hsyn j Hj) as (L' & sw' & HL' & Hsw' & Hn1 & Hn2 & Hnu & Hn3).
    destruct (decide (j = Z.to_nat lev)) as [->|Hne].
    + rewrite list_lookup_alter_eq, Hsw. cbn [fmap option_fmap option_map].
      assert (sw' = sw) as -> by congruence.
      exists L', (f sw). split; [done|]. split; [done|]. rewrite Hf.
      unfold node_ok. cbn [set_Q set_nset nset nnodes Q].
      pose proof (Forall2_length _ _ _ Hq) as Hlq.
      split; [lia|]. split; [done|]. split.
      { eapply uniform_fields_related; [|exact Hnu].
        eapply Forall2_impl; [exact Hq|]. by intros U' U (_ & HUU). }
      eapply Forall2_Forall_l; [exact Hq|].
      eapply Forall_impl; [exact Hn3|]. cbn beta.
      intros U (HwU & HshU) U' (HwU' & HshU'). split; [done|].
      eapply Forall_impl; [exact HshU|]. cbn beta. intros sd Hsd.
      by eapply same_shape_trans.
    + rewrite list_lookup_alter_ne by done. by exists L', sw'.
Qed.

(** Under [synced], entry [lev] of the orchestrator points to slot [lev]. *)
Lemma mg_sweeper_synced (s : SDCAmr) (lev : Z) (sw : sdc_sweeper) :
  mg_sweepers (mg s) = seqZ 0 (finest_level (amr s) + 1) ->
  0 <= lev <= finest_level (amr s) ->
  sweepers s !! Z.to_nat lev = Some (Some sw) ->
  mg_sweeper s lev = Done (lev, sw).
Proof.
  intros Hmg Hlev Hsw. unfold mg_sweeper, deref. rewrite Hmg.
  rewrite (lookupZ_Some _ lev lev); [|lia|].
  2:{ rewrite lookup_seqZ_lt by lia. f_equal. lia. }
  cbn [bind]. rewrite (lookupZ_Some _ lev (Some sw)) by (done || lia). done.
Qed.

End Sync.

(** ** Seeding *)

Section Seeding.
Context `{Car : Carriers}.
Variable P : AmrParams.
Variable E : Externals.
Hypothesis Law : Lawful P E.

Lemma synced_level (s : SDCAmr) (lev : Z) :
  in_sync P s -> 0 <= lev <= finest_level (amr s) ->
  exists L sw, amr_level (amr s) !! Z.to_nat lev = Some L /\
               sweepers s !! Z.to_nat lev = Some (Some sw) /\
               node_ok L sw.
Proof.
  intros (_ & _ & _ & _ & Hsyn) Hlev. apply Hsyn. lia.
Qed.

Lemma seed_state_seeded (time : Real) (lev : Z) (st : nat) (s : SDCAmr)
    (L : AmrLevel) (sd : StateData) :
  in_sync P s -> 0 <= lev <= finest_level (amr s) ->
  amr_level (amr s) !! Z.to_nat lev = Some L -> state L !! st = Some sd ->
  seed_state P E time lev st s = Done (seeded E time lev st sd s).
Proof.
  intros Hsync Hlev HL Hsd.
  destruct (synced_level s lev Hsync Hlev) as (L' & sw & HL' & Hsw & Hn1 & Hn2 & Hnu & Hn3).
  assert (L' = L) as -> by congruence.
  pose proof Hsync as (Hmesh & _ & _ & Hmg & _).
  assert (Hwsd : wf_mf (new_data sd)) by (by eapply mesh_ok_wf).
  unfold seed_state, getLevel, lookup_nat.
  rewrite (lookupZ_Some _ lev L) by (done || lia). cbn [bind]. rewrite Hsd. cbn [bind].
  set (U := fill_boundary E (amr s) lev (new_data sd) time (seed_mode lev)).
  destruct (fill_shape P E Law (amr s) lev (new_data sd) time (seed_mode lev) Hwsd)
    as (HwU & HshU). fold U in HwU, HshU.
  rewrite (mg_sweeper_synced _ lev sw); [|exact Hmg|exact Hlev|exact Hsw].
  cbn [bind].
  destruct (Q (nset sw)) as [|U0 q] eqn:HQ.
  { simpl in Hn1. lia. }
  change (lookupZ (U0 :: q) 0) with (Done (A:=MultiFab) U0). cbn [bind].
  apply Forall_cons_1 in Hn3 as ((HwU0 & HshU0) & _).
  eapply Forall_lookup_1 in HshU0; [|exact Hsd].
  set (U0' := if ndebug P then U0 else setVal NAN (nGrow U0) U0).
  assert (HU0' : wf_mf U0' /\ same_shape U0' U).
  { unfold U0'. destruct (ndebug P).
    - split; [done|]. eapply same_shape_trans; [exact HshU0|by apply same_shape_sym].
    - split; [by apply setVal_wf|].
      eapply same_shape_trans; [apply setVal_shape|].
      eapply same_shape_trans; [exact HshU0|by apply same_shape_sym]. }
  destruct HU0' as (HwU0' & HshU0').
  rewrite (MultiFab_Copy_full U0' U) by done. cbn [bind].
  assert (Hnan : negb (ndebug P) && contains_nan U = false).
  { destruct (ndebug P) eqn:Hnd; [done|]. simpl.
    exact (fill_no_nan P E Law Hnd (amr s) lev (new_data sd) time (seed_mode lev) Hwsd). }
  rewrite Hnan. done.
Qed.

Lemma seeded_props (time : Real) (lev : Z) (st : nat) (s : SDCAmr)
    (L : AmrLevel) (sd : StateData) :
  in_sync P s -> 0 <= lev <= finest_level (amr s) ->
  amr_level (amr s) !! Z.to_nat lev = Some L -> state L !! st = Some sd ->
  let U := fill_boundary E (amr s) lev (new_data sd) time (seed_mode lev) in
  let s' := seeded E time lev st sd s in
  in_sync P s' /\ same_scalars s s' /\ frame (Z.to_nat lev) s s' /\
  trace s' = trace s ++ [EvFill lev st (seed_mode lev); EvSeed lev st] /\
  amr_level (amr s') !! Z.to_nat lev
    = Some {| grids := grids L; state := alter (set_new_data U) st (state L) |} /\
  exists sw', sweepers s' !! Z.to_nat lev = Some (Some sw') /\
              Q (nset sw') !! 0%nat = Some U.
Proof.
  intros Hsync Hlev HL Hsd U s'.
  destruct (synced_level s lev Hsync Hlev) as (L' & sw & HL' & Hsw & Hn1 & Hn2 & Hnu & Hn3).
  assert (L' = L) as -> by congruence.
  pose proof Hsync as (Hmesh & _ & _ & Hmg & _).
  assert (Hwsd : wf_mf (new_data sd)) by (by eapply mesh_ok_wf).
  destruct (fill_shape P E Law (amr s) lev (new_data sd) time (seed_mode lev) Hwsd)
    as (HwU & HshU). fold U in HwU, HshU.
  destruct (Q (nset sw)) as [|U0 q] eqn:HQ.
  { simpl in Hn1. lia. }
  split; [|split; [|split; [|split; [|split]]]].
  - apply in_sync_log. eapply (sync_set_Q P _ lev sw); [| |reflexivity|].
    + apply in_sync_log. by eapply sync_set_field.
    + exact Hsw.
    + rewrite HQ. cbn [insert list_insert]. constructor.
      * apply Forall_cons_1 in Hn3 as ((HwU0 & HshU0) & _).
        eapply Forall_lookup_1 in HshU0; [|exact Hsd]. split; [done|].
        eapply same_shape_trans; [exact HshU|by apply same_shape_sym].
      * apply Forall_Forall2_diag. apply Forall_cons_1 in Hn3 as (_ & Hn3).
        eapply Forall_impl; [exact Hn3|]. cbn beta. intros V (HwV & _).
        split; [done|apply same_shape_refl].
  - done.
  - intros j Hj. cbn. split; rewrite list_lookup_alter_ne by done; done.
  - cbn. by rewrite <- app_assoc.
  - cbn. by rewrite list_lookup_alter_eq, HL.
  - cbn. rewrite list_lookup_alter_eq, Hsw. cbn. eexists. split; [done|].
    by rewrite HQ.
Qed.

Lemma same_scalars_refl (s : SDCAmr) : same_scalars s s.
Proof. by repeat split. Qed.

Lemma same_scalars_trans (s1 s2 s3 : SDCAmr) :
  same_scalars s1 s2 -> same_scalars s2 s3 -> same_scalars s1 s3.
Proof.
  intros (? & ? & ? & ? & ? & ?) (? & ? & ? & ? & ? & ?).
  repeat split; congruence.
Qed.

Lemma frame_refl (lev : nat) (s : SDCAmr) : frame lev s s.
Proof. by intros j _. Qed.

Lemma frame_trans (lev : nat) (s1 s2 s3 : SDCAmr) :
  frame lev s1 s2 -> frame lev s2 s3 -> frame lev s1 s3.
Proof.
  intros H12 H23 j Hj. destruct (H12 j Hj) as (? & ?), (H23 j Hj) as (? & ?).
  split; congruence.
Qed.

(** Seeding one level: every state field is filled, then copied into
    [Q[0]], which ends as the level's last filled field. *)
Lemma seed_level_spec (time : Real) (lev : Z) (s : SDCAmr) (L : AmrLevel) :
  in_sync P s -> 0 <= lev <= finest_level (amr s) ->
  amr_level (amr s) !! Z.to_nat lev = Some L ->
  exists s',
    seed_level P E time lev s = Done s' /\
    in_sync P s' /\ same_scalars s s' /\ frame (Z.to_nat lev) s s' /\
    trace s' = trace s ++ level_seed_events lev (length (state L)) /\
    exists L',
      amr_level (amr s') !! Z.to_nat lev = Some L' /\
      length (state L') = length (state L) /\
      (forall st sd, state L !! st = Some sd ->
         exists a_mid,
           new_data <$> state L' !! st
           = Some (fill_boundary E a_mid lev (new_data sd) time (seed_mode lev))) /\
      (forall sd', last (state L') = Some sd' ->
         exists sw', sweepers s' !! Z.to_nat lev = Some (Some sw') /\
                     Q (nset sw') !! 0%nat = Some (new_data sd')).
Proof.
  intros Hsync Hlev HL. unfold seed_level, getLevel.
  rewrite (lookupZ_Some _ lev L) by (done || lia). cbn [bind].
  pose (Inv := fun (j : nat) (s1 : SDCAmr) =>
    in_sync P s1 /\ same_scalars s s1 /\ frame (Z.to_nat lev) s s1 /\
    trace s1 = trace s ++ level_seed_events lev j /\
    exists L1,
      amr_level (amr s1) !! Z.to_nat lev = Some L1 /\
      length (state L1) = length (state L) /\
      (forall st, (j <= st)%nat -> state L1 !! st = state L !! st) /\
      (forall st sd, (st < j)%nat -> state L !! st = Some sd ->
         exists a_mid,
           new_data <$> state L1 !! st
           = Some (fill_boundary E a_mid lev (new_data sd) time (seed_mode lev))) /\
      (forall sd1, (0 < j)%nat -> state L1 !! (j - 1)%nat = Some sd1 ->
         exists sw1, sweepers s1 !! Z.to_nat lev = Some (Some sw1) /\
                     Q (nset sw1) !! 0%nat = Some (new_data sd1))).
  destruct (forM_seq (seed_state P E time lev) Inv 0 (length (state L)) s)
    as (s' & Hs' & Hi1 & Hi2 & Hi3 & Hi4 & L' & HL' & Hlen & _ & HE & HD).
  - split; [done|]. split; [apply same_scalars_refl|]. split; [apply frame_refl|].
    split; [by rewrite app_nil_r|]. exists L. repeat split; try done; intros; lia.
  - intros j s1 Hj (Hs1 & Hsc & Hfr & Htr & L1 & HL1 & Hlen1 & Hun & HE & HD).
    assert (Hjl : (j < length (state L))%nat) by lia.
    destruct (lookup_lt_is_Some_2 _ _ Hjl) as [sd Hsd].
    assert (Hsd1 : state L1 !! j = Some sd) by (rewrite Hun by lia; done).
    assert (Hlev1 : 0 <= lev <= finest_level (amr s1)).
    { destruct Hsc as (-> & _). done. }
    rewrite (seed_state_seeded time lev j s1 L1 sd) by done.
    destruct (seeded_props time lev j s1 L1 sd Hs1 Hlev1 HL1 Hsd1)
      as (Hp1 & Hp2 & Hp3 & Hp4 & Hp5 & sw' & Hp6 & Hp7).
    eexists. split; [done|].
    split; [done|]. split; [by eapply same_scalars_trans|].
    split; [by eapply frame_trans|]. split.
    { rewrite Hp4, Htr, <- app_assoc. f_equal. unfold level_seed_events.
      rewrite seq_S, bind_app. f_equal. }
    eexists. split; [exact Hp5|]. cbn [state].
    split; [by rewrite length_alter|]. split; [|split].
    + intros st Hst. rewrite list_lookup_alter_ne by lia. apply Hun. lia.
    + intros st sd0 Hst Hsd0. destruct (decide (st = j)) as [->|Hne].
      * assert (sd0 = sd) as -> by congruence.
        exists (amr s1). by rewrite list_lookup_alter_eq, Hsd1.
      * rewrite list_lookup_alter_ne by done. apply HE; [lia|done].
    + intros sd1 _. replace (S j - 1)%nat with j by lia.
      rewrite list_lookup_alter_eq, Hsd1. intros [= <-].
      exists sw'. split; [done|]. exact Hp7.
  - exists s'. split; [done|]. split; [done|]. split; [done|]. split; [done|].
    split; [done|]. exists L'. split; [done|]. split; [done|]. split.
    + intros st sd Hsd. apply HE; [|done]. apply lookup_lt_Some in Hsd. lia.
    + intros sd' Hlast. rewrite last_lookup in Hlast.
      rewrite Hlen in Hlast.
      replace (pred (length (state L))) with (length (state L) - 1)%nat in Hlast by lia.
      apply HD; [|done].
      apply lookup_lt_Some in Hlast. lia.
Qed.

(** The seeding phase. *)
Lemma seeding_spec (time : Real) (s : SDCAmr) :
  in_sync P s ->
  exists s',
    seeding P E time s = Done s' /\
    in_sync P s' /\ same_scalars s s' /\
    trace s' = trace s ++ seed_events (amr s) /\
    (forall lev L st sd,
       0 <= lev <= finest_level (amr s) ->
       amr_level (amr s) !! Z.to_nat lev = Some L -> state L !! st = Some sd ->
       exists a_mid L',
         amr_level (amr s') !! Z.to_nat lev = Some L' /\
         new_data <$> state L' !! st
         = Some (fill_boundary E a_mid lev (new_data sd) time (seed_mode lev))) /\
    (forall lev L' sd',
       0 <= lev <= finest_level (amr s) ->
       amr_level (amr s') !! Z.to_nat lev = Some L' -> last (state L') = Some sd' ->
       exists sw', sweepers s' !! Z.to_nat lev = Some (Some sw') /\
                   Q (nset sw') !! 0%nat = Some (new_data sd')).
Proof.
  intros Hsync. unfold seeding.
  pose (Inv := fun (k : Z) (s1 : SDCAmr) =>
    in_sync P s1 /\ same_scalars s s1 /\
    trace s1 = trace s ++ (lev ← seqZ 0 k; level_seed_events lev (nstates (amr s) lev)) /\
    (forall j : nat, k <= Z.of_nat j ->
       amr_level (amr s1) !! j = amr_level (amr s) !! j) /\
    (forall lev L st sd,
       0 <= lev < k ->
       amr_level (amr s) !! Z.to_nat lev = Some L -> state L !! st = Some sd ->
       exists a_mid L',
         amr_level (amr s1) !! Z.to_nat lev = Some L' /\
         new_data <$> state L' !! st
         = Some (fill_boundary E a_mid lev (new_data sd) time (seed_mode lev))) /\
    (forall lev L' sd',
       0 <= lev < k ->
       amr_level (amr s1) !! Z.to_nat lev = Some L' -> last (state L') = Some sd' ->
       exists sw', sweepers s1 !! Z.to_nat lev = Some (Some sw') /\
                   Q (nset sw') !! 0%nat = Some (new_data sd'))).
  pose proof Hsync as ((Hf & _) & _).
  destruct (forM_seqZ (seed_level P E time) Inv 0 (finest_level (amr s) + 1) s)
    as (s' & Hs' & Hi1 & Hi2 & Hi3 & _ & HE & HD).
  - lia.
  - split; [done|]. split; [apply same_scalars_refl|].
    split; [by rewrite seqZ_nil, app_nil_r by lia|].
    split; [done|]. split; intros; lia.
  - intros k s1 Hk (Hs1 & Hsc & Htr & Hun & HE & HD).
    assert (Hk1 : 0 <= k <= finest_level (amr s1)).
    { destruct Hsc as (-> & _). lia. }
    destruct (synced_level s1 k Hs1 Hk1) as (Lk & _ & HLk & _).
    assert (HLk0 : amr_level (amr s) !! Z.to_nat k = Some Lk).
    { rewrite <- Hun by lia. done. }
    destruct (seed_level_spec time k s1 Lk Hs1 Hk1 HLk)
      as (s2 & Hs2 & Hq1 & Hq2 & Hq3 & Hq4 & L2 & HL2 & Hlen2 & HE2 & HD2).
    exists s2. split; [done|]. split; [done|].
    split; [by eapply same_scalars_trans|]. split; [|split; [|split]].
    + rewrite Hq4, Htr, <- app_assoc. f_equal.
      rewrite (seqZ_app 0 k 1), bind_app by lia. f_equal.
      replace (0 + k) with k by lia. rewrite seqZ_cons, seqZ_nil by lia.
      rewrite bind_singleton. unfold nstates. by rewrite HLk0.
    + intros j Hj. destruct (Hq3 j) as (-> & _); [lia|]. apply Hun. lia.
    + intros lev L st sd Hlev HL Hsd. destruct (decide (lev = k)) as [->|Hne].
      * assert (L = Lk) as -> by congruence.
        destruct (HE2 st sd Hsd) as (a_mid & Ha). by exists a_mid, L2.
      * destruct (Hq3 (Z.to_nat lev)) as (-> & _); [lia|].
        eapply HE; [lia|done..].
    + intros lev L' sd' Hlev HL' Hlast. destruct (decide (lev = k)) as [->|Hne].
      * assert (L' = L2) as -> by congruence. by apply HD2.
      * destruct (Hq3 (Z.to_nat lev)) as (Hq3a & Hq3b); [lia|].
        rewrite Hq3b. rewrite Hq3a in HL'. eapply HD; [lia|done..].
  - exists s'. split; [done|]. split; [done|]. split; [done|].
    split; [done|]. split.
    + intros lev L st sd Hlev. apply HE. lia.
    + intros lev L' sd' Hlev. apply HD. lia.
Qed.

End Seeding.

(** ** Setting times, spreading and sweeping *)

Section Sweeping.
Context `{Car : Carriers}.
Variable P : AmrParams.
Variable E : Externals.
Hypothesis Law : Lawful P E.

Lemma dt_level_0 (s : SDCAmr) :
  in_sync P s -> exists dt0, lookupZ (dt_level (amr s)) 0 = Done dt0.
Proof.
  intros (_ & (_ & _ & Hdt) & _). destruct (dt_level (amr s)) as [|dt0 l]; [done|].
  by exists dt0.
Qed.

Lemma set_times_spec (time : Real) (s : SDCAmr) :
  in_sync P s ->
  exists s',
    set_times time s = Done s' /\
    in_sync P s' /\ same_scalars s s' /\ trace s' = trace s /\
    sweepers s' = sweepers s.
Proof.
  intros Hsync. unfold set_times. pose proof Hsync as ((Hf & _) & _).
  pose (Inv := fun (_ : Z) (s1 : SDCAmr) =>
    in_sync P s1 /\ same_scalars s s1 /\ trace s1 = trace s /\
    sweepers s1 = sweepers s).
  destruct (forM_seqZ (set_time_level time) Inv 0 (finest_level (amr s) + 1) s)
    as (s' & Hs' & Hi); [lia| | |by exists s'].
  { split; [done|]. split; [apply same_scalars_refl|done]. }
  intros k s1 Hk (Hs1 & Hsc & Htr & Hsw).
  assert (Hk1 : 0 <= k <= finest_level (amr s1)).
  { destruct Hsc as (-> & _). lia. }
  destruct (synced_level P s1 k Hs1 Hk1) as (Lk & _ & HLk & _).
  unfold set_time_level, getLevel.
  rewrite (lookupZ_Some _ k Lk) by (done || lia). cbn [bind].
  pose (Inv2 := fun (j : nat) (s2 : SDCAmr) =>
    in_sync P s2 /\ same_scalars s s2 /\ trace s2 = trace s /\
    sweepers s2 = sweepers s /\
    exists L2, amr_level (amr s2) !! Z.to_nat k = Some L2 /\
               length (state L2) = length (state Lk)).
  destruct (forM_seq (set_time_state time k) Inv2 0 (length (state Lk)) s1)
    as (s2 & Hs2 & Hj1 & Hj2 & Hj3 & Hj4 & _).
  - repeat (split; [done|]). by exists Lk.
  - intros j s2 Hj (Hs2 & Hsc2 & Htr2 & Hsw2 & L2 & HL2 & Hlen2).
    unfold set_time_state. destruct (dt_level_0 s2 Hs2) as (dt0 & ->). cbn [bind].
    assert (Hjl : (j < length (state L2))%nat) by lia.
    destruct (lookup_lt_is_Some_2 _ _ Hjl) as [sd Hsd].
    eexists. split; [done|]. split; [|split; [|split; [done|split; [done|]]]].
    + apply (sync_alter_state P s2 k j L2 sd); [done..| |apply same_shape_refl].
      destruct Hs2 as (Hmesh & _). cbn [setTimeLevel new_data].
      by eapply mesh_ok_wf.
    + eapply same_scalars_trans; [exact Hsc2|]. by repeat split.
    + cbn. rewrite list_lookup_alter_eq, HL2. cbn. eexists. split; [done|].
      cbn. by rewrite length_alter.
  - by exists s2.
Qed.

(** The node fields of the registered levels. *)
Lemma mg_fields_ok (s : SDCAmr) (ptrs : list Z) :
  Forall (fun p => 0 <= p /\ exists sw, sweepers s !! Z.to_nat p = Some (Some sw)) ptrs ->
  exists qs,
    mg_fields s ptrs = Done qs /\
    Forall2 (fun p q => exists sw, sweepers s !! Z.to_nat p = Some (Some sw) /\
                                   q = Q (nset sw)) ptrs qs.
Proof.
  induction 1 as [|p ptrs (Hp & sw & Hsw) _ (qs & Hqs & IH)]; simpl.
  - by exists [].
  - unfold deref. rewrite (lookupZ_Some _ p (Some sw)) by done. cbn [bind].
    rewrite Hqs. cbn [bind]. eexists. split; [done|]. constructor; [|done].
    by exists sw.
Qed.

Lemma Forall2_impl_elem {A B : Type} (R R' : A -> B -> Prop) (l : list A) (k : list B) :
  Forall2 R l k -> (forall x y, x ∈ l -> R x y -> R' x y) -> Forall2 R' l k.
Proof.
  induction 1 as [|x y l k Hxy _ IH]; intros Himp; constructor.
  - apply Himp; [left|done].
  - apply IH. intros x' y' Hx'. apply Himp. by right.
Qed.

Lemma mg_store_sync (ptrs : list Z) (qs : list (list MultiFab)) (s : SDCAmr) :
  in_sync P s -> NoDup ptrs ->
  Forall2 (fun p q => 0 <= p /\
             exists sw, sweepers s !! Z.to_nat p = Some (Some sw) /\
                        Forall2 (fun U' U => wf_mf U' /\ same_shape U' U) q (Q (nset sw)))
          ptrs qs ->
  in_sync P (mg_store ptrs qs s) /\ amr (mg_store ptrs qs s) = amr s /\
  max_iters (mg_store ptrs qs s) = max_iters s /\
  mg (mg_store ptrs qs s) = mg s /\
  trace (mg_store ptrs qs s) = trace s.
Proof.
  intros Hsync Hnd H. revert qs s Hsync Hnd H.
  induction ptrs as [|p ptrs IH]; intros qs s Hsync Hnd H.
  - done.
  - destruct qs as [|q qs]; [by apply Forall2_cons_nil_inv in H|].
    apply Forall2_cons_1 in H as ((Hp & sw & Hsw & Hq) & Hrest).
    simpl. apply NoDup_cons in Hnd as (Hnin & Hnd).
    destruct (IH qs (alter_sweeper (set_Q q) p s)) as (H1 & H2 & H3 & H4 & H5).
    + by eapply (sync_set_Q P _ p sw).
    + done.
    + eapply Forall2_impl_elem; [exact Hrest|]. cbn beta.
      intros p' q' Hin (Hp' & sw' & Hsw' & Hq'). split; [done|].
      exists sw'. split; [|done]. cbn.
      rewrite list_lookup_alter_ne; [done|].
      intros Heq. apply Hnin. by assert (p = p') as -> by lia.
    + done.
Qed.

Lemma Forall2_compose {A B C : Type} (R1 : A -> B -> Prop) (R2 : C -> B -> Prop)
    (R3 : A -> C -> Prop) (l : list A) (k : list B) (k' : list C) :
  Forall2 R1 l k -> Forall2 R2 k' k ->
  (forall x y y', R1 x y -> R2 y' y -> R3 x y') ->
  Forall2 R3 l k'.
Proof.
  intros H1. revert k'. induction H1 as [|x y l k Hxy _ IH]; intros k' H2 Himp.
  - apply Forall2_nil_inv_r in H2 as ->. constructor.
  - apply Forall2_cons_inv_r in H2 as (y' & k'' & Hy' & Hk'' & ->).
    constructor; [by eapply Himp|by apply IH].
Qed.

(** A call into the step library that keeps the layout of the node fields
    keeps the hierarchies in step. *)
Lemma mg_apply_spec (f : list (list MultiFab) -> list (list MultiFab)) (s : SDCAmr) :
  in_sync P s ->
  (forall qs, Forall (fun q => Forall wf_mf q /\ uniform_fields q) qs ->
     Forall2 (Forall2 (fun U' U => wf_mf U' /\ same_shape U' U)) (f qs) qs) ->
  exists s',
    mg_apply f s = Done s' /\ in_sync P s' /\ amr s' = amr s /\
    max_iters s' = max_iters s /\ mg s' = mg s /\ trace s' = trace s.
Proof.
  intros Hsync Hf. pose proof Hsync as ((Hfin & _) & _ & _ & Hmg & Hsyn).
  unfold mg_apply. rewrite Hmg.
  destruct (mg_fields_ok s (seqZ 0 (finest_level (amr s) + 1))) as (qs & Hqs & Hrel).
  { apply Forall_seqZ. intros p Hp. split; [lia|].
    destruct (Hsyn (Z.to_nat p)) as (L & sw & _ & Hsw & _); [lia|]. by exists sw. }
  rewrite Hqs. cbn [bind]. eexists. split; [done|].
  apply mg_store_sync; [done|apply NoDup_seqZ|].
  assert (Hwf : Forall (fun q => Forall wf_mf q /\ uniform_fields q) qs).
  { eapply Forall2_Forall_r; [exact Hrel|]. apply Forall_seqZ.
    intros p Hp q (sw & Hsw & ->).
    destruct (Hsyn (Z.to_nat p)) as (L & sw' & _ & Hsw' & _ & _ & Hnu & Hn3); [lia|].
    assert (sw' = sw) as -> by congruence. split; [|done].
    eapply Forall_impl; [exact Hn3|]. by intros U (HU & _). }
  eapply Forall2_impl_elem.
  - eapply (Forall2_compose _ _ (fun p q' => exists sw,
        sweepers s !! Z.to_nat p = Some (Some sw) /\
        Forall2 (fun U' U => wf_mf U' /\ same_shape U' U) q' (Q (nset sw))));
      [exact Hrel|exact (Hf qs Hwf)|].
    intros p q q' (sw & Hsw & ->) Hq'. by exists sw.
  - cbn beta. intros p q' Hin H. split; [|done]. apply elem_of_seqZ in Hin. lia.
Qed.

Lemma spreading_spec (time : Real) (s : SDCAmr) :
  in_sync P s ->
  exists s',
    spreading E time s = Done s' /\ in_sync P s' /\ same_scalars s s' /\
    trace s' = trace s ++ [EvSpread].
Proof.
  intros Hsync. unfold spreading. destruct (dt_level_0 s Hsync) as (dt0 & ->).
  cbn [bind].
  destruct (mg_apply_spec (fun qs => sdc_mg_spread E (amr s) qs time dt0 0) s Hsync)
    as (s' & -> & H1 & H2 & H3 & H4 & H5).
  { intros qs. apply (spread_shape P E Law). }
  cbn [bind]. eexists. split; [done|]. split; [by apply in_sync_log|].
  split; [|by cbn; rewrite H5]. unfold same_scalars. cbn. by rewrite H2, H3, H4.
Qed.

Lemma sweep_spec (time : Real) (k : Z) (s : SDCAmr) :
  in_sync P s ->
  exists s',
    sweep E time k s = Done s' /\ in_sync P s' /\ same_scalars s s' /\
    trace s' = trace s
               ++ [EvSweep (if k =? max_iters s - 1 then SDC_MG_LAST_SWEEP E else 0)].
Proof.
  intros Hsync. unfold sweep. destruct (dt_level_0 s Hsync) as (dt0 & ->).
  cbn [bind].
  set (flags := if k =? max_iters s - 1 then SDC_MG_LAST_SWEEP E else 0).
  destruct (mg_apply_spec (fun qs => sdc_mg_sweep E (amr s) qs time dt0 flags) s Hsync)
    as (s' & -> & H1 & H2 & H3 & H4 & H5).
  { intros qs. apply (sweep_shape P E Law). }
  cbn [bind]. eexists. split; [done|]. split; [by apply in_sync_log|].
  split; [|by cbn; rewrite H5]. unfold same_scalars. cbn. by rewrite H2, H3, H4.
Qed.

(** The sweeps of a step: [max_iters] of them, whatever they compute. *)
Lemma sweeping_spec (time : Real) (s : SDCAmr) :
  in_sync P s ->
  exists s',
    sweeping E time s = Done s' /\ in_sync P s' /\ same_scalars s s' /\
    trace s' = trace s ++ sweep_events E (max_iters s).
Proof.
  intros Hsync. unfold sweeping, sweep_events.
  destruct (Z.lt_ge_cases (max_iters s) 0) as [Hneg|Hpos].
  { rewrite !seqZ_nil by lia. exists s. split; [done|]. split; [done|].
    split; [apply same_scalars_refl|]. by rewrite app_nil_r. }
  pose (Inv := fun (k : Z) (s1 : SDCAmr) =>
    in_sync P s1 /\ same_scalars s s1 /\
    trace s1 = trace s
      ++ ((fun k => EvSweep (if k =? max_iters s - 1 then SDC_MG_LAST_SWEEP E else 0))
            <$> seqZ 0 k)).
  destruct (forM_seqZ (sweep E time) Inv 0 (max_iters s) s) as (s' & Hs' & Hi);
    [lia| | |by exists s'].
  - split; [done|]. split; [apply same_scalars_refl|].
    by rewrite seqZ_nil, app_nil_r by lia.
  - intros k s1 Hk (Hs1 & Hsc & Htr).
    destruct (sweep_spec time k s1 Hs1) as (s2 & Hs2 & H1 & H2 & H3).
    exists s2. split; [done|]. split; [done|].
    split; [by eapply same_scalars_trans|].
    rewrite H3, Htr, <- app_assoc. f_equal.
    rewrite (seqZ_app 0 k 1), fmap_app by lia. f_equal.
    destruct Hsc as (_ & _ & _ & _ & -> & _). done.
Qed.

End Sweeping.

(** ** Finalizing *)

Section Finalizing.
Context `{Car : Carriers}.
Variable P : AmrParams.
Variable E : Externals.

Lemma last_node_exists (L : AmrLevel) (sw : sdc_sweeper) :
  node_ok L sw ->
  exists Uend, lookupZ (Q (nset sw)) (nnodes (nset sw) - 1) = Done Uend /\
               wf_mf Uend /\
               Forall (fun sd => same_shape Uend (new_data sd)) (state L).
Proof.
  intros (Hn1 & Hn2 & _ & Hn3).
  assert (Hlt : (Z.to_nat (nnodes (nset sw) - 1) < length (Q (nset sw)))%nat) by lia.
  destruct (lookup_lt_is_Some_2 _ _ Hlt) as [Uend HU].
  exists Uend. split; [apply lookupZ_Some; [lia|done]|].
  by eapply Forall_lookup_1 in Hn3.
Qed.

Lemma final_state_spec (lev : Z) (st : nat) (s : SDCAmr) (L : AmrLevel)
    (sd : StateData) (sw : sdc_sweeper) (Uend : MultiFab) :
  in_sync P s -> 0 <= lev <= finest_level (amr s) ->
  amr_level (amr s) !! Z.to_nat lev = Some L -> state L !! st = Some sd ->
  sweepers s !! Z.to_nat lev = Some (Some sw) ->
  lookupZ (Q (nset sw)) (nnodes (nset sw) - 1) = Done Uend ->
  final_state lev st s
  = Done (log (EvFinal lev st)
            (set_amr (alter_state (set_new_data Uend) lev st (amr s)) s)) /\
  in_sync P (log (EvFinal lev st)
               (set_amr (alter_state (set_new_data Uend) lev st (amr s)) s)).
Proof.
  intros Hsync Hlev HL Hsd Hsw HU.
  destruct (synced_level P s lev Hsync Hlev) as (L' & sw' & HL' & Hsw' & Hnode).
  assert (L' = L) as -> by congruence. assert (sw' = sw) as -> by congruence.
  destruct (last_node_exists L sw Hnode) as (U' & HU' & HwU & HshU).
  assert (U' = Uend) as -> by congruence.
  eapply Forall_lookup_1 in HshU; [|exact Hsd].
  pose proof Hsync as (Hmesh & _ & _ & Hmg & _).
  assert (Hwsd : wf_mf (new_data sd)) by (by eapply mesh_ok_wf).
  split.
  - unfold final_state, getLevel, lookup_nat.
    rewrite (lookupZ_Some _ lev L) by (done || lia). cbn [bind].
    rewrite (mg_sweeper_synced _ lev sw) by done. cbn [bind].
    rewrite Hsd. cbn [bind]. rewrite HU. cbn [bind].
    rewrite MultiFab_Copy_full_src by done. done.
  - apply in_sync_log. by eapply sync_set_field.
Qed.

Lemma final_level_spec (lev : Z) (s : SDCAmr) (L : AmrLevel)
    (sw : sdc_sweeper) (Uend : MultiFab) :
  in_sync P s -> 0 <= lev <= finest_level (amr s) ->
  amr_level (amr s) !! Z.to_nat lev = Some L ->
  sweepers s !! Z.to_nat lev = Some (Some sw) ->
  lookupZ (Q (nset sw)) (nnodes (nset sw) - 1) = Done Uend ->
  exists s',
    final_level lev s = Done s' /\
    in_sync P s' /\ same_scalars s s' /\ frame (Z.to_nat lev) s s' /\
    sweepers s' = sweepers s /\
    trace s' = trace s ++ level_final_events lev (length (state L)) /\
    exists L',
      amr_level (amr s') !! Z.to_nat lev = Some L' /\
      forall st sd', state L' !! st = Some sd' -> new_data sd' = Uend.
Proof.
  intros Hsync Hlev HL Hsw HU. unfold final_level, getLevel.
  rewrite (lookupZ_Some _ lev L) by (done || lia). cbn [bind].
  pose (Inv := fun (j : nat) (s1 : SDCAmr) =>
    in_sync P s1 /\ same_scalars s s1 /\ frame (Z.to_nat lev) s s1 /\
    sweepers s1 = sweepers s /\
    trace s1 = trace s ++ level_final_events lev j /\
    exists L1,
      amr_level (amr s1) !! Z.to_nat lev = Some L1 /\
      length (state L1) = length (state L) /\
      forall st sd', (st < j)%nat -> state L1 !! st = Some sd' -> new_data sd' = Uend).
  destruct (forM_seq (final_state lev) Inv 0 (length (state L)) s)
    as (s' & Hs' & Hi1 & Hi2 & Hi3 & Hi4 & Hi5 & L' & HL' & Hlen & HD).
  - split; [done|]. split; [apply same_scalars_refl|]. split; [apply frame_refl|].
    split; [done|]. split; [by rewrite app_nil_r|]. exists L.
    repeat split; try done; intros; lia.
  - intros j s1 Hj (Hs1 & Hsc & Hfr & Hsw1 & Htr & L1 & HL1 & Hlen1 & HD).
    assert (Hjl : (j < length (state L1))%nat) by lia.
    destruct (lookup_lt_is_Some_2 _ _ Hjl) as [sd Hsd].
    assert (Hlev1 : 0 <= lev <= finest_level (amr s1)).
    { destruct Hsc as (-> & _). done. }
    destruct (final_state_spec lev j s1 L1 sd sw Uend) as (Hfs & Hfsync); try done.
    { by rewrite Hsw1. }
    rewrite Hfs. eexists. split; [done|]. split; [done|].
    split; [eapply same_scalars_trans; [exact Hsc|by repeat split]|].
    split; [|split; [done|split]].
    + eapply frame_trans; [exact Hfr|]. intros j' Hj'. cbn.
      by rewrite list_lookup_alter_ne.
    + cbn [trace log set_amr]. rewrite Htr, <- app_assoc. f_equal.
      unfold level_final_events. rewrite seq_S, bind_app. f_equal.
    + cbn. rewrite list_lookup_alter_eq, HL1. cbn. eexists. split; [done|].
      cbn. split; [by rewrite length_alter|].
      intros st sd' Hst. destruct (decide (st = j)) as [->|Hne].
      * rewrite list_lookup_alter_eq, Hsd. by intros [= <-].
      * rewrite list_lookup_alter_ne by done. apply HD. lia.
  - exists s'. repeat (split; [done|]). exists L'. split; [done|].
    intros st sd' Hsd'. eapply HD; [|done]. apply lookup_lt_Some in Hsd'. lia.
Qed.

(** The finalizing loops: every state field of every level ends as the
    level's last node. *)
Lemma finalizing_spec (s : SDCAmr) :
  in_sync P s ->
  exists s',
    finalizing s = Done s' /\
    in_sync P s' /\ same_scalars s s' /\ sweepers s' = sweepers s /\
    trace s' = trace s ++ final_events (amr s) /\
    forall lev L' st sd',
      0 <= lev <= finest_level (amr s) ->
      amr_level (amr s') !! Z.to_nat lev = Some L' -> state L' !! st = Some sd' ->
      exists sw, sweepers s' !! Z.to_nat lev = Some (Some sw) /\
                 lookupZ (Q (nset sw)) (nnodes (nset sw) - 1) = Done (new_data sd').
Proof.
  intros Hsync. unfold finalizing. pose proof Hsync as ((Hf & _) & _).
  pose (Inv := fun (k : Z) (s1 : SDCAmr) =>
    in_sync P s1 /\ same_scalars s s1 /\ sweepers s1 = sweepers s /\
    trace s1 = trace s ++ (lev ← seqZ 0 k; level_final_events lev (nstates (amr s) lev)) /\
    (forall j : nat, k <= Z.of_nat j ->
       amr_level (amr s1) !! j = amr_level (amr s) !! j) /\
    (forall lev L' st sd',
       0 <= lev < k ->
       amr_level (amr s1) !! Z.to_nat lev = Some L' -> state L' !! st = Some sd' ->
       exists sw, sweepers s !! Z.to_nat lev = Some (Some sw) /\
                  lookupZ (Q (nset sw)) (nnodes (nset sw) - 1) = Done (new_data sd'))).
  destruct (forM_seqZ final_level Inv 0 (finest_level (amr s) + 1) s)
    as (s' & Hs' & Hi1 & Hi2 & Hi3 & Hi4 & _ & HD).
  - lia.
  - split; [done|]. split; [apply same_scalars_refl|]. split; [done|].
    split; [by rewrite seqZ_nil, app_nil_r by lia|].
    split; [done|]. intros; lia.
  - intros k s1 Hk (Hs1 & Hsc & Hsw1 & Htr & Hun & HD).
    assert (Hk1 : 0 <= k <= finest_level (amr s1)).
    { destruct Hsc as (-> & _). lia. }
    destruct (synced_level P s1 k Hs1 Hk1) as (Lk & sw & HLk & Hsw & Hnode).
    destruct (last_node_exists Lk sw Hnode) as (Uend & HU & _).
    assert (HLk0 : amr_level (amr s) !! Z.to_nat k = Some Lk).
    { rewrite <- Hun by lia. done. }
    destruct (final_level_spec k s1 Lk sw Uend Hs1 Hk1 HLk Hsw HU)
      as (s2 & Hs2 & Hq1 & Hq2 & Hq3 & Hq4 & Hq5 & L2 & HL2 & HD2).
    exists s2. split; [done|]. split; [done|].
    split; [by eapply same_scalars_trans|]. split; [congruence|].
    split; [|split].
    + rewrite Hq5, Htr, <- app_assoc. f_equal.
      rewrite (seqZ_app 0 k 1), bind_app by lia. f_equal.
      replace (0 + k) with k by lia. rewrite seqZ_cons, seqZ_nil by lia.
      rewrite bind_singleton. unfold nstates. by rewrite HLk0.
    + intros j Hj. destruct (Hq3 j) as (-> & _); [lia|]. apply Hun. lia.
    + intros lev L' st sd' Hlev HL' Hsd'. destruct (decide (lev = k)) as [->|Hne].
      * assert (L' = L2) as -> by congruence.
        exists sw. split; [by rewrite <- Hsw1|]. by rewrite (HD2 st sd' Hsd').
      * destruct (Hq3 (Z.to_nat lev)) as (Hq3a & _); [lia|].
        rewrite Hq3a in HL'. eapply HD; [lia|done..].
  - exists s'. repeat (split; [done|]).
    intros lev L' st sd' Hlev HL' Hsd'. rewrite Hi3. eapply HD; [lia|done..].
Qed.

End Finalizing.

(** ** The whole step *)

Section Stepping.
Context `{Car : Carriers}.
Variable P : AmrParams.
Variable E : Externals.
Hypothesis Law : Lawful P E.

Lemma preparing_spec (time stop_time : Real) (s : SDCAmr) :
  ready P s ->
  exists s',
    preparing P E 0 time stop_time s = Done s' /\
    in_sync P s' /\
    level_steps (amr s') = level_steps (amr s) /\
    max_iters s' = max_iters s /\
    (exists evs, trace s' = trace s ++ evs /\ prepare_trace evs) /\
    (forall j : nat, level_count (amr s') !! j = level_count (amr s) !! j \/
                     level_count (amr s') !! j = Some 0).
Proof.
  intros (Hm & Hc & Hs & Hor). unfold preparing.
  rewrite andb_false_r.
  pose proof Hs as (_ & Hls & _). pose proof Hm as (Hf & _).
  assert (Hlt : (0 < length (sweepers s))%nat) by lia.
  destruct (lookup_lt_is_Some_2 _ _ Hlt) as [o Ho].
  rewrite (lookupZ_Some _ 0 o) by done. cbn [bind].
  assert (Hb : exists s1 r,
    match o with None => rebuild_mlsdc P E s | Some _ => Done s end = Done s1 /\
    in_sync P s1 /\ amr s1 = amr s /\ max_iters s1 = max_iters s /\
    trace s1 = trace s ++ r /\ (r = [] \/ r = [EvRebuild])).
  { destruct o as [sw|].
    - exists s, []. split; [done|]. destruct Hor as [Hor|Hor]; [congruence|].
      split; [done|]. rewrite app_nil_r. repeat split; try done. by left.
    - exists (rebuilt P E s), [EvRebuild]. split; [by apply rebuild_mlsdc_rebuilt|].
      split; [by apply rebuilt_in_sync|]. repeat split; try done. by right. }
  destruct Hb as (s1 & r & -> & Hs1 & Ha1 & Hmi1 & Htr1 & Hr). cbn [bind].
  unfold regridding.
  match goal with |- context [regrid_loop _ _ ?n _ _ _ ?lt _] =>
    destruct (regrid_loop_spec P E n time stop_time 0 lt s1 Law Hs1 ltac:(lia))
      as (s2 & Hl & Hs2 & Hls2 & Hmi2 & (evs & Htr2 & Hrt) & Hlc2)
  end.
  exists s2. split; [done|]. split; [done|]. split; [congruence|].
  split; [congruence|]. split.
  - exists (r ++ evs). split; [by rewrite Htr2, Htr1, app_assoc|].
    exists evs. split; [done|]. destruct Hr as [->| ->]; [by left|by right].
  - intros j. rewrite <- Ha1. apply Hlc2.
Qed.

(** A step on a controller none of whose levels is due for a regrid starts
    seeding on the controller as it is. *)
Lemma preparing_idle (time stop_time : Real) (s : SDCAmr) :
  ready P s -> sweepers s !! 0%nat <> Some None ->
  (forall j, 0 <= j <= Z.min (finest_level (amr s)) (max_level P - 1) ->
     okToRegrid E (amr s) j = false) ->
  preparing P E 0 time stop_time s = Done s.
Proof.
  intros (Hm & Hc & Hs & Hor) Hsw Hidle. unfold preparing.
  rewrite andb_false_r.
  pose proof Hs as (_ & Hls & _). pose proof Hm as (Hf & _).
  assert (Hlt : (0 < length (sweepers s))%nat) by lia.
  destruct (lookup_lt_is_Some_2 _ _ Hlt) as [o Ho].
  rewrite (lookupZ_Some _ 0 o) by done. cbn [bind].
  destruct o as [sw|]; [|done]. cbn [bind]. unfold regridding.
  apply regrid_loop_idle. intros j Hj. apply Hidle. lia.
Qed.

Lemma count_step_spec (s : SDCAmr) (n c : Z) :
  in_sync P s ->
  level_steps (amr s) !! 0%nat = Some n -> level_count (amr s) !! 0%nat = Some c ->
  INT_MIN <= n + 1 <= INT_MAX -> INT_MIN <= c + 1 <= INT_MAX ->
  let s' := set_amr (set_level_count (<[0%nat := c + 1]> (level_count (amr s)))
                       (set_level_steps (<[0%nat := n + 1]> (level_steps (amr s)))
                          (amr s))) s in
  count_step 0 s = Done s' /\ in_sync P s'.
Proof.
  intros Hsync Hn Hc Hnb Hcb s'. pose proof Hsync as (Hm & (Hc1 & Hc2 & Hc3) & Hs & Hsyn).
  pose proof Hm as (Hf & _). split.
  - unfold count_step. rewrite (lookupZ_Some _ 0 n) by done. cbn [bind].
    rewrite int_of_Done by done. cbn [bind].
    rewrite updateZ_Some by lia. cbn [bind].
    cbn [amr set_amr set_level_steps level_count].
    rewrite (lookupZ_Some _ 0 c) by done. cbn [bind].
    rewrite int_of_Done by done. cbn [bind].
    rewrite updateZ_Some by lia. done.
  - split; [exact Hm|]. split; [|split; [exact Hs|exact Hsyn]].
    unfold counters_ok. cbn. rewrite !length_insert. done.
Qed.

(** A step from a ready controller returns; its phases, their history and
    what they leave. *)
Lemma timeStep_spec (time : Real) (iteration niter : Z) (stop_time : Real) (s : SDCAmr) :
  ready P s -> can_count (amr s) ->
  exists s_r s_q s',
    preparing P E 0 time stop_time s = Done s_r /\
    seeding P E time s_r = Done s_q /\
    timeStep P E 0 time iteration niter stop_time s = Done s' /\
    in_sync P s_r /\ in_sync P s_q /\ in_sync P s' /\
    (exists evs, trace s_r = trace s ++ evs /\ prepare_trace evs) /\
    (exists a_f, trace s' = trace s_r ++ seed_events (amr s_r) ++ [EvSpread]
                            ++ sweep_events E (max_iters s) ++ final_events a_f) /\
    max_iters s' = max_iters s /\
    finest_level (amr s') = finest_level (amr s_r) /\
    (exists n, level_steps (amr s) !! 0%nat = Some n /\
               level_steps (amr s') = <[0%nat := n + 1]> (level_steps (amr s))) /\
    (exists c, level_count (amr s_r) !! 0%nat = Some c /\
               level_count (amr s') = <[0%nat := c + 1]> (level_count (amr s_r))) /\
    (forall lev L' st sd',
       0 <= lev <= finest_level (amr s') ->
       amr_level (amr s') !! Z.to_nat lev = Some L' -> state L' !! st = Some sd' ->
       exists sw, sweepers s' !! Z.to_nat lev = Some (Some sw) /\
                  lookupZ (Q (nset sw)) (nnodes (nset sw) - 1) = Done (new_data sd')).
Proof.
  intros Hready (n & c & Hn & Hc & Hnb & Hcb).
  destruct (preparing_spec time stop_time s Hready)
    as (s_r & Hprep & Hsr & Hls_r & Hmi_r & Hev_r & Hlc_r).
  destruct (seeding_spec P E Law time s_r Hsr)
    as (s_q & Hseed & Hsq & Hsc_q & Htr_q & _).
  destruct (set_times_spec P time s_q Hsq) as (s1 & Hst & Hs1 & Hsc1 & Htr1 & _).
  destruct (spreading_spec P E Law time s1 Hs1) as (s2 & Hsp & Hs2 & Hsc2 & Htr2).
  destruct (sweeping_spec P E Law time s2 Hs2) as (s3 & Hsw & Hs3 & Hsc3 & Htr3).
  destruct (finalizing_spec P s3 Hs3) as (s4 & Hfin & Hs4 & Hsc4 & Hsw4 & Htr4 & HD).
  pose proof (same_scalars_trans _ _ _ Hsc_q Hsc1) as Hsc_1.
  pose proof (same_scalars_trans _ _ _ Hsc_1 Hsc2) as Hsc_2.
  pose proof (same_scalars_trans _ _ _ Hsc_2 Hsc3) as Hsc_3.
  pose proof (same_scalars_trans _ _ _ Hsc_3 Hsc4) as Hsc_4.
  destruct Hsc_4 as (Hf4 & Hls4 & Hlc4 & _ & Hmi4 & _).
  assert (Hc' : exists c', level_count (amr s_r) !! 0%nat = Some c' /\
                           INT_MIN <= c' + 1 <= INT_MAX).
  { destruct (Hlc_r 0%nat) as [H|H]; rewrite H.
    - by exists c.
    - exists 0. split; [done|]. unfold INT_MIN, INT_MAX. lia. }
  destruct Hc' as (c' & Hc' & Hcb').
  destruct (count_step_spec s4 n c' Hs4) as (Hcount & Hs5); try done.
  { by rewrite Hls4, Hls_r. } { by rewrite Hlc4. }
  eexists s_r, s_q, _. split; [done|]. split; [done|]. split.
  { unfold timeStep, timeStep_seeded. rewrite Hprep. cbn [bind]. rewrite Hseed.
    cbn [bind]. rewrite Hst. cbn [bind]. rewrite Hsp. cbn [bind]. rewrite Hsw.
    cbn [bind]. rewrite Hfin. cbn [bind]. exact Hcount. }
  split; [done|]. split; [done|]. split; [done|]. split; [done|].
  cbn [amr set_amr set_level_count set_level_steps trace max_iters finest_level
       level_steps level_count amr_level sweepers].
  split; [|split; [congruence|split; [done|split; [|split]]]].
  - exists (amr s3). rewrite Htr4, Htr3, Htr2, Htr1, Htr_q.
    destruct Hsc_2 as (_ & _ & _ & _ & -> & _). rewrite Hmi_r.
    by rewrite <- !app_assoc.
  - exists n. split; [done|]. by rewrite Hls4, Hls_r.
  - exists c'. split; [done|]. by rewrite Hlc4.
  - intros lev L' st sd' Hlev. apply HD.
    destruct Hsc4 as (Hf & _). lia.
Qed.

End Stepping.

(** * The sentences of the specification *)

Section Claims.
Context `{Car : Carriers}.
Variable P : AmrParams.
Variable E : Externals.

(** C2.  For every level [k] from [0] to [max_level] the sweeper built for
    level [k] has [1 + (n0 - 1) * r ^ k] quadrature nodes, with base count
    [n0 = nnodes0] and ratio [r = trat]: [rns_sdc_build_level] returns it,
    [rebuild_mlsdc] stores it at slot [k] for the levels of the hierarchy,
    and one level up the node count less one is [r] times larger.  (The
    counts are C [int]s: up to level [29] they fit.) *)
Theorem node_count_formula (k : Z) :
  0 <= k <= max_level P -> max_level P <= 29 ->
  (exists sw, rns_sdc_build_level k = Done sw /\
              nnodes (nset sw) = 1 + (nnodes0 - 1) * trat ^ k) /\
  (forall s, mesh_ok P (amr s) -> slots_ok P s -> k <= finest_level (amr s) ->
     exists s' sw,
       rebuild_mlsdc P E s = Done s' /\
       sweepers s' !! Z.to_nat k = Some (Some sw) /\
       nnodes (nset sw) = 1 + (nnodes0 - 1) * trat ^ k) /\
  (1 + (nnodes0 - 1) * trat ^ (k + 1)) - 1 = trat * ((1 + (nnodes0 - 1) * trat ^ k) - 1).
Proof.
  intros Hk HM. split; [|split].
  - eexists. split; [apply rns_sdc_build_level_Done; lia|done].
  - intros s Hm Hs Hkf. exists (rebuilt P E s), (built E (amr s) k).
    split; [by apply rebuild_mlsdc_rebuilt|]. split; [|done].
    cbn [rebuilt sweepers]. rewrite slots_lookup_lt by lia.
    by rewrite Z2Nat.id by lia.
  - unfold nnodes0, trat. rewrite Z.pow_add_r by lia. lia.
Qed.

(** C3.  [mlsdc_amr_restrict] fills the boundary of the fine field before
    the average-down and of the coarse field after it exactly when the
    state is a solution; otherwise it fills nothing; it averages down once
    in either case. *)
Theorem restrict_fills_solutions_only (a : Amr) (F G : MultiFab) (state : sdc_state)
    (ctxF ctxG : Z) :
  mlsdc_amr_restrict E a F G state ctxF ctxG
  = (if kind state =? SDC_SOLUTION E
     then
       let UF := fill_boundary E a ctxF F (t state) use_FillBoundary in
       let UG := avgDown E a ctxG G UF in
       (UF, fill_boundary E a ctxG UG (t state) use_FillBoundary,
        [Call_fill_boundary ctxF F (t state) use_FillBoundary;
         Call_avgDown ctxG G UF;
         Call_fill_boundary ctxG UG (t state) use_FillBoundary])
     else (F, avgDown E a ctxG G F, [Call_avgDown ctxG G F])) /\
  ((exists lev U time mode,
      Call_fill_boundary lev U time mode ∈ (mlsdc_amr_restrict E a F G state ctxF ctxG).2)
   <-> kind state = SDC_SOLUTION E).
Proof.
  unfold mlsdc_amr_restrict.
  destruct (Z.eqb_spec (kind state) (SDC_SOLUTION E)) as [Heq|Hne]; cbn.
  - split; [done|]. split; [done|]. intros _.
    eexists _, _, _, _. apply list_elem_of_here.
  - split; [done|]. split; [|done].
    intros (lev & U & time & mode & Hin). apply list_elem_of_singleton in Hin.
    discriminate.
Qed.

Lemma check_blocking_all (l : list Z) :
  forM (check_blocking P) l ()
  = if forallb (fun i => negb (blockingFactor P i <? 4)) l
    then Done ()
    else Aborted "For AMR runs, set blocking_factor to at least 4.".
Proof.
  induction l as [|i l IH]; simpl; [done|].
  unfold check_blocking at 1. destruct (blockingFactor P i <? 4); simpl; [done|].
  exact IH.
Qed.

(** C7.  With [max_level > 0], a blocking factor below [4] at any level
    from [0] to [max_level] makes the constructor abort with the
    configuration message, so that no controller exists to step; with all
    of them at least [4] it returns a controller that has done nothing.
    With [max_level = 0] the blocking factors are not looked at and the
    constructor returns. *)
Theorem blocking_factor_gate (pp : ParmParse) (a : Amr) :
  (0 < max_level P ->
   (exists i, 0 <= i <= max_level P /\ blockingFactor P i < 4) ->
   SDCAmr_new P pp a = Aborted "For AMR runs, set blocking_factor to at least 4.") /\
  (0 < max_level P ->
   (forall i, 0 <= i <= max_level P -> 4 <= blockingFactor P i) ->
   exists s, SDCAmr_new P pp a = Done s /\ trace s = [] /\ amr s = a) /\
  (max_level P = 0 ->
   exists s, SDCAmr_new P pp a = Done s /\ trace s = [] /\ amr s = a).
Proof.
  unfold SDCAmr_new. split; [|split].
  - intros HM (i & Hi & Hbf).
    destruct (Z.ltb_spec (max_level P) 0); [lia|].
    destruct (Z.ltb_spec 0 (max_level P)); [|lia].
    rewrite check_blocking_all.
    destruct (forallb _ _) eqn:Hall; [|done].
    rewrite forallb_forall in Hall. specialize (Hall i).
    rewrite <- list_elem_of_In, elem_of_seqZ in Hall.
    specialize (Hall ltac:(lia)). apply negb_true_iff in Hall. lia.
  - intros HM Hall.
    destruct (Z.ltb_spec (max_level P) 0); [lia|].
    destruct (Z.ltb_spec 0 (max_level P)); [|lia].
    rewrite check_blocking_all.
    destruct (forallb _ _) eqn:Hfa.
    + eexists. by cbn.
    + apply not_true_iff_false in Hfa. exfalso. apply Hfa.
      apply forallb_forall. intros i Hi.
      rewrite <- list_elem_of_In, elem_of_seqZ in Hi.
      apply negb_true_iff. specialize (Hall i ltac:(lia)). lia.
  - intros ->. cbn. eexists. done.
Qed.

(** C8.  Rebuilding twice in a row, the mesh unchanged, leaves what one
    rebuild leaves: as many levels registered with the orchestrator and,
    level by level, the same node count, context and encapsulation; the
    second rebuild only adds its line to the history. *)
Theorem rebuild_twice (s : SDCAmr) :
  mesh_ok P (amr s) -> slots_ok P s ->
  exists s1 s2,
    rebuild_mlsdc P E s = Done s1 /\ rebuild_mlsdc P E s1 = Done s2 /\
    nlevels (mg s2) = nlevels (mg s1) /\
    (forall (lev : nat) sw1, sweepers s1 !! lev = Some (Some sw1) ->
       exists sw2, sweepers s2 !! lev = Some (Some sw2) /\
                   nnodes (nset sw2) = nnodes (nset sw1) /\
                   ctx (nset sw2) = ctx (nset sw1) /\
                   encap (nset sw2) = encap (nset sw1)) /\
    mg s2 = mg s1 /\ sweepers s2 = sweepers s1 /\ encaps s2 = encaps s1 /\
    amr s2 = amr s1 /\ trace s2 = trace s1 ++ [EvRebuild].
Proof.
  intros Hm Hs. exists (rebuilt P E s), (rebuilt P E (rebuilt P E s)).
  split; [by apply rebuild_mlsdc_rebuilt|].
  split; [apply rebuild_mlsdc_rebuilt; [done|by apply rebuilt_slots_ok]|].
  split; [done|]. split; [intros lev sw1 Hsw1; by exists sw1|].
  split; [done|]. split; [done|]. split; [|done].
  cbn [rebuilt encaps amr]. apply refill_refill. destruct Hm as (Hf & _). lia.
Qed.

End Claims.

(** ** Histories *)

Section Histories.
Context `{Car : Carriers}.
Variable E : Externals.

Lemma rebuild_follows_app (l1 l2 : list Event) :
  rebuild_follows l1 -> rebuild_follows l2 -> rebuild_follows (l1 ++ l2).
Proof.
  intros H1 H2 i lbase changed Hi.
  destruct (decide (i < length l1)%nat) as [Hlt|Hge].
  - rewrite lookup_app_l in Hi by done. pose proof (H1 _ _ _ Hi) as HS.
    rewrite lookup_app_l; [done|]. by apply lookup_lt_Some in HS.
  - rewrite lookup_app_r in Hi by lia. pose proof (H2 _ _ _ Hi) as HS.
    rewrite lookup_app_r by lia. by replace (S i - length l1)%nat
      with (S (i - length l1)) by lia.
Qed.

Lemma rebuild_follows_quiet (l : list Event) :
  Forall (fun e => is_regrid e = false) l -> rebuild_follows l.
Proof.
  intros H i lbase changed Hi. eapply Forall_lookup_1 in H; [|exact Hi].
  discriminate.
Qed.

Lemma rebuild_follows_regrid (l : list Event) :
  regrid_trace l -> rebuild_follows l.
Proof.
  induction 1 as [|lbase changed evs _ IH]; intros i lb ch Hi; [done|].
  destruct i as [|[|i]]; [done|done|]. apply (IH i lb ch Hi).
Qed.

Lemma rebuild_follows_prepare (l : list Event) :
  prepare_trace l -> rebuild_follows l.
Proof.
  intros (evs & Hrt & [->| ->]); [by apply rebuild_follows_regrid|].
  apply (rebuild_follows_app [EvRebuild]); [|by apply rebuild_follows_regrid].
  by apply rebuild_follows_quiet; repeat constructor.
Qed.

Lemma rebuild_follows_before_seeding (l : list Event) :
  rebuild_follows l -> rebuilt_before_seeding l.
Proof.
  intros H i j lbase changed lev st Hi Hj Hij. exists (S i).
  pose proof (H _ _ _ Hi) as HS. split; [|done].
  destruct (decide (j = S i)) as [->|Hne]; [congruence|lia].
Qed.

Lemma seed_events_quiet (a : Amr) :
  Forall (fun e => is_regrid e = false /\ is_sweep e = false /\ is_rebuild e = false)
         (seed_events a).
Proof.
  unfold seed_events, level_seed_events. apply Forall_bind, Forall_true.
  intros lev. apply Forall_bind, Forall_true. intros st. by repeat constructor.
Qed.

Lemma final_events_quiet (a : Amr) :
  Forall (fun e => is_regrid e = false /\ is_sweep e = false /\ is_rebuild e = false)
         (final_events a).
Proof.
  unfold final_events, level_final_events. apply Forall_bind, Forall_true.
  intros lev. apply Forall_bind, Forall_true. intros st. by repeat constructor.
Qed.

Lemma sweep_events_sweeps (n : Z) :
  Forall (fun e => is_regrid e = false /\ is_sweep e = true /\ is_rebuild e = false)
         (sweep_events E n).
Proof. unfold sweep_events. apply Forall_fmap, Forall_true. by intros k. Qed.

Lemma prepare_trace_quiet (l : list Event) :
  prepare_trace l -> Forall (fun e => is_sweep e = false) l.
Proof.
  assert (Hrt : forall evs, regrid_trace evs -> Forall (fun e => is_sweep e = false) evs).
  { induction 1; by repeat constructor. }
  intros (evs & Hevs & [->| ->]); [by apply Hrt|]. constructor; [done|by apply Hrt].
Qed.

Lemma filter_none (f : Event -> bool) (l : list Event) :
  Forall (fun e => f e = false) l -> List.filter f l = [].
Proof. induction 1 as [|e l He _ IH]; simpl; [done|]. by rewrite He. Qed.

Lemma filter_all (f : Event -> bool) (l : list Event) :
  Forall (fun e => f e = true) l -> List.filter f l = l.
Proof. induction 1 as [|e l He _ IH]; simpl; [done|]. by rewrite He, IH. Qed.

Lemma existsb_none (f : Event -> bool) (l : list Event) :
  Forall (fun e => f e = false) l -> existsb f l = false.
Proof. induction 1 as [|e l He _ IH]; simpl; [done|]. by rewrite He. Qed.

End Histories.

(** ** The sentences on a step *)

Section StepClaims.
Context `{Car : Carriers}.
Variable P : AmrParams.
Variable E : Externals.
Hypothesis Law : Lawful P E.


Lemma Unew_lookup (a : Amr) (lev : Z) (st : nat) (L : AmrLevel) (sd : StateData) :
  0 <= lev -> amr_level a !! Z.to_nat lev = Some L -> state L !! st = Some sd ->
  Unew a lev st = Done (new_data sd).
Proof.
  intros Hlev HL Hsd. unfold Unew, getLevel, lookup_nat.
  rewrite (lookupZ_Some _ lev L) by done. cbn [bind]. by rewrite Hsd.
Qed.




End StepClaims.

(** ** The sentences on sequences of calls *)

Section RunClaims.
Context `{Car : Carriers}.
Variable P : AmrParams.
Variable E : Externals.
Hypothesis Law : Lawful P E.

Lemma in_sync_ready (s : SDCAmr) : in_sync P s -> ready P s.
Proof.
  intros (Hm & Hc & Hs & Hy). split; [exact Hm|]. split; [exact Hc|].
  split; [exact Hs|]. by right.
Qed.

Lemma can_count_n_S (k : nat) (a : Amr) : can_count_n (S k) a -> can_count a.
Proof.
  intros (n & c & Hn & Hc & ? & ? & ? & ?). exists n, c.
  repeat split; try done; lia.
Qed.

Lemma call_spec (c : Call) (s : SDCAmr) (k : nat) :
  ready P s -> base_call c -> can_count_n (S k) (amr s) ->
  exists s' evs,
    call P E c s = Done s' /\ in_sync P s' /\ can_count_n k (amr s') /\
    trace s' = trace s ++ evs /\ rebuild_follows evs.
Proof.
  intros Hready Hbase Hcount.
  destruct c as [level time iteration niter stop_time|lbase time initial];
    cbn [call base_call] in *.
  - subst level. pose proof (can_count_n_S _ _ Hcount) as Hcan.
    destruct (timeStep_spec P E Law time iteration niter stop_time s Hready Hcan)
      as (s_r & s_q & s' & Hprep & _ & Hstep & _ & _ & Hs' & (evs & Htr_r & Hpt)
          & (a_f & Htr) & _ & _ & (n & Hn & Hls) & (c & Hc & Hlc) & _).
    destruct (preparing_spec P E Law time stop_time s Hready)
      as (s_r' & Hprep' & _ & _ & _ & _ & Hrel).
    assert (s_r' = s_r) as -> by congruence.
    exists s', (evs ++ seed_events (amr s_r) ++ [EvSpread]
                ++ sweep_events E (max_iters s) ++ final_events a_f).
    split; [done|]. split; [done|]. split; [|split].
    + destruct Hcount as (n0 & c0 & Hn0 & Hc0 & B1 & B2 & B3 & B4).
      assert (n0 = n) as -> by congruence.
      exists (n + 1), (c + 1). rewrite Hls, Hlc.
      split; [apply list_lookup_insert_eq; by apply lookup_lt_Some in Hn|].
      split; [apply list_lookup_insert_eq; by apply lookup_lt_Some in Hc|].
      assert (c = c0 \/ c = 0) as Hcc.
      { destruct (Hrel 0%nat) as [H|H]; [left|right]; congruence. }
      unfold INT_MIN, INT_MAX in *. lia.
    + by rewrite Htr, Htr_r, <- app_assoc.
    + apply rebuild_follows_app; [by apply rebuild_follows_prepare|].
      apply rebuild_follows_quiet. repeat apply Forall_app_2.
      * eapply Forall_impl; [apply seed_events_quiet|]. by intros e (? & _).
      * by repeat constructor.
      * eapply Forall_impl; [apply sweep_events_sweeps|]. by intros e (? & _).
      * eapply Forall_impl; [apply final_events_quiet|]. by intros e (? & _).
  - destruct Hready as (Hm & Hc & Hs & _).
    rewrite regrid_rebuilt by done.
    eexists _, [_; EvRebuild]. split; [done|]. split; [|split; [|split]].
    + apply rebuilt_in_sync; try done.
      exact (regrid_mesh_ok P E Law lbase time initial (amr s) Hm).
    + destruct Hcount as (n0 & c0 & Hn0 & Hc0 & B1 & B2 & B3 & B4).
      exists n0, c0. cbn. repeat split; try done; lia.
    + cbn. by rewrite <- app_assoc.
    + apply rebuild_follows_regrid. repeat constructor.
Qed.

Lemma run_spec (calls : list Call) (s : SDCAmr) :
  ready P s -> Forall base_call calls -> can_count_n (length calls) (amr s) ->
  exists s' evs,
    run P E calls s = Done s' /\ ready P s' /\
    trace s' = trace s ++ evs /\ rebuild_follows evs.
Proof.
  revert s. induction calls as [|c calls IH]; intros s Hready Hbase Hcount.
  - exists s, []. split; [done|]. split; [done|]. split; [by rewrite app_nil_r|done].
  - apply Forall_cons_1 in Hbase as (Hc & Hbase).
    destruct (call_spec c s (length calls) Hready Hc Hcount)
      as (s1 & evs1 & Hcall & Hs1 & Hcount1 & Htr1 & Hrf1).
    destruct (IH s1 (in_sync_ready s1 Hs1) Hbase Hcount1)
      as (s2 & evs2 & Hrun & Hs2 & Htr2 & Hrf2).
    exists s2, (evs1 ++ evs2). unfold run in *. cbn [forM]. rewrite Hcall. cbn [bind].
    split; [done|]. split; [done|]. split; [by rewrite Htr2, Htr1, app_assoc|].
    by apply rebuild_follows_app.
Qed.

(** C1, as the code has it.  Any sequence of [Step] (at the base level)
    and [Regrid] calls from a ready controller returns, and in its history
    the event after every mesh regrid, whether or not it changed the shape
    of the mesh, is a rebuild: a rebuild separates every mesh regrid from
    every later copy into [Q[0]].  A step whose sweepers exist and none of
    the levels that it visits, [0] to [min (finest_level, max_level - 1)],
    is due for a regrid rebuilds nothing.  [Regrid] calls the mesh regrid
    and then rebuilds. *)
Theorem regrid_then_rebuild :
  (forall calls s,
     ready P s -> Forall base_call calls -> can_count_n (length calls) (amr s) ->
     exists s' evs,
       run P E calls s = Done s' /\ trace s' = trace s ++ evs /\
       rebuild_follows evs /\ rebuilt_before_seeding evs) /\
  (forall time iteration niter stop_time s,
     ready P s -> can_count (amr s) ->
     sweepers s !! 0%nat <> Some None ->
     (forall j, 0 <= j <= Z.min (finest_level (amr s)) (max_level P - 1) ->
        okToRegrid E (amr s) j = false) ->
     exists s' evs,
       timeStep P E 0 time iteration niter stop_time s = Done s' /\
       trace s' = trace s ++ evs /\ existsb is_rebuild evs = false) /\
  (forall lbase time initial s,
     ready P s ->
     exists s',
       regrid P E lbase time initial s = Done s' /\
       trace s'
       = trace s ++ [EvAmrRegrid lbase (bool_decide (shape (amr s') <> shape (amr s)));
                     EvRebuild]).
Proof.
  split; [|split].
  - intros calls s Hready Hbase Hcount.
    destruct (run_spec calls s Hready Hbase Hcount) as (s' & evs & Hrun & _ & Htr & Hrf).
    exists s', evs. repeat (split; [done|]). by apply rebuild_follows_before_seeding.
  - intros time iteration niter stop_time s Hready Hcan Hsw Hidle.
    destruct (timeStep_spec P E Law time iteration niter stop_time s Hready Hcan)
      as (s_r & s_q & s' & Hprep & _ & Hstep & _ & _ & _ & _ & (a_f & Htr) & _).
    rewrite (preparing_idle P E time stop_time s Hready Hsw Hidle) in Hprep.
    injection Hprep as <-.
    eexists s', _. split; [done|]. split; [exact Htr|].
    apply existsb_none. repeat apply Forall_app_2.
    + eapply Forall_impl; [apply seed_events_quiet|]. by intros e (_ & _ & ?).
    + by repeat constructor.
    + eapply Forall_impl; [apply sweep_events_sweeps|]. by intros e (_ & _ & ?).
    + eapply Forall_impl; [apply final_events_quiet|]. by intros e (_ & _ & ?).
  - intros lbase time initial s (Hm & _ & Hs & _).
    rewrite regrid_rebuilt by done. eexists. split; [done|].
    cbn. by rewrite <- app_assoc.
Qed.

End RunClaims.

(** * The two-level hierarchy: the collaborators are lawful, the
    controller is ready *)

Section DemoFacts.
#[local] Existing Instance demo_carriers.

Lemma demo_fill_row_length (v : Z) (row : list Z) :
  length (demo_fill_row v row) = length row.
Proof. destruct row; simpl; [done|]. by rewrite length_map. Qed.

Lemma demo_fill_shape (mode : FillType) (U : MultiFab) :
  wf_mf U -> wf_mf (demo_fill mode U) /\ same_shape (demo_fill mode U) U.
Proof.
  intros HU. split.
  - unfold wf_mf, demo_fill. cbn [fabs nGrow]. apply Forall_map.
    eapply Forall_impl; [exact HU|]. intros row Hrow. cbv beta in *.
    by rewrite demo_fill_row_length.
  - unfold same_shape, nComp, demo_fill. cbn [fabs nGrow boxArray].
    by rewrite length_map.
Qed.

Lemma demo_bump_shape (U : MultiFab) :
  wf_mf U -> wf_mf (demo_bump U) /\ same_shape (demo_bump U) U.
Proof.
  intros HU. split.
  - unfold wf_mf, demo_bump. cbn [fabs nGrow]. apply Forall_map.
    eapply Forall_impl; [exact HU|]. intros row Hrow. cbv beta in *.
    by rewrite length_map.
  - unfold same_shape, nComp, demo_bump. cbn [fabs nGrow boxArray].
    by rewrite length_map.
Qed.

Lemma demo_create_shape (U : MultiFab) :
  wf_mf (demo_create (boxArray U, nGrow U, nComp U)) /\
  same_shape (demo_create (boxArray U, nGrow U, nComp U)) U.
Proof.
  split.
  - unfold wf_mf, demo_create. cbn [fabs nGrow fst snd]. apply Forall_replicate.
    apply (length_replicate (S (nGrow U)) (0 : Z)).
  - unfold same_shape, nComp, demo_create. cbn [fabs nGrow boxArray fst snd].
    by rewrite length_replicate.
Qed.

Lemma demo_lawful (due coarsen : bool) :
  Lawful demo_params (demo_externals due coarsen).
Proof.
  constructor; cbn [demo_externals Amr_regrid computeNewDt fill_boundary
                    build_encap encap_create sdc_mg_spread sdc_mg_sweep].
  - intros lbase time initial a (Hf & Hlen & Hlev).
    destruct coarsen; split; cbn; try done. cbn in Hf. split; [lia|done].
  - intros a stop_time flag. cbn. by destruct (dt_level a).
  - intros a lev U time mode. apply demo_fill_shape.
  - discriminate.
  - intros a lev L (_ & _ & Hlev) HL. unfold demo_encap.
    rewrite Nat2Z.id, HL. eapply Forall_lookup_1 in Hlev; [|exact HL].
    destruct Hlev as (Hwf & Hu). destruct (state L) as [|sd sds] eqn:Hst.
    + split; [|done]. unfold wf_mf, demo_create. by cbn.
    + destruct (demo_create_shape (new_data sd)) as (Hc1 & Hc2). split; [done|].
      apply Forall_forall. intros sd' Hsd'.
      eapply same_shape_trans; [exact Hc2|]. apply Hu.
      * apply list_elem_of_fmap_2, list_elem_of_here.
      * by apply list_elem_of_fmap_2.
  - intros a qs time dt flags Hqs. apply Forall2_fmap_l.
    apply Forall_Forall2_diag. eapply Forall_impl; [exact Hqs|].
    intros q (Hwf & Hu). cbv beta. destruct q as [|U0 q]; [constructor|].
    unfold demo_spread. apply Forall2_fmap_l, Forall_Forall2_diag.
    apply Forall_forall. intros U HU. split.
    + by apply Forall_cons_1 in Hwf as (? & _).
    + apply Hu; [apply list_elem_of_here|done].
  - intros a qs time dt flags Hqs. apply Forall2_fmap_l.
    apply Forall_Forall2_diag. eapply Forall_impl; [exact Hqs|].
    intros q (Hwf & _). cbv beta. apply Forall2_fmap_l, Forall_Forall2_diag.
    eapply Forall_impl; [exact Hwf|]. intros U HU. by apply demo_bump_shape.
Qed.

Lemma demo_level_ok (hi valid ghost : Z) : level_ok (demo_level hi valid ghost).
Proof.
  split.
  - by repeat constructor.
  - intros U V HU HV. cbn in HU, HV.
    apply list_elem_of_singleton in HU as ->. apply list_elem_of_singleton in HV as ->.
    apply same_shape_refl.
Qed.

Lemma demo_ready : ready demo_params demo_state.
Proof.
  split; [|split; [|split]].
  - split; [done|]. split; [done|]. cbn.
    apply Forall_cons_2; [apply demo_level_ok|].
    apply Forall_cons_2; [apply demo_level_ok|constructor].
  - split; [cbn; lia|]. split; [cbn; lia|done].
  - split; [cbn; lia|]. split; [cbn; lia|]. split; [cbn; lia|]. split; [done|].
    intros [|[|i]]; by cbn.
  - by left.
Qed.

Lemma demo_built_in_sync (due coarsen : bool) :
  in_sync demo_params (demo_built due coarsen).
Proof.
  destruct demo_ready as (Hm & Hc & Hs & _).
  apply rebuilt_in_sync; [apply demo_lawful|done..].
Qed.

Lemma demo_can_count : can_count demo_amr.
Proof. exists 0, 0. by repeat split. Qed.

End DemoFacts.

(** * The sentences on the two-level hierarchy *)

Section DemoClaims.
#[local] Existing Instance demo_carriers.

(** Two steps around a [Regrid], the regrids dropping the fine level; an
    idle step on built sweepers; a [Regrid]. *)
Lemma regrid_then_rebuild_witness :
  (exists s' evs,
     run demo_params (demo_externals true true)
         [Step 0 0 0 1 100; Regrid 0 5 false; Step 0 5 1 1 100] demo_state = Done s' /\
     trace s' = trace demo_state ++ evs /\
     rebuild_follows evs /\ rebuilt_before_seeding evs) /\
  (exists s' evs,
     timeStep demo_params (demo_externals false false) 0 0 0 1 100
              (demo_built false false) = Done s' /\
     trace s' = trace (demo_built false false) ++ evs /\
     existsb is_rebuild evs = false) /\
  (exists s',
     regrid demo_params (demo_externals true true) 0 5 false demo_state = Done s' /\
     trace s'
     = trace demo_state
       ++ [EvAmrRegrid 0 (bool_decide (shape (amr s') <> shape (amr demo_state)));
           EvRebuild]).
Proof.
  split; [|split].
  - apply (proj1 (regrid_then_rebuild demo_params (demo_externals true true)
                    (demo_lawful true true))).
    + exact demo_ready.
    + repeat constructor.
    + exists 0, 0. unfold INT_MIN, INT_MAX. cbn. repeat split; lia.
  - apply (proj1 (proj2 (regrid_then_rebuild demo_params (demo_externals false false)
                           (demo_lawful false false)))).
    + apply in_sync_ready, demo_built_in_sync.
    + exact demo_can_count.
    + vm_compute. discriminate.
    + intros j _. reflexivity.
  - apply (proj2 (proj2 (regrid_then_rebuild demo_params (demo_externals true true)
                           (demo_lawful true true)))).
    exact demo_ready.
Defined.

(** A regrid is due and leaves the grids as they are: the step rebuilds. *)
Lemma quiet_step_rebuilds :
  ~ quiet_step_no_rebuild demo_params (demo_externals true false) 0 0 1 100
      (demo_built true false).
Proof.
  intros H.
  assert (Ho : timeStep demo_params (demo_externals true false) 0 0 0 1 100
                 (demo_built true false) = Done demo_quiet_step)
    by (vm_compute; reflexivity).
  assert (H1 : sweepers (demo_built true false) !! 0%nat <> Some None)
    by (vm_compute; discriminate).
  assert (H2 : trace demo_quiet_step
               = trace (demo_built true false) ++ drop 1 (trace demo_quiet_step))
    by (vm_compute; reflexivity).
  assert (H3 : existsb is_change (drop 1 (trace demo_quiet_step)) = false)
    by (vm_compute; reflexivity).
  assert (H4 : existsb is_rebuild (drop 1 (trace demo_quiet_step)) = true)
    by (vm_compute; reflexivity).
  pose proof (H _ _ H1 Ho H2 H3) as H5.
  rewrite H4 in H5. discriminate.
Qed.

Lemma node_count_formula_witness :
  (exists sw, rns_sdc_build_level 1 = Done sw /\
              nnodes (nset sw) = 1 + (nnodes0 - 1) * trat ^ 1) /\
  (exists s' sw,
     rebuild_mlsdc demo_params (demo_externals false false) demo_state = Done s' /\
     sweepers s' !! Z.to_nat 1 = Some (Some sw) /\
     nnodes (nset sw) = 1 + (nnodes0 - 1) * trat ^ 1).
Proof.
  destruct (node_count_formula demo_params (demo_externals false false) 1)
    as (H1 & H2 & _); [cbn; lia|cbn; lia|].
  split; [exact H1|]. apply (H2 demo_state); [apply demo_ready..|cbn; lia].
Defined.



(** The constructor of the specification's scenario: [max_level = 1] and a
    blocking factor of [2] at level [1]; the same factors with
    [max_level = 0]; and blocking factors of [8]. *)
Lemma blocking_factor_gate_witness :
  SDCAmr_new {| max_level := 1; blockingFactor := fun i => if i =? 1 then 2 else 8;
                ndebug := true |} demo_inputs demo_amr
  = Aborted "For AMR runs, set blocking_factor to at least 4." /\
  (exists s, SDCAmr_new demo_params demo_inputs demo_amr = Done s /\
             trace s = [] /\ amr s = demo_amr) /\
  (exists s, SDCAmr_new {| max_level := 0; blockingFactor := fun _ => 2; ndebug := true |}
                        demo_inputs demo_amr = Done s /\
             trace s = [] /\ amr s = demo_amr).
Proof.
  split; [|split].
  - apply (proj1 (blocking_factor_gate _ demo_inputs demo_amr)); [cbn; lia|].
    exists 1. cbn. lia.
  - apply (proj1 (proj2 (blocking_factor_gate demo_params demo_inputs demo_amr)));
      [cbn; lia|]. intros i _. cbn. lia.
  - apply (proj2 (proj2 (blocking_factor_gate _ demo_inputs demo_amr))). reflexivity.
Defined.

Lemma rebuild_twice_witness :
  exists s1 s2,
    rebuild_mlsdc demo_params (demo_externals false false) demo_state = Done s1 /\
    rebuild_mlsdc demo_params (demo_externals false false) s1 = Done s2 /\
    nlevels (mg s2) = nlevels (mg s1) /\
    sweepers s2 = sweepers s1.
Proof.
  destruct (rebuild_twice demo_params (demo_externals false false) demo_state)
    as (s1 & s2 & H1 & H2 & H3 & _ & _ & H4 & _); [apply demo_ready..|].
  exists s1, s2. repeat split; assumption.
Defined.

(** After a step on two levels the counters of level 1 are still zero. *)
Lemma fine_counters_not_incremented :
  ~ counters_of_every_level demo_params (demo_externals false false) 0 0 1 100 demo_state.
Proof.
  intros H.
  assert (Ho : timeStep demo_params (demo_externals false false) 0 0 0 1 100 demo_state
               = Done demo_stepped)
    by (vm_compute; reflexivity).
  assert (H1 : 0 <= 1 <= finest_level (amr demo_stepped))
    by (vm_compute; split; discriminate).
  assert (H2 : lookupZ (level_steps (amr demo_state)) 1 = Done 0)
    by (vm_compute; reflexivity).
  assert (H3 : lookupZ (level_count (amr demo_state)) 1 = Done 0)
    by (vm_compute; reflexivity).
  assert (H4 : lookupZ (level_steps (amr demo_stepped)) 1 = Done 0)
    by (vm_compute; reflexivity).
  destruct (H _ Ho 1 0 0 H1 H2 H3) as (H5 & _).
  rewrite H4 in H5. discriminate.
Qed.


End DemoClaims.

(** * Further properties of the controller *)

(** ** Loops, partially *)

(** A loop whose iterations keep [Inv] and never abort keeps [Inv] and
    never aborts. *)
Lemma forM_keeps {A St : Type} (body : A -> St -> outcome St) (Inv : St -> Prop)
    (l : list A) (s : St) :
  (forall x s, Inv s -> match body x s with
                        | Done s' => Inv s'
                        | Aborted _ => False
                        | Undefined => True
                        end) ->
  Inv s ->
  match forM body l s with
  | Done s' => Inv s'
  | Aborted _ => False
  | Undefined => True
  end.
Proof.
  intros Hbody. revert s. induction l as [|x l IH]; intros s Hs; simpl; [done|].
  specialize (Hbody x s Hs). destruct (body x s) as [s1| |]; simpl; [|done..].
  by apply IH.
Qed.

(** What every iteration leaves alone, the loop leaves alone. *)
Lemma forM_preserves {A St B : Type} (f : St -> B) (body : A -> St -> outcome St)
    (l : list A) (s s' : St) :
  (forall x s s', body x s = Done s' -> f s' = f s) ->
  forM body l s = Done s' -> f s' = f s.
Proof.
  intros Hbody. revert s. induction l as [|x l IH]; intros s; simpl.
  - by intros [= ->].
  - intros H. apply bind_Done in H as (s1 & H1 & H2).
    rewrite (IH _ H2). by eapply Hbody.
Qed.

Lemma forM_app {A St : Type} (body : A -> St -> outcome St) (l1 l2 : list A) (s : St) :
  forM body (l1 ++ l2) s = bind (forM body l1 s) (forM body l2).
Proof.
  revert s. induction l1 as [|x l1 IH]; intros s; simpl; [done|].
  destruct (body x s) as [s1| |]; simpl; [apply IH|done..].
Qed.

(** ** The sweeper builder and the rebuild *)

Section RebuildMore.
Context `{Car : Carriers}.
Variable P : AmrParams.
Variable E : Externals.

(** X1.  [rns_sdc_build_level] returns a sweeper exactly for the levels up
    to [29]: from level [30] on, the node count [1 + 2 * 2 ^ lev] does not
    fit a C [int] and the call has no defined result.  Below level [0] the
    power truncates to zero and the sweeper has one node. *)
Theorem build_level_int_range (lev : Z) :
  ((exists sw, rns_sdc_build_level lev = Done sw) <-> lev <= 29) /\
  (rns_sdc_build_level lev = Undefined <-> 30 <= lev) /\
  (forall sw, rns_sdc_build_level lev = Done sw ->
     nnodes (nset sw) = if lev <? 0 then 1 else nnodes_of lev).
Proof.
  assert (Hlow : lev < 0 ->
    rns_sdc_build_level lev
    = Done (sdc_hooks_add SDC_HOOK_POST_STEP (sdc_imex_create 1 SDC_GAUSS_LOBATTO))).
  { intros H. unfold rns_sdc_build_level, int_pow.
    destruct (Z.ltb_spec lev 0); [done|lia]. }
  assert (Hhigh : 30 <= lev -> rns_sdc_build_level lev = Undefined).
  { intros H. unfold rns_sdc_build_level, int_pow, nnodes0, trat.
    destruct (Z.ltb_spec lev 0); [lia|].
    assert (Hp : 2 ^ 30 <= 2 ^ lev) by (apply Z.pow_le_mono_r; lia).
    change (2 ^ 30) with 1073741824 in Hp.
    unfold int_of at 1, INT_MIN, INT_MAX.
    destruct (Z.leb_spec (-2147483648) (2 ^ lev)); [|lia].
    destruct (Z.leb_spec (2 ^ lev) 2147483647); [|done]. cbn [andb bind].
    unfold int_of at 1, INT_MIN, INT_MAX.
    destruct (Z.leb_spec ((3 - 1) * 2 ^ lev) 2147483647); [lia|].
    by rewrite andb_false_r. }
  destruct (Z.lt_ge_cases lev 0) as [Hneg|Hpos];
    [|destruct (Z.le_gt_cases lev 29) as [Hle|Hgt]].
  - rewrite (Hlow Hneg). destruct (Z.ltb_spec lev 0); [|lia].
    split; [split; [lia|eauto]|]. split; [split; [discriminate|lia]|].
    by intros sw [= <-].
  - rewrite rns_sdc_build_level_Done by lia. destruct (Z.ltb_spec lev 0); [lia|].
    split; [split; [lia|eauto]|]. split; [split; [discriminate|lia]|].
    by intros sw [= <-].
  - rewrite Hhigh by lia.
    split; [split; [by intros (sw & ?)|lia]|]. split; [split; [lia|done]|].
    discriminate.
Qed.

(** X2.  After [rebuild_mlsdc] the vector of sweepers holds an object
    exactly where a level exists: up to [finest_level] the slot holds a
    sweeper whose context is its own level and whose encapsulation is the
    level's new one, and the orchestrator's entry for the level points to
    it; above [finest_level], up to [max_level], the sweeper's slot is
    [NULL], whatever it held before, while the slot of [encaps] holds the
    pointer that it held before the call: the first loop deletes the object
    and resets [sweepers[lev]] only.  The orchestrator has
    [finest_level + 1] levels and the mesh data are as they were. *)
Theorem rebuild_drops_levels_above_finest (s : SDCAmr) :
  mesh_ok P (amr s) -> slots_ok P s ->
  exists s',
    rebuild_mlsdc P E s = Done s' /\
    amr s' = amr s /\
    nlevels (mg s') = finest_level (amr s) + 1 /\
    (forall lev, 0 <= lev <= finest_level (amr s) ->
       exists sw e,
         lookupZ (sweepers s') lev = Done (Some sw) /\
         lookupZ (encaps s') lev = Done (Some e) /\
         e = build_encap E (amr s) lev /\
         encap (nset sw) = Some e /\ ctx (nset sw) = Some lev /\
         mg_sweeper s' lev = Done (lev, sw)) /\
    (forall lev, finest_level (amr s) < lev <= max_level P ->
       lookupZ (sweepers s') lev = Done None /\
       lookupZ (encaps s') lev = lookupZ (encaps s) lev).
Proof.
  intros Hm Hs. pose proof Hm as (Hf & _).
  exists (rebuilt P E s). split; [by apply rebuild_mlsdc_rebuilt|].
  split; [done|]. split; [|split].
  - unfold nlevels. cbn [rebuilt mg mg_sweepers]. rewrite length_seqZ. lia.
  - intros lev Hlev. exists (built E (amr s) lev), (build_encap E (amr s) lev).
    assert (Hsw : sweepers (rebuilt P E s) !! Z.to_nat lev
                  = Some (Some (built E (amr s) lev))).
    { cbn [rebuilt sweepers]. rewrite slots_lookup_lt by lia.
      by rewrite Z2Nat.id by lia. }
    split; [apply lookupZ_Some; [lia|exact Hsw]|]. split.
    { apply lookupZ_Some; [lia|]. cbn [rebuilt encaps].
      rewrite refill_lookup_lt by lia. by rewrite Z2Nat.id by lia. }
    split; [done|]. split; [done|]. split; [done|].
    by apply mg_sweeper_synced.
  - intros lev Hlev. split.
    + apply lookupZ_Some; [lia|]. cbn [rebuilt sweepers].
      apply slots_lookup_ge; lia.
    + unfold lookupZ. cbn [rebuilt encaps]. by rewrite refill_lookup_ge by lia.
Qed.

(** X3.  [rebuild_mlsdc] allocates the node storage anew: at every level
    up to [finest_level] each of the level's [1 + 2 * 2 ^ lev] nodes is the
    field that the level's fresh encapsulation creates, and there is no
    node beyond them; nothing of what the nodes held before the rebuild is
    left. *)
Theorem rebuild_allocates_fresh_nodes (s : SDCAmr) :
  mesh_ok P (amr s) -> slots_ok P s ->
  exists s',
    rebuild_mlsdc P E s = Done s' /\
    forall lev, 0 <= lev <= finest_level (amr s) ->
      (forall m, 0 <= m < nnodes_of lev ->
         node s' lev m = Done (encap_create E (build_encap E (amr s) lev))) /\
      node s' lev (nnodes_of lev) = Undefined /\
      last_node s' lev = Done (encap_create E (build_encap E (amr s) lev)).
Proof.
  intros Hm Hs. pose proof Hm as (Hf & _).
  exists (rebuilt P E s). split; [by apply rebuild_mlsdc_rebuilt|].
  intros lev Hlev.
  assert (Hsw : sweepers (rebuilt P E s) !! Z.to_nat lev
                = Some (Some (built E (amr s) lev))).
  { cbn [rebuilt sweepers]. rewrite slots_lookup_lt by lia.
    by rewrite Z2Nat.id by lia. }
  assert (Hmg : mg_sweeper (rebuilt P E s) lev = Done (lev, built E (amr s) lev))
    by (by apply mg_sweeper_synced).
  pose proof (nnodes_of_ge lev ltac:(lia)) as Hn.
  unfold node, last_node. rewrite Hmg. cbn [bind built nset Q nnodes].
  split; [|split].
  - intros m Hmn. apply lookupZ_Some; [lia|]. apply lookup_replicate_2. lia.
  - unfold lookupZ. destruct (Z.ltb_spec (nnodes_of lev) 0); [done|].
    destruct (replicate _ _ !! _) as [U|] eqn:HU; [|done].
    apply lookup_replicate in HU. lia.
  - apply lookupZ_Some; [lia|]. apply lookup_replicate_2. lia.
Qed.

(** Neither loop of [rebuild_mlsdc] aborts, and both keep the size of the
    vector of encapsulations. *)
Lemma destroy_level_keeps (n : nat) (lev : Z) (s : SDCAmr) :
  length (encaps s) = n ->
  match destroy_level lev s with
  | Done s' => length (encaps s') = n /\ amr s' = amr s
  | Aborted _ => False
  | Undefined => True
  end.
Proof.
  intros Hn. unfold destroy_level, lookupZ, updateZ.
  repeat (case_match; cbn [bind] in *; simplify_eq); done.
Qed.

Lemma build_level_keeps (n : nat) (lev : Z) (s : SDCAmr) :
  length (encaps s) = n ->
  match build_level E lev s with
  | Done s' => length (encaps s') = n
  | Aborted _ => False
  | Undefined => True
  end.
Proof.
  intros Hn.
  unfold build_level, rns_sdc_build_level, int_pow, int_of, sdc_mg_add_level,
    getLevel, lookupZ, updateZ.
  repeat (case_match; cbn [bind] in *; simplify_eq); try done.
  all: cbn; by rewrite length_insert.
Qed.

(** X4.  A hierarchy with more levels than the constructor sized the
    vectors for cannot be rebuilt: with [finest_level > max_level],
    [rebuild_mlsdc] writes past the end of [encaps], which has no defined
    behaviour. *)
Theorem rebuild_beyond_max_level (s : SDCAmr) :
  Z.of_nat (length (encaps s)) = max_level P + 1 ->
  max_level P < finest_level (amr s) ->
  rebuild_mlsdc P E s = Undefined.
Proof.
  intros Hlen Hfin. unfold rebuild_mlsdc.
  destruct (Z.ltb_spec (max_level P) 0) as [|HM]; [done|].
  set (n := length (encaps s)).
  pose proof (forM_keeps destroy_level
                (fun s1 => length (encaps s1) = n /\ amr s1 = amr s)
                (seqZ 0 (max_level P + 1)) (set_mg (sdc_mg_reset (mg s)) s)) as Hd.
  cbv beta in Hd.
  assert (Hd' := fun H => Hd H (conj eq_refl eq_refl)). clear Hd.
  destruct (forM destroy_level _ _) as [s1| |]; cbn [bind]; [| |done].
  2:{ exfalso. apply Hd'. intros lev s0 (H1 & H2).
      pose proof (destroy_level_keeps n lev s0 H1) as Hk.
      destruct (destroy_level lev s0) as [s'| |]; [|done..].
      destruct Hk as (? & ?). split; congruence. }
  destruct Hd' as (Hn1 & Ha1).
  { intros lev s0 (H1 & H2).
    pose proof (destroy_level_keeps n lev s0 H1) as Hk.
    destruct (destroy_level lev s0) as [s'| |]; [|done..].
    destruct Hk as (? & ?). split; congruence. }
  rewrite Ha1. cbn [amr set_mg].
  replace (finest_level (amr s) + 1)
    with ((max_level P + 1) + (finest_level (amr s) - max_level P)) by lia.
  rewrite seqZ_app by lia. rewrite forM_app.
  pose proof (forM_keeps (build_level E) (fun s2 => length (encaps s2) = n)
                (seqZ 0 (max_level P + 1)) s1) as Hb.
  cbv beta in Hb.
  assert (Hb' := Hb (fun lev s0 => build_level_keeps n lev s0) Hn1). clear Hb.
  destruct (forM (build_level E) (seqZ 0 (max_level P + 1)) s1) as [s2| |];
    cbn [bind]; [|done..].
  rewrite seqZ_cons by lia. cbn [forM].
  unfold build_level at 1, updateZ.
  destruct (Z.ltb_spec (0 + (max_level P + 1)) 0); [done|].
  destruct (Z.leb_spec (Z.of_nat (length (encaps s2))) (0 + (max_level P + 1)));
    [done|]. unfold n in Hb'. lia.
Qed.

End RebuildMore.

(** ** The regrid loop, level by level *)

Section RegridMore.
Context `{Car : Carriers}.
Variable P : AmrParams.
Variable E : Externals.
Hypothesis Law : Lawful P E.

Lemma regrid_levels_quiet (l : list Event) :
  Forall (fun e => is_regrid e = false) l -> regrid_levels l = [].
Proof.
  induction 1 as [|e l He _ IH]; [done|].
  unfold regrid_levels in *. destruct e; try discriminate; exact IH.
Qed.

(** A strictly increasing list of integers of an interval is no longer
    than the interval. *)
Lemma increasing_length (l : list Z) (lo hi : Z) :
  StronglySorted Z.lt l -> Forall (fun x => lo <= x <= hi) l ->
  Z.of_nat (length l) <= Z.max 0 (hi - lo + 1).
Proof.
  revert lo. induction l as [|x l IH]; intros lo Hs Hb; simpl; [lia|].
  apply StronglySorted_inv in Hs as (Hs & Hx).
  apply Forall_cons_1 in Hb as (Hxb & Hb).
  specialize (IH (x + 1) Hs).
  assert (Hb' : Forall (fun y => x + 1 <= y <= hi) l).
  { rewrite Forall_forall in Hx, Hb. apply Forall_forall. intros y Hy.
    specialize (Hx y Hy). specialize (Hb y Hy). lia. }
  specialize (IH Hb'). lia.
Qed.

(** A due regrid of the loop: the mesh regrid from base level [i], the
    rebuild, and the sub-step counters from [i] to the new finest level
    back at zero. *)
Lemma regrid_body_due (time stop_time : Real) (i : Z) (s : SDCAmr) :
  in_sync P s -> 0 <= i -> okToRegrid E (amr s) i = true ->
  exists s' changed,
    regrid_body P E time stop_time i s = Done s' /\
    in_sync P s' /\
    trace s' = trace s ++ [EvAmrRegrid i changed; EvRebuild] /\
    (forall j : nat,
       level_count (amr s') !! j
       = if decide (i <= Z.of_nat j <= finest_level (amr s')) then Some 0
         else level_count (amr s) !! j).
Proof.
  intros Hsync Hi Hok.
  destruct (regrid_body_spec P E time stop_time i s Law Hsync Hi)
    as (s0 & Hb0 & Hs0 & _).
  pose proof Hsync as (Hm & Hc & Hs & _).
  revert Hb0. unfold regrid_body. rewrite Hok.
  rewrite regrid_rebuilt by done. cbn [bind].
  set (a := set_mesh (Amr_regrid E i time false (amr s)) (amr s)).
  set (ev := EvAmrRegrid i (bool_decide (shape a <> shape (amr s)))).
  assert (Hma : mesh_ok P a) by exact (regrid_mesh_ok P E Law i time false (amr s) Hm).
  destruct Hc as (Hc1 & Hc2 & Hc3).
  destruct (reset_counts (level_count (amr s)) i (finest_level a))
    as (lc' & Hlc & Hlen & Hlk).
  { lia. } { destruct Hma as (? & _). lia. }
  cbn [amr set_amr set_dt finest_level level_count rebuilt log set_mesh a] in *.
  rewrite Hlc. cbn [bind]. intros [= <-].
  eexists _, _. split; [done|]. split; [exact Hs0|]. split.
  - cbn [trace set_amr rebuilt log]. by rewrite <- app_assoc.
  - intros j. cbn [amr set_amr set_level_count level_count finest_level]. apply Hlk.
Qed.

(** The loop regrids from strictly increasing base levels, none below its
    first level and none above [max_level - 1]; once the sub-step counters
    of the hierarchy are all zero they stay so. *)
Lemma regrid_loop_levels (n : nat) (time stop_time : Real) (i lev_top : Z) (s : SDCAmr) :
  in_sync P s -> 0 <= i ->
  lev_top <= max_level P - 1 -> lev_top <= finest_level (amr s) ->
  exists s' evs,
    regrid_loop P E n time stop_time i lev_top s = Done s' /\
    in_sync P s' /\
    trace s' = trace s ++ evs /\
    regrid_trace evs /\
    Forall (fun l => i <= l <= max_level P - 1) (regrid_levels evs) /\
    StronglySorted Z.lt (regrid_levels evs) /\
    ((forall j : nat, Z.of_nat j <= finest_level (amr s) ->
        level_count (amr s) !! j = Some 0) ->
     forall j : nat, Z.of_nat j <= finest_level (amr s') ->
       level_count (amr s') !! j = Some 0).
Proof.
  revert i lev_top s.
  induction n as [|n IH]; intros i lev_top s Hsync Hi Htop Hfin; simpl.
  { exists s, []. rewrite app_nil_r. split; [done|]. split; [done|].
      split; [done|]. split; [constructor|]. split; [constructor|].
      split; [constructor|done]. }
  destruct (Z.leb_spec i lev_top).
  2:{ exists s, []. rewrite app_nil_r. split; [done|]. split; [done|].
      split; [done|]. split; [constructor|]. split; [constructor|].
      split; [constructor|done]. }
  destruct (okToRegrid E (amr s) i) eqn:Hok.
  - destruct (regrid_body_due time stop_time i s Hsync Hi Hok)
      as (s1 & changed & Hb & Hs1 & Htr1 & Hlc1).
    rewrite Hb. cbn [bind].
    pose proof Hs1 as ((Hf1 & _) & _).
    match goal with |- context [regrid_loop _ _ _ _ _ _ ?lt _] =>
      destruct (IH (i + 1) lt s1 Hs1 ltac:(lia))
        as (s2 & evs2 & Hl & Hs2 & Htr2 & Hrt2 & Hb2 & Hso2 & Hz2)
    end.
    { destruct (_ <? _); lia. }
    { destruct (Z.ltb_spec (finest_level (amr s1)) (finest_level (amr s))); lia. }
    exists s2, ([EvAmrRegrid i changed; EvRebuild] ++ evs2).
    split; [done|]. split; [done|].
    split; [by rewrite Htr2, Htr1, <- app_assoc|].
    split; [by constructor|].
    change (regrid_levels ([EvAmrRegrid i changed; EvRebuild] ++ evs2))
      with (i :: regrid_levels evs2).
    split; [|split].
    + constructor; [lia|]. eapply Forall_impl; [exact Hb2|]. cbn beta. lia.
    + constructor; [done|]. eapply Forall_impl; [exact Hb2|]. cbn beta. lia.
    + intros Hz. apply Hz2. intros j Hj. rewrite Hlc1.
      destruct (decide _); [done|]. apply Hz. lia.
  - assert (Hb : regrid_body P E time stop_time i s = Done s).
    { unfold regrid_body. by rewrite Hok. }
    rewrite Hb. cbn [bind]. rewrite Z.ltb_irrefl.
    destruct (IH (i + 1) lev_top s Hsync ltac:(lia) Htop Hfin)
      as (s2 & evs2 & Hl & Hs2 & Htr2 & Hrt2 & Hb2 & Hso2 & Hz2).
    exists s2, evs2. split; [done|]. split; [done|]. split; [done|].
    split; [done|]. split; [|done]. eapply Forall_impl; [exact Hb2|]. cbn beta. lia.
Qed.

(** The step up to the seeding: a first build when there are no sweepers,
    then the regrids of the loop. *)
Lemma preparing_levels (time stop_time : Real) (s : SDCAmr) :
  ready P s ->
  exists s_r evs,
    preparing P E 0 time stop_time s = Done s_r /\
    in_sync P s_r /\
    trace s_r = trace s
                ++ (match sweepers s !! 0%nat with Some None => [EvRebuild] | _ => [] end)
                ++ evs /\
    regrid_trace evs /\
    Forall (fun l => 0 <= l <= max_level P - 1) (regrid_levels evs) /\
    StronglySorted Z.lt (regrid_levels evs) /\
    (1 <= max_level P -> okToRegrid E (amr s) 0 = true ->
     forall j : nat, Z.of_nat j <= finest_level (amr s_r) ->
       level_count (amr s_r) !! j = Some 0).
Proof.
  intros (Hm & Hc & Hs & Hor). unfold preparing.
  rewrite andb_false_r.
  pose proof Hs as (_ & Hls & _). pose proof Hm as (Hf & _).
  assert (Hlt : (0 < length (sweepers s))%nat) by lia.
  destruct (lookup_lt_is_Some_2 _ _ Hlt) as [o Ho].
  rewrite (lookupZ_Some _ 0 o) by done. cbn [bind].
  assert (Hb : exists s1,
    match o with None => rebuild_mlsdc P E s | Some _ => Done s end = Done s1 /\
    in_sync P s1 /\ amr s1 = amr s /\
    trace s1 = trace s
               ++ (match sweepers s !! 0%nat with Some None => [EvRebuild] | _ => [] end)).
  { rewrite Ho. destruct o as [sw|].
    - exists s. split; [done|]. destruct Hor as [Hor|Hor]; [congruence|].
      split; [done|]. split; [done|]. by rewrite app_nil_r.
    - exists (rebuilt P E s). split; [by apply rebuild_mlsdc_rebuilt|].
      split; [by apply rebuilt_in_sync|]. done. }
  destruct Hb as (s1 & -> & Hs1 & Ha1 & Htr1). cbn [bind].
  unfold regridding. rewrite Ha1.
  set (lt := Z.min (finest_level (amr s)) (max_level P - 1)).
  set (n := Z.to_nat (max_level P - 0)).
  destruct (regrid_loop_levels n time stop_time 0 lt s1 Hs1 ltac:(lia))
    as (s2 & evs & Hl & Hs2 & Htr2 & Hrt2 & Hb2 & Hso2 & _); [lia|rewrite Ha1; lia|].
  exists s2, evs. split; [done|]. split; [done|].
  split; [by rewrite Htr2, Htr1, <- app_assoc|]. split; [done|].
  split; [done|]. split; [done|].
  intros HM Hok.
  assert (Hn : n = S (Z.to_nat (max_level P - 1))) by lia.
  revert Hl. rewrite Hn. cbn [regrid_loop].
  destruct (Z.leb_spec 0 lt); [|lia].
  rewrite <- Ha1 in Hok.
  destruct (regrid_body_due time stop_time 0 s1 Hs1 ltac:(lia) Hok)
    as (s3 & changed & Hb3 & Hs3 & Htr3 & Hlc3).
  rewrite Hb3. cbn [bind].
  pose proof Hs3 as ((Hf3 & _) & _).
  match goal with |- context [regrid_loop _ _ _ _ _ _ ?lt' _] =>
    destruct (regrid_loop_levels (Z.to_nat (max_level P - 1)) time stop_time
                (0 + 1) lt' s3 Hs3 ltac:(lia))
      as (s4 & evs4 & Hl4 & _ & _ & _ & _ & _ & Hz4)
  end.
  { destruct (_ <? _); lia. }
  { rewrite Ha1. destruct (Z.ltb_spec (finest_level (amr s3)) (finest_level (amr s))); lia. }
  rewrite Hl4. intros [= <-]. apply Hz4.
  intros j Hj. rewrite Hlc3. destruct (decide _); [done|lia].
Qed.

(** The sub-step counters through the loop: a counter changes only by a
    reset to zero, and only when the loop regrids from a base level at or
    below its level; the counter of the base level is reset exactly when
    the loop regrids from the base level. *)
Lemma regrid_loop_counts (n : nat) (time stop_time : Real) (i lev_top : Z) (s : SDCAmr) :
  in_sync P s -> 0 <= i ->
  exists s' evs,
    regrid_loop P E n time stop_time i lev_top s = Done s' /\
    trace s' = trace s ++ evs /\
    Forall (fun l => i <= l) (regrid_levels evs) /\
    (forall j : nat, Z.of_nat j < i ->
       level_count (amr s') !! j = level_count (amr s) !! j) /\
    (forall j : nat,
       level_count (amr s') !! j = level_count (amr s) !! j \/
       (level_count (amr s') !! j = Some 0 /\
        exists l, l ∈ regrid_levels evs /\ l <= Z.of_nat j)) /\
    (i ∉ regrid_levels evs ->
       level_count (amr s') !! Z.to_nat i = level_count (amr s) !! Z.to_nat i) /\
    (i = 0 -> i ∈ regrid_levels evs -> level_count (amr s') !! 0%nat = Some 0).
Proof.
  revert i lev_top s.
  induction n as [|n IH]; intros i lev_top s Hsync Hi; simpl.
  { exists s, []. rewrite app_nil_r. split; [done|]. split; [done|].
    split; [constructor|]. split; [done|]. split; [by left|]. split; [done|].
    intros _ Hin. by apply elem_of_nil in Hin. }
  destruct (Z.leb_spec i lev_top).
  2:{ exists s, []. rewrite app_nil_r. split; [done|]. split; [done|].
      split; [constructor|]. split; [done|]. split; [by left|]. split; [done|].
      intros _ Hin. by apply elem_of_nil in Hin. }
  destruct (okToRegrid E (amr s) i) eqn:Hok.
  - destruct (regrid_body_due time stop_time i s Hsync Hi Hok)
      as (s1 & changed & Hb & Hs1 & Htr1 & Hlc1).
    rewrite Hb. cbn [bind].
    pose proof Hs1 as ((Hf1 & _) & _).
    match goal with |- context [regrid_loop _ _ _ _ _ _ ?lt _] =>
      destruct (IH (i + 1) lt s1 Hs1 ltac:(lia))
        as (s2 & evs2 & Hl & Htr2 & Hb2 & Hlt2 & Hany2 & _ & _)
    end.
    exists s2, ([EvAmrRegrid i changed; EvRebuild] ++ evs2).
    split; [done|]. split; [by rewrite Htr2, Htr1, <- app_assoc|].
    change (regrid_levels ([EvAmrRegrid i changed; EvRebuild] ++ evs2))
      with (i :: regrid_levels evs2).
    split; [|split; [|split; [|split]]].
    + constructor; [lia|]. eapply Forall_impl; [exact Hb2|]. cbn beta. lia.
    + intros j Hj. rewrite Hlt2 by lia. rewrite Hlc1.
      destruct (decide _); [lia|done].
    + intros j. destruct (Hany2 j) as [H2|(H2 & l & Hl2 & Hle)].
      * rewrite H2, Hlc1. destruct (decide _) as [Hd|Hd]; [|by left].
        right. split; [done|]. exists i. split; [left|lia].
      * right. split; [done|]. exists l. split; [by right|done].
    + intros Hnin. exfalso. apply Hnin. left.
    + intros -> _. rewrite (Hlt2 0%nat) by lia. rewrite Hlc1.
      destruct (decide _) as [|Hd]; [done|]. exfalso. apply Hd.
      change (Z.of_nat 0) with 0. lia.
  - assert (Hb : regrid_body P E time stop_time i s = Done s).
    { unfold regrid_body. by rewrite Hok. }
    rewrite Hb. cbn [bind]. rewrite Z.ltb_irrefl.
    destruct (IH (i + 1) lev_top s Hsync ltac:(lia))
      as (s2 & evs2 & Hl & Htr2 & Hb2 & Hlt2 & Hany2 & _ & _).
    exists s2, evs2. split; [done|]. split; [done|].
    split; [|split; [|split; [|split]]].
    + eapply Forall_impl; [exact Hb2|]. cbn beta. lia.
    + intros j Hj. apply Hlt2. lia.
    + done.
    + intros _. apply Hlt2. lia.
    + intros _ Hin. exfalso.
      pose proof (proj1 (Forall_forall _ _) Hb2 i Hin) as Hle. cbn beta in Hle. lia.
Qed.

(** The step up to the seeding and the sub-step counters.  When none of
    the levels that the loop visits is due, the mesh data are left as they
    are. *)
Lemma preparing_counts (time stop_time : Real) (s : SDCAmr) :
  ready P s ->
  exists s_r evs,
    preparing P E 0 time stop_time s = Done s_r /\
    trace s_r = trace s ++ evs /\
    (forall j : nat,
       level_count (amr s_r) !! j = level_count (amr s) !! j \/
       (level_count (amr s_r) !! j = Some 0 /\
        exists l, l ∈ regrid_levels evs /\ l <= Z.of_nat j)) /\
    level_count (amr s_r) !! 0%nat
    = (if bool_decide (0 ∈ regrid_levels evs) then Some 0
       else level_count (amr s) !! 0%nat) /\
    ((forall j, 0 <= j <= Z.min (finest_level (amr s)) (max_level P - 1) ->
        okToRegrid E (amr s) j = false) ->
     amr s_r = amr s /\ regrid_levels evs = []).
Proof.
  intros (Hm & Hc & Hs & Hor). unfold preparing.
  rewrite andb_false_r.
  pose proof Hs as (_ & Hls & _). pose proof Hm as (Hf & _).
  assert (Hlt : (0 < length (sweepers s))%nat) by lia.
  destruct (lookup_lt_is_Some_2 _ _ Hlt) as [o Ho].
  rewrite (lookupZ_Some _ 0 o) by done. cbn [bind].
  assert (Hb : exists s1 r,
    match o with None => rebuild_mlsdc P E s | Some _ => Done s end = Done s1 /\
    in_sync P s1 /\ amr s1 = amr s /\
    trace s1 = trace s ++ r /\ forall evs, regrid_levels (r ++ evs) = regrid_levels evs).
  { destruct o as [sw|].
    - exists s, []. split; [done|]. destruct Hor as [Hor|Hor]; [congruence|].
      split; [done|]. split; [done|]. by rewrite app_nil_r.
    - exists (rebuilt P E s), [EvRebuild]. split; [by apply rebuild_mlsdc_rebuilt|].
      split; [by apply rebuilt_in_sync|]. done. }
  destruct Hb as (s1 & r & -> & Hs1 & Ha1 & Htr1 & Hr). cbn [bind].
  unfold regridding. rewrite Ha1.
  set (lt := Z.min (finest_level (amr s)) (max_level P - 1)).
  set (n := Z.to_nat (max_level P - 0)).
  destruct (regrid_loop_counts n time stop_time 0 lt s1 Hs1 ltac:(lia))
    as (s2 & evs & Hl & Htr2 & _ & _ & Hany & Hnin & Hin).
  exists s2, (r ++ evs). split; [done|].
  split; [by rewrite Htr2, Htr1, <- app_assoc|]. rewrite Hr, <- Ha1.
  split; [done|]. split.
  - destruct (bool_decide_reflect (0 ∈ regrid_levels evs)) as [Hd|Hd].
    + by apply Hin.
    + by apply Hnin.
  - intros Hidle.
    assert (Hq : regrid_loop P E n time stop_time 0 lt s1 = Done s1).
    { apply regrid_loop_idle. exact Hidle. }
    rewrite Hq in Hl. injection Hl as <-. split; [done|].
    assert (He : evs = []).
    { apply (app_inv_head (trace s1)). by rewrite app_nil_r. }
    by rewrite He.
Qed.

End RegridMore.

(** ** What the phases of a step leave alone *)

Section Frames.
Context `{Car : Carriers}.
Variable P : AmrParams.
Variable E : Externals.

Lemma times_set_new_data (U : MultiFab) (lev : Z) (st : nat) (a : Amr) :
  times (alter_state (set_new_data U) lev st a) = times a.
Proof.
  unfold times, alter_state. cbn [amr_level].
  rewrite (list_fmap_alter _ _ id); [by rewrite list_alter_id|].
  apply Forall_true. intros L. cbn [state].
  rewrite (list_fmap_alter _ _ id); [by rewrite list_alter_id|].
  by apply Forall_true.
Qed.

Lemma times_setTimeLevel (x y z : Real) (lev : Z) (st : nat) (a : Amr) :
  times (alter_state (setTimeLevel x y z) lev st a)
  = alter (alter (fun _ => Some (x, y, z)) st) (Z.to_nat lev) (times a).
Proof.
  unfold times, alter_state. cbn [amr_level].
  apply list_fmap_alter. apply Forall_true. intros L. cbn [state].
  apply list_fmap_alter. by apply Forall_true.
Qed.

Lemma nstates_times (a : Amr) (lev : Z) :
  nstates a lev = from_option length O (times a !! Z.to_nat lev).
Proof.
  unfold nstates, times. rewrite list_lookup_fmap.
  destruct (amr_level a !! Z.to_nat lev); cbn; [|done]. by rewrite length_fmap.
Qed.

(** The histories of seeding and of the copy back depend on the number of
    levels and of states only. *)
Lemma events_layout (a a' : Amr) :
  finest_level a' = finest_level a -> length <$> times a' = length <$> times a ->
  seed_events a' = seed_events a /\ final_events a' = final_events a.
Proof.
  intros Hf Hl.
  assert (Hn : forall lev, nstates a' lev = nstates a lev).
  { intros lev. rewrite !nstates_times.
    assert (H : (length <$> times a') !! Z.to_nat lev
                = (length <$> times a) !! Z.to_nat lev) by (by rewrite Hl).
    rewrite !list_lookup_fmap in H.
    destruct (times a' !! _), (times a !! _); cbn in *; congruence. }
  unfold seed_events, final_events. rewrite Hf. split.
  - apply list_bind_ext; [|done]. intros lev. by rewrite Hn.
  - apply list_bind_ext; [|done]. intros lev. by rewrite Hn.
Qed.

Lemma seed_state_frame (time : Real) (lev : Z) (st : nat) (s s' : SDCAmr) :
  seed_state P E time lev st s = Done s' ->
  finest_level (amr s') = finest_level (amr s) /\
  dt_level (amr s') = dt_level (amr s) /\
  times (amr s') = times (amr s).
Proof.
  unfold seed_state. intros H.
  repeat (apply bind_Done in H as (? & _ & H)).
  destruct x1 as (p & sw).
  repeat (apply bind_Done in H as (? & _ & H)).
  destruct (_ && _); [discriminate|]. injection H as <-.
  cbn [amr log alter_sweeper set_sweepers set_amr].
  rewrite times_set_new_data. done.
Qed.

Lemma seeding_frame (time : Real) (s s' : SDCAmr) :
  seeding P E time s = Done s' ->
  finest_level (amr s') = finest_level (amr s) /\
  dt_level (amr s') = dt_level (amr s) /\
  times (amr s') = times (amr s).
Proof.
  unfold seeding. intros H.
  apply (forM_preserves
    (fun s => (finest_level (amr s), dt_level (amr s), times (amr s)))) in H.
  { by injection H as -> -> ->. }
  intros lev s0 s1 H1. unfold seed_level in H1.
  apply bind_Done in H1 as (L & _ & H1).
  apply (forM_preserves
    (fun s => (finest_level (amr s), dt_level (amr s), times (amr s)))) in H1;
    [done|].
  intros st s2 s3 H3. apply seed_state_frame in H3 as (-> & -> & ->). done.
Qed.

Lemma mg_store_amr (ptrs : list Z) (qs : list (list MultiFab)) (s : SDCAmr) :
  amr (mg_store ptrs qs s) = amr s.
Proof.
  revert qs s. induction ptrs as [|p ptrs IH]; intros [|q qs] s; simpl; try done.
  by rewrite IH.
Qed.

Lemma mg_apply_amr (f : list (list MultiFab) -> list (list MultiFab)) (s s' : SDCAmr) :
  mg_apply f s = Done s' -> amr s' = amr s.
Proof.
  unfold mg_apply. intros H. apply bind_Done in H as (qs & _ & H).
  injection H as <-. apply mg_store_amr.
Qed.

Lemma spreading_amr (time : Real) (s s' : SDCAmr) :
  spreading E time s = Done s' -> amr s' = amr s.
Proof.
  unfold spreading. intros H.
  apply bind_Done in H as (dt0 & _ & H). apply bind_Done in H as (s1 & H1 & H).
  injection H as <-. cbn [amr log]. by eapply mg_apply_amr.
Qed.

Lemma sweeping_amr (time : Real) (s s' : SDCAmr) :
  sweeping E time s = Done s' -> amr s' = amr s.
Proof.
  unfold sweeping. apply (forM_preserves amr).
  intros k s0 s1 H. unfold sweep in H.
  apply bind_Done in H as (dt0 & _ & H). apply bind_Done in H as (s2 & H2 & H).
  injection H as <-. cbn [amr log]. by eapply mg_apply_amr.
Qed.

Lemma final_state_frame (lev : Z) (st : nat) (s s' : SDCAmr) :
  final_state lev st s = Done s' ->
  finest_level (amr s') = finest_level (amr s) /\
  dt_level (amr s') = dt_level (amr s) /\
  times (amr s') = times (amr s).
Proof.
  unfold final_state. intros H.
  apply bind_Done in H as (L & _ & H). apply bind_Done in H as ((p & sw) & _ & H).
  repeat (apply bind_Done in H as (? & _ & H)).
  injection H as <-. cbn [amr log set_amr].
  rewrite times_set_new_data. done.
Qed.

Lemma finalizing_frame (s s' : SDCAmr) :
  finalizing s = Done s' ->
  finest_level (amr s') = finest_level (amr s) /\
  dt_level (amr s') = dt_level (amr s) /\
  times (amr s') = times (amr s).
Proof.
  unfold finalizing. intros H.
  apply (forM_preserves
    (fun s => (finest_level (amr s), dt_level (amr s), times (amr s)))) in H.
  { by injection H as -> -> ->. }
  intros lev s0 s1 H1. unfold final_level in H1.
  apply bind_Done in H1 as (L & _ & H1).
  apply (forM_preserves
    (fun s => (finest_level (amr s), dt_level (amr s), times (amr s)))) in H1;
    [done|].
  intros st s2 s3 H3. apply final_state_frame in H3 as (-> & -> & ->). done.
Qed.

Lemma count_step_frame (level : Z) (s s' : SDCAmr) :
  count_step level s = Done s' ->
  finest_level (amr s') = finest_level (amr s) /\
  dt_level (amr s') = dt_level (amr s) /\
  times (amr s') = times (amr s) /\
  trace s' = trace s /\ max_iters s' = max_iters s.
Proof.
  unfold count_step. intros H.
  repeat (apply bind_Done in H as (? & _ & H)).
  injection H as <-. done.
Qed.

(** The phases of a step that returns. *)
Lemma timeStep_phases (level : Z) (time : Real) (iteration niter : Z)
    (stop_time : Real) (s s' : SDCAmr) :
  timeStep P E level time iteration niter stop_time s = Done s' ->
  exists s_r s_q s1 s2 s3 s4,
    preparing P E level time stop_time s = Done s_r /\
    seeding P E time s_r = Done s_q /\
    set_times time s_q = Done s1 /\
    spreading E time s1 = Done s2 /\
    sweeping E time s2 = Done s3 /\
    finalizing s3 = Done s4 /\
    count_step level s4 = Done s'.
Proof.
  unfold timeStep, timeStep_seeded. intros H.
  apply bind_Done in H as (s_q & Hq & H).
  apply bind_Done in Hq as (s_r & Hr & Hq).
  apply bind_Done in H as (s1 & H1 & H).
  apply bind_Done in H as (s2 & H2 & H).
  apply bind_Done in H as (s3 & H3 & H).
  apply bind_Done in H as (s4 & H4 & H).
  by exists s_r, s_q, s1, s2, s3, s4.
Qed.

End Frames.

(** ** The times that a step sets *)

Lemma forM_seqZ_partial {St : Type} (body : Z -> St -> outcome St)
    (Inv : Z -> St -> Prop) (lo n : Z) (s s' : St) :
  0 <= n ->
  Inv lo s ->
  (forall i s s', lo <= i < lo + n -> Inv i s -> body i s = Done s' -> Inv (i + 1) s') ->
  forM body (seqZ lo n) s = Done s' -> Inv (lo + n) s'.
Proof.
  intros Hn. rewrite <- (Z2Nat.id n Hn). clear Hn.
  generalize (Z.to_nat n) as m. clear n. intros m. revert lo s.
  induction m as [|m IH]; intros lo s H0 Hstep.
  - rewrite seqZ_nil by lia. intros [= <-].
    by replace (lo + Z.of_nat 0) with lo by lia.
  - rewrite seqZ_cons by lia. simpl. intros H.
    apply bind_Done in H as (s1 & Hb & H).
    replace (Z.pred (Z.of_nat (S m))) with (Z.of_nat m) in H by lia.
    replace (lo + Z.of_nat (S m)) with (Z.succ lo + Z.of_nat m) by lia.
    apply (IH (Z.succ lo) s1); [| |exact H].
    + replace (Z.succ lo) with (lo + 1) by lia. apply (Hstep lo s); [lia|done..].
    + intros i s2 s3 Hi. apply Hstep. lia.
Qed.

Lemma forM_seq_partial {St : Type} (body : nat -> St -> outcome St)
    (Inv : nat -> St -> Prop) (lo n : nat) (s s' : St) :
  Inv lo s ->
  (forall i s s', (lo <= i < lo + n)%nat -> Inv i s -> body i s = Done s' ->
     Inv (S i) s') ->
  forM body (seq lo n) s = Done s' -> Inv (lo + n)%nat s'.
Proof.
  revert lo s. induction n as [|n IH]; intros lo s H0 Hstep; simpl.
  - intros [= <-]. by rewrite Nat.add_0_r.
  - intros H. apply bind_Done in H as (s1 & Hb & H).
    rewrite <- Nat.add_succ_comm. apply (IH (S lo) s1); [| |exact H].
    + apply (Hstep lo s); [lia|done..].
    + intros i s2 s3 Hi. apply Hstep. lia.
Qed.

Section Times.
Context `{Car : Carriers}.

Lemma lens_alter {A : Type} (g : A -> A) (st k : nat) (l : list (list A)) :
  length <$> alter (alter g st) k l = length <$> l.
Proof.
  rewrite (list_fmap_alter _ _ id); [by rewrite list_alter_id|].
  apply Forall_true. intros row. by rewrite length_alter.
Qed.

(** "set times": every state of every level gets the new time
    [time + dt_level[0]], with [dt_level[0]] as old and as new step size. *)
Lemma set_times_stamps (time : Real) (s s' : SDCAmr) (dt0 : Real) :
  set_times time s = Done s' ->
  lookupZ (dt_level (amr s)) 0 = Done dt0 ->
  finest_level (amr s') = finest_level (amr s) /\
  dt_level (amr s') = dt_level (amr s) /\
  length <$> times (amr s') = length <$> times (amr s) /\
  forall lev row, 0 <= lev <= finest_level (amr s) ->
    times (amr s') !! Z.to_nat lev = Some row ->
    Forall (fun tl => tl = Some (Rplus time dt0, dt0, dt0)) row.
Proof.
  intros H Hdt. unfold set_times in H.
  destruct (Z.lt_ge_cases (finest_level (amr s) + 1) 0) as [Hneg|Hpos].
  { rewrite seqZ_nil in H by lia. injection H as <-.
    repeat split; try done. intros lev row Hlev. lia. }
  set (X := Some (Rplus time dt0, dt0, dt0)).
  pose (Inv := fun (k : Z) (s1 : SDCAmr) =>
    finest_level (amr s1) = finest_level (amr s) /\
    dt_level (amr s1) = dt_level (amr s) /\
    length <$> times (amr s1) = length <$> times (amr s) /\
    forall lev row, 0 <= lev < k ->
      times (amr s1) !! Z.to_nat lev = Some row -> Forall (fun tl => tl = X) row).
  assert (HI : Inv (0 + (finest_level (amr s) + 1)) s').
  { apply (forM_seqZ_partial (set_time_level time) Inv 0 _ s s'); [lia| | |exact H].
    { repeat split; try done. intros lev row Hlev. lia. }
    clear H s'. intros k s1 s' Hk (Hf1 & Hd1 & Hl1 & Hr1) H.
    unfold set_time_level in H. apply bind_Done in H as (L & HL & H).
    apply lookupZ_Done in HL as (_ & HL).
    pose (Inv2 := fun (j : nat) (s3 : SDCAmr) =>
      finest_level (amr s3) = finest_level (amr s) /\
      dt_level (amr s3) = dt_level (amr s) /\
      length <$> times (amr s3) = length <$> times (amr s) /\
      (forall i : nat, i <> Z.to_nat k -> times (amr s3) !! i = times (amr s1) !! i) /\
      exists row, times (amr s3) !! Z.to_nat k = Some row /\
                  length row = length (state L) /\
                  forall i : nat, (i < j)%nat -> row !! i = Some X).
    assert (HJ : Inv2 (0 + length (state L))%nat s').
    { apply (forM_seq_partial (set_time_state time k) Inv2 0 _ s1 s'); [| |exact H].
      { repeat split; try done. exists (time_level <$> state L).
        split; [|split; [by rewrite length_fmap|intros; lia]].
        unfold times. by rewrite list_lookup_fmap, HL. }
      clear H s'. intros j s3 s' Hj (Hf3 & Hd3 & Hl3 & Ho3 & row & Hrow & Hlen & Hlt) H.
      unfold set_time_state in H. rewrite Hd3, Hdt in H. cbn [bind] in H.
      injection H as <-. unfold Inv2. cbn [amr set_amr].
      rewrite times_setTimeLevel. fold X.
      split; [done|]. split; [done|]. split; [by rewrite lens_alter|]. split.
      - intros i Hi. rewrite list_lookup_alter_ne by done. by apply Ho3.
      - exists (alter (fun _ => X) j row).
        split; [by rewrite list_lookup_alter_eq, Hrow|].
        split; [by rewrite length_alter|].
        intros i Hi. destruct (decide (i = j)) as [->|Hne].
        + rewrite list_lookup_alter_eq.
          assert (Hjl : (j < length row)%nat) by lia.
          destruct (lookup_lt_is_Some_2 _ _ Hjl) as [y ->]. done.
        + rewrite list_lookup_alter_ne by done. apply Hlt. lia. }
    destruct HJ as (Hf3 & Hd3 & Hl3 & Ho3 & row & Hrow & Hlen & Hlt).
    split; [done|]. split; [done|]. split; [done|].
    intros lev row' Hlev Hrow'. destruct (decide (lev = k)) as [->|Hne].
    - assert (row' = row) as -> by congruence.
      apply Forall_lookup. intros i y Hy. apply lookup_lt_Some in Hy as Hi.
      rewrite Hlt in Hy by lia. congruence.
    - rewrite Ho3 in Hrow' by lia. apply (Hr1 lev row'); [lia|done]. }
  destruct HI as (Hf & Hd & Hl & Hr). split; [done|]. split; [done|].
  split; [done|]. intros lev row Hlev. apply Hr. lia.
Qed.

End Times.

(** ** A step, phase by phase *)

Section StepMore.
Context `{Car : Carriers}.
Variable P : AmrParams.
Variable E : Externals.
Hypothesis Law : Lawful P E.

(** A step from a ready controller: what its first phase does level by
    level, its history in terms of the controller it returns, and the
    times it leaves. *)
Lemma timeStep_more (time : Real) (iteration niter : Z) (stop_time : Real) (s : SDCAmr) :
  ready P s -> can_count (amr s) ->
  exists s_r evs s',
    preparing P E 0 time stop_time s = Done s_r /\
    timeStep P E 0 time iteration niter stop_time s = Done s' /\
    in_sync P s_r /\ in_sync P s' /\
    trace s_r = trace s
                ++ (match sweepers s !! 0%nat with Some None => [EvRebuild] | _ => [] end)
                ++ evs /\
    regrid_trace evs /\
    Forall (fun l => 0 <= l <= max_level P - 1) (regrid_levels evs) /\
    StronglySorted Z.lt (regrid_levels evs) /\
    (1 <= max_level P -> okToRegrid E (amr s) 0 = true ->
     forall j : nat, Z.of_nat j <= finest_level (amr s_r) ->
       level_count (amr s_r) !! j = Some 0) /\
    trace s' = trace s_r ++ seed_events (amr s') ++ [EvSpread]
               ++ sweep_events E (max_iters s') ++ final_events (amr s') /\
    max_iters s' = max_iters s /\
    finest_level (amr s') = finest_level (amr s_r) /\
    (exists c, level_count (amr s_r) !! 0%nat = Some c /\
               level_count (amr s') = <[0%nat := c + 1]> (level_count (amr s_r))) /\
    (forall dt0 lev row,
       lookupZ (dt_level (amr s')) 0 = Done dt0 ->
       0 <= lev <= finest_level (amr s') ->
       times (amr s') !! Z.to_nat lev = Some row ->
       Forall (fun tl => tl = Some (Rplus time dt0, dt0, dt0)) row) /\
    dt_level (amr s') = dt_level (amr s_r).
Proof.
  intros Hready Hcan.
  destruct (timeStep_spec P E Law time iteration niter stop_time s Hready Hcan)
    as (s_r & s_q & s' & Hprep & Hseed & Hstep & Hsr & Hsq & Hs' & _ & _ & Hmi & Hfin
        & _ & Hlc & _).
  destruct (preparing_levels P E Law time stop_time s Hready)
    as (s_r' & evs & Hprep' & _ & Htr_r & Hrt & Hb & Hso & Hz).
  assert (s_r' = s_r) as -> by congruence.
  destruct (timeStep_phases P E 0 time iteration niter stop_time s s' Hstep)
    as (s_r' & s_q' & s1 & s2 & s3 & s4 & Hp1 & Hp2 & Hp3 & Hp4 & Hp5 & Hp6 & Hp7).
  assert (s_r' = s_r) as -> by congruence.
  assert (s_q' = s_q) as -> by congruence.
  destruct (seeding_spec P E Law time s_r Hsr) as (x & Hx & _ & Hsc_q & Htr_q & _).
  assert (x = s_q) as -> by congruence. clear Hx.
  destruct (set_times_spec P time s_q Hsq) as (x & Hx & Hs1 & Hsc1 & Htr1 & _).
  assert (x = s1) as -> by congruence. clear Hx.
  destruct (spreading_spec P E Law time s1 Hs1) as (x & Hx & Hs2 & Hsc2 & Htr2).
  assert (x = s2) as -> by congruence. clear Hx.
  destruct (sweeping_spec P E Law time s2 Hs2) as (x & Hx & Hs3 & Hsc3 & Htr3).
  assert (x = s3) as -> by congruence. clear Hx.
  destruct (finalizing_spec P s3 Hs3) as (x & Hx & Hs4 & Hsc4 & _ & Htr4 & _).
  assert (x = s4) as -> by congruence. clear Hx.
  apply seeding_frame in Hp2 as (Hf_q & Hd_q & Ht_q).
  apply spreading_amr in Hp4. apply sweeping_amr in Hp5.
  apply finalizing_frame in Hp6 as (Hf_4 & Hd_4 & Ht_4).
  apply count_step_frame in Hp7 as (Hf_5 & Hd_5 & Ht_5 & Htr5 & Hmi5).
  assert (Hdt : forall dt0, lookupZ (dt_level (amr s')) 0 = Done dt0 ->
                            lookupZ (dt_level (amr s_q)) 0 = Done dt0).
  { intros dt0. rewrite Hd_5, Hd_4, Hp5, Hp4.
    destruct Hsc1 as (_ & _ & _ & -> & _). done. }
  assert (Hlens : length <$> times (amr s') = length <$> times (amr s_r) /\
                  length <$> times (amr s3) = length <$> times (amr s_r)).
  { destruct (dt_level_0 P s_q Hsq) as (dt0 & Hdt0).
    destruct (set_times_stamps time s_q s1 dt0 Hp3 Hdt0) as (_ & _ & Hl1 & _).
    rewrite Ht_5, Ht_4, Hp5, Hp4, Hl1, Ht_q. done. }
  destruct Hlens as (Hlens & Hlens3).
  assert (Hf_1 : finest_level (amr s1) = finest_level (amr s_q)).
  { by destruct Hsc1 as (-> & _). }
  assert (Hf' : finest_level (amr s') = finest_level (amr s_r)).
  { rewrite Hf_5, Hf_4, Hp5, Hp4, Hf_1, Hf_q. done. }
  destruct (events_layout (amr s_r) (amr s') Hf' Hlens) as (Hse & _).
  assert (Hf3 : finest_level (amr s') = finest_level (amr s3)).
  { rewrite Hf_5, Hf_4. done. }
  destruct (events_layout (amr s3) (amr s')) as (_ & Hfe).
  { done. } { by rewrite Hlens, Hlens3. }
  exists s_r, evs, s'. repeat (split; [done|]).
  split; [|split; [|split; [|split; [|split]]]].
  - rewrite Htr5, Htr4, Htr3, Htr2, Htr1, Htr_q, Hse, Hfe, Hmi5.
    destruct Hsc4 as (_ & _ & _ & _ & -> & _).
    destruct Hsc3 as (_ & _ & _ & _ & -> & _).
    by rewrite <- !app_assoc.
  - done.
  - done.
  - done.
  - intros dt0 lev row Hdt0 Hlev Hrow. apply Hdt in Hdt0.
    destruct (set_times_stamps time s_q s1 dt0 Hp3 Hdt0) as (_ & _ & _ & Hst).
    apply (Hst lev row).
    + rewrite Hf_q, <- Hf'. done.
    + rewrite Ht_5, Ht_4, Hp5, Hp4 in Hrow. done.
  - rewrite Hd_5, Hd_4, Hp5, Hp4, <- Hd_q.
    by destruct Hsc1 as (_ & _ & _ & -> & _).
Qed.

End StepMore.

(** ** The node fields through a step *)

Section NodeFields.
Context `{Car : Carriers}.
Variable P : AmrParams.
Variable E : Externals.
Hypothesis Law : Lawful P E.

Lemma mg_fields_ext (s s' : SDCAmr) (ptrs : list Z) :
  sweepers s' = sweepers s -> mg_fields s' ptrs = mg_fields s ptrs.
Proof.
  intros H. induction ptrs as [|p ptrs IH]; simpl; [done|].
  unfold deref. by rewrite H, IH.
Qed.

Lemma fields_ext (s s' : SDCAmr) :
  sweepers s' = sweepers s -> mg s' = mg s -> fields s' = fields s.
Proof. intros H1 H2. unfold fields. rewrite H2. by apply mg_fields_ext. Qed.

Lemma mg_fields_length (s : SDCAmr) (ptrs : list Z) (qs : list (list MultiFab)) :
  mg_fields s ptrs = Done qs -> length qs = length ptrs.
Proof.
  revert qs. induction ptrs as [|p ptrs IH]; intros qs; simpl.
  - by intros [= <-].
  - intros H. apply bind_Done in H as (sw & _ & H).
    apply bind_Done in H as (qs' & Hqs' & H). injection H as <-.
    simpl. by rewrite (IH qs').
Qed.

Lemma mg_store_mg (ptrs : list Z) (qs : list (list MultiFab)) (s : SDCAmr) :
  mg (mg_store ptrs qs s) = mg s.
Proof.
  revert qs s. induction ptrs as [|p ptrs IH]; intros [|q qs] s; simpl; try done.
  by rewrite IH.
Qed.

Lemma mg_store_sweepers_ne (ptrs : list Z) (qs : list (list MultiFab)) (s : SDCAmr)
    (i : nat) :
  (forall p, p ∈ ptrs -> Z.to_nat p <> i) ->
  sweepers (mg_store ptrs qs s) !! i = sweepers s !! i.
Proof.
  revert qs s. induction ptrs as [|p ptrs IH]; intros [|q qs] s Hn; simpl; try done.
  rewrite IH.
  - cbn. apply list_lookup_alter_ne. apply Hn. left.
  - intros p' Hp'. apply Hn. by right.
Qed.

(** What the step library writes through the orchestrator's pointers is
    what is read back through them. *)
Lemma mg_fields_store (ptrs : list Z) (qs : list (list MultiFab)) (s : SDCAmr) :
  NoDup ptrs -> length qs = length ptrs ->
  Forall (fun p => 0 <= p /\ exists sw, sweepers s !! Z.to_nat p = Some (Some sw)) ptrs ->
  mg_fields (mg_store ptrs qs s) ptrs = Done qs.
Proof.
  revert qs s. induction ptrs as [|p ptrs IH]; intros qs s Hnd Hlen Hall.
  - by destruct qs.
  - destruct qs as [|q qs]; [discriminate|]. simpl.
    apply NoDup_cons in Hnd as (Hnin & Hnd).
    apply Forall_cons_1 in Hall as ((Hp & sw & Hsw) & Hall).
    assert (Hd : deref (mg_store ptrs qs (alter_sweeper (set_Q q) p s)) p
                 = Done (set_Q q sw)).
    { unfold deref. rewrite (lookupZ_Some _ p (Some (set_Q q sw))); [done|done|].
      rewrite mg_store_sweepers_ne.
      - cbn. by rewrite list_lookup_alter_eq, Hsw.
      - intros p' Hp' Heq. apply Hnin.
        pose proof (proj1 (Forall_forall _ _) Hall p' Hp') as (Hp'0 & _).
        by assert (p = p') as -> by lia. }
    rewrite Hd. cbn [bind]. rewrite IH; [done|done|by injection Hlen|].
    apply Forall_forall. intros p' Hin.
    pose proof (proj1 (Forall_forall _ _) Hall p' Hin) as (Hp' & sw' & Hsw').
    split; [done|].
    exists sw'. cbn. rewrite list_lookup_alter_ne; [done|].
    intros Heq. apply Hnin. by assert (p = p') as -> by lia.
Qed.

(** The node fields of a controller whose hierarchies are in step. *)
Lemma fields_wf (s : SDCAmr) (qs : list (list MultiFab)) :
  in_sync P s -> fields s = Done qs ->
  Forall (fun q => Forall wf_mf q /\ uniform_fields q) qs /\
  Forall (fun p => 0 <= p /\ exists sw, sweepers s !! Z.to_nat p = Some (Some sw))
         (mg_sweepers (mg s)) /\
  NoDup (mg_sweepers (mg s)).
Proof.
  intros Hsync. pose proof Hsync as ((Hfin & _) & _ & _ & Hmg & Hsyn).
  unfold fields. rewrite Hmg. intros Hqs.
  assert (Hall : Forall (fun p => 0 <= p /\
                           exists sw, sweepers s !! Z.to_nat p = Some (Some sw))
                        (seqZ 0 (finest_level (amr s) + 1))).
  { apply Forall_seqZ. intros p Hp. split; [lia|].
    destruct (Hsyn (Z.to_nat p)) as (L & sw & _ & Hsw & _); [lia|]. by exists sw. }
  destruct (mg_fields_ok s _ Hall) as (qs' & Hqs' & Hrel).
  assert (qs' = qs) as -> by congruence.
  split; [|split; [done|apply NoDup_seqZ]].
  eapply Forall2_Forall_r; [exact Hrel|]. apply Forall_seqZ.
  intros p Hp q (sw & Hsw & ->).
  destruct (Hsyn (Z.to_nat p)) as (L & sw' & _ & Hsw' & _ & _ & Hnu & Hn3); [lia|].
  assert (sw' = sw) as -> by congruence. split; [|done].
  eapply Forall_impl; [exact Hn3|]. by intros U (HU & _).
Qed.

Lemma fields_Done (s : SDCAmr) :
  in_sync P s ->
  exists qs, fields s = Done qs /\
             length qs = Z.to_nat (finest_level (amr s) + 1).
Proof.
  intros Hsync. pose proof Hsync as ((Hfin & _) & _ & _ & Hmg & Hsyn).
  destruct (mg_fields_ok s (seqZ 0 (finest_level (amr s) + 1))) as (qs & Hqs & _).
  { apply Forall_seqZ. intros p Hp. split; [lia|].
    destruct (Hsyn (Z.to_nat p)) as (L & sw & _ & Hsw & _); [lia|]. by exists sw. }
  exists qs. unfold fields. rewrite Hmg. split; [done|].
  apply mg_fields_length in Hqs. by rewrite Hqs, length_seqZ.
Qed.

Lemma mg_apply_fields (f : list (list MultiFab) -> list (list MultiFab))
    (s s' : SDCAmr) (qs : list (list MultiFab)) :
  in_sync P s -> fields s = Done qs -> length (f qs) = length qs ->
  mg_apply f s = Done s' -> fields s' = Done (f qs).
Proof.
  intros Hsync Hqs Hlen H. destruct (fields_wf s qs Hsync Hqs) as (_ & Hall & Hnd).
  unfold mg_apply in H. unfold fields in Hqs. rewrite Hqs in H. cbn [bind] in H.
  injection H as <-. unfold fields. rewrite mg_store_mg.
  apply mg_fields_store; [done| |done].
  rewrite Hlen. by eapply mg_fields_length.
Qed.

Lemma spreading_fields (time : Real) (s s' : SDCAmr) (qs : list (list MultiFab))
    (dt0 : Real) :
  in_sync P s -> fields s = Done qs -> lookupZ (dt_level (amr s)) 0 = Done dt0 ->
  spreading E time s = Done s' ->
  fields s' = Done (sdc_mg_spread E (amr s) qs time dt0 0).
Proof.
  intros Hsync Hqs Hdt H. unfold spreading in H. rewrite Hdt in H. cbn [bind] in H.
  apply bind_Done in H as (s1 & H1 & H). injection H as <-.
  rewrite (fields_ext s1 (log EvSpread s1)) by done.
  apply (mg_apply_fields (fun qs => sdc_mg_spread E (amr s) qs time dt0 0) s s1 qs);
    [done|done| |done].
  destruct (fields_wf s qs Hsync Hqs) as (Hwf & _).
  exact (Forall2_length _ _ _ (spread_shape P E Law (amr s) qs time dt0 0 Hwf)).
Qed.

Lemma sweep_fields (time : Real) (k : Z) (s s' : SDCAmr) (qs : list (list MultiFab))
    (dt0 : Real) :
  in_sync P s -> fields s = Done qs -> lookupZ (dt_level (amr s)) 0 = Done dt0 ->
  sweep E time k s = Done s' ->
  amr s' = amr s /\
  fields s' = Done (sdc_mg_sweep E (amr s) qs time dt0 (sweep_flags E (max_iters s) k)).
Proof.
  intros Hsync Hqs Hdt H. unfold sweep in H. rewrite Hdt in H. cbn [bind] in H.
  apply bind_Done in H as (s1 & H1 & H). injection H as <-.
  split; [cbn [amr log]; by eapply mg_apply_amr|].
  rewrite (fields_ext s1 (log _ s1)) by done.
  apply (mg_apply_fields
           (fun qs => sdc_mg_sweep E (amr s) qs time dt0 (sweep_flags E (max_iters s) k))
           s s1 qs); [done|done| |done].
  destruct (fields_wf s qs Hsync Hqs) as (Hwf & _).
  exact (Forall2_length _ _ _ (sweep_shape P E Law (amr s) qs time dt0 _ Hwf)).
Qed.

(** The sweeps of a step on the node fields: [max_iters] calls of
    [sdc_mg_sweep], each on what the one before left. *)
Lemma sweeping_fields (time : Real) (s s' : SDCAmr) (qs : list (list MultiFab))
    (dt0 : Real) :
  in_sync P s -> fields s = Done qs -> lookupZ (dt_level (amr s)) 0 = Done dt0 ->
  sweeping E time s = Done s' ->
  fields s' = Done (sweeps E (amr s) time dt0 (max_iters s) qs).
Proof.
  intros Hsync Hqs Hdt H. unfold sweeping in H. unfold sweeps.
  destruct (Z.lt_ge_cases (max_iters s) 0) as [Hneg|Hpos].
  { rewrite seqZ_nil in * by lia. simpl in H. by injection H as <-. }
  pose (Inv := fun (k : Z) (s1 : SDCAmr) =>
    in_sync P s1 /\ amr s1 = amr s /\ max_iters s1 = max_iters s /\
    fields s1
    = Done (fold_left (fun qs k => sdc_mg_sweep E (amr s) qs time dt0
                                     (sweep_flags E (max_iters s) k))
                      (seqZ 0 k) qs)).
  destruct (forM_seqZ_partial (sweep E time) Inv 0 (max_iters s) s s')
    as (_ & _ & _ & Hf); [lia| | |exact H|exact Hf].
  - split; [done|]. split; [done|]. split; [done|]. by rewrite seqZ_nil by lia.
  - intros k s1 s2 Hk (Hs1 & Ha1 & Hm1 & Hf1) Hsw.
    destruct (sweep_spec P E Law time k s1 Hs1) as (x & Hx & Hs2 & Hsc & _).
    assert (x = s2) as -> by congruence. clear Hx.
    destruct (sweep_fields time k s1 s2 _ dt0 Hs1 Hf1) as (Ha2 & Hf2);
      [by rewrite Ha1|done|].
    split; [done|]. split; [congruence|].
    split; [destruct Hsc as (_ & _ & _ & _ & -> & _); done|].
    rewrite (seqZ_app 0 k 1) by lia. rewrite fold_left_app.
    rewrite seqZ_cons, seqZ_nil by lia. cbn [fold_left].
    replace (0 + k) with k by lia. by rewrite Hf2, Ha1, Hm1.
Qed.

Lemma count_step_sweepers (level : Z) (s s' : SDCAmr) :
  count_step level s = Done s' -> sweepers s' = sweepers s /\ mg s' = mg s.
Proof.
  unfold count_step. intros H.
  repeat (apply bind_Done in H as (? & _ & H)).
  by injection H as <-.
Qed.

(** A step from a ready controller, on the node fields: the spread and
    then [max_iters] sweeps of what seeding left; the copy back and the
    counters leave the nodes as the last sweep did. *)
Lemma timeStep_fields (time : Real) (iteration niter : Z) (stop_time : Real)
    (s : SDCAmr) :
  ready P s -> can_count (amr s) ->
  exists s_q s1 s' dt0 qs,
    timeStep_seeded P E 0 time stop_time s = Done s_q /\
    set_times time s_q = Done s1 /\
    timeStep P E 0 time iteration niter stop_time s = Done s' /\
    lookupZ (dt_level (amr s1)) 0 = Done dt0 /\
    fields s_q = Done qs /\
    length qs = Z.to_nat (finest_level (amr s') + 1) /\
    fields s'
    = Done (sweeps E (amr s1) time dt0 (max_iters s)
              (sdc_mg_spread E (amr s1) qs time dt0 0)).
Proof.
  intros Hready Hcan.
  destruct (timeStep_spec P E Law time iteration niter stop_time s Hready Hcan)
    as (s_r & s_q & s' & Hprep & Hseed & Hstep & Hsr & Hsq & Hs' & _ & _ & Hmi & Hfin
        & _).
  destruct (timeStep_phases P E 0 time iteration niter stop_time s s' Hstep)
    as (s_r' & s_q' & s1 & s2 & s3 & s4 & Hp1 & Hp2 & Hp3 & Hp4 & Hp5 & Hp6 & Hp7).
  assert (s_r' = s_r) as -> by congruence.
  assert (s_q' = s_q) as -> by congruence.
  destruct (seeding_spec P E Law time s_r Hsr) as (x & Hx & _ & Hsc_q & _).
  assert (x = s_q) as -> by congruence. clear Hx.
  destruct (set_times_spec P time s_q Hsq) as (x & Hx & Hs1 & Hsc1 & _ & Hsw1).
  assert (x = s1) as -> by congruence. clear Hx.
  destruct (spreading_spec P E Law time s1 Hs1) as (x & Hx & Hs2 & Hsc2 & _).
  assert (x = s2) as -> by congruence. clear Hx.
  destruct (sweeping_spec P E Law time s2 Hs2) as (x & Hx & Hs3 & Hsc3 & _).
  assert (x = s3) as -> by congruence. clear Hx.
  destruct (finalizing_spec P s3 Hs3) as (x & Hx & Hs4 & Hsc4 & Hsw4 & _).
  assert (x = s4) as -> by congruence. clear Hx.
  destruct (fields_Done s_q Hsq) as (qs & Hqs & Hlen).
  destruct (dt_level_0 P s1 Hs1) as (dt0 & Hdt0).
  assert (Hq1 : fields s1 = Done qs).
  { rewrite (fields_ext s_q s1); [done|done|]. by destruct Hsc1 as (_ & _ & _ & _ & _ & ->). }
  pose proof (spreading_fields time s1 s2 qs dt0 Hs1 Hq1 Hdt0 Hp4) as Hq2.
  pose proof (spreading_amr E time s1 s2 Hp4) as Ha2.
  assert (Hdt2 : lookupZ (dt_level (amr s2)) 0 = Done dt0) by (by rewrite Ha2).
  pose proof (sweeping_fields time s2 s3 _ dt0 Hs2 Hq2 Hdt2 Hp5) as Hq3.
  destruct (count_step_sweepers 0 s4 s' Hp7) as (Hsw5 & Hmg5).
  apply count_step_frame in Hp7 as (Hf5 & _ & _ & _ & Hmi5).
  exists s_q, s1, s', dt0, qs.
  split; [unfold timeStep_seeded; by rewrite Hprep|]. split; [done|].
  split; [done|]. split; [done|]. split; [done|]. split.
  - rewrite Hlen. do 2 f_equal. rewrite Hfin. by destruct Hsc_q as (-> & _).
  - rewrite (fields_ext s4 s' Hsw5 Hmg5).
    rewrite (fields_ext s3 s4 Hsw4); [|by destruct Hsc4 as (_ & _ & _ & _ & _ & ->)].
    rewrite Hq3, Ha2. do 2 f_equal.
    rewrite <- Hmi, Hmi5.
    destruct Hsc4 as (_ & _ & _ & _ & -> & _).
    by destruct Hsc3 as (_ & _ & _ & _ & -> & _).
Qed.

End NodeFields.

(** ** Seeding, sweeps and counters of a step *)

Section StepSentences.
Context `{Car : Carriers}.
Variable P : AmrParams.
Variable E : Externals.
Hypothesis Law : Lawful P E.

Lemma step_rest_quiet (a a' : Amr) (n : Z) (evs : list Event) :
  regrid_levels (evs ++ seed_events a ++ [EvSpread] ++ sweep_events E n
                     ++ final_events a')
  = regrid_levels evs.
Proof.
  assert (Hrest : Forall (fun e => is_regrid e = false)
                    (seed_events a ++ [EvSpread] ++ sweep_events E n ++ final_events a')).
  { repeat apply Forall_app_2.
    - eapply Forall_impl; [apply seed_events_quiet|]. by intros e (? & _).
    - by repeat constructor.
    - eapply Forall_impl; [apply sweep_events_sweeps|]. by intros e (? & _).
    - eapply Forall_impl; [apply final_events_quiet|]. by intros e (? & _). }
  unfold regrid_levels at 1. rewrite omap_app. fold (regrid_levels evs).
  match goal with |- _ ++ ?r = _ => change r with (regrid_levels
    (seed_events a ++ [EvSpread] ++ sweep_events E n ++ final_events a')) end.
  by rewrite (regrid_levels_quiet _ Hrest), app_nil_r.
Qed.


(** C6.  A step from a ready controller returns after exactly [max_iters]
    sweeps (none when [max_iters] is not positive), whatever the residuals:
    the sweeps in its history are those of [k = 0, ..., max_iters - 1], the
    last with [SDC_MG_LAST_SWEEP], the others with no flag.  The node
    fields that the step leaves are those that seeding left, after the
    spread and after exactly these [max_iters] calls of [sdc_mg_sweep],
    each on the fields that the call before returned. *)
Theorem sweeps_exactly_max_iters (time : Real) (iteration niter : Z)
    (stop_time : Real) (s : SDCAmr) :
  ready P s -> can_count (amr s) ->
  exists s' evs,
    timeStep P E 0 time iteration niter stop_time s = Done s' /\
    trace s' = trace s ++ evs /\
    List.filter is_sweep evs = sweep_events E (max_iters s) /\
    length (sweep_events E (max_iters s)) = Z.to_nat (max_iters s) /\
    (forall k, 0 <= k < max_iters s - 1 ->
       sweep_events E (max_iters s) !! Z.to_nat k = Some (EvSweep 0) /\
       sweep_flags E (max_iters s) k = 0) /\
    (0 < max_iters s ->
       sweep_events E (max_iters s) !! Z.to_nat (max_iters s - 1)
       = Some (EvSweep (SDC_MG_LAST_SWEEP E)) /\
       sweep_flags E (max_iters s) (max_iters s - 1) = SDC_MG_LAST_SWEEP E) /\
    exists s_q s1 dt0 qs,
      timeStep_seeded P E 0 time stop_time s = Done s_q /\
      set_times time s_q = Done s1 /\
      lookupZ (dt_level (amr s1)) 0 = Done dt0 /\
      fields s_q = Done qs /\
      fields s'
      = Done (fold_left
                (fun qs k => sdc_mg_sweep E (amr s1) qs time dt0
                               (sweep_flags E (max_iters s) k))
                (seqZ 0 (max_iters s))
                (sdc_mg_spread E (amr s1) qs time dt0 0)).
Proof.
  intros Hready Hcount.
  destruct (timeStep_spec P E Law time iteration niter stop_time s Hready Hcount)
    as (s_r & s_q & s' & _ & _ & Hstep & _ & _ & _ & (evs & Htr_r & Hprep)
        & (a_f & Htr) & _).
  destruct (timeStep_fields P E Law time iteration niter stop_time s Hready Hcount)
    as (s_q' & s1 & s'' & dt0 & qs & Hq & H1 & Hstep' & Hdt & Hqs & _ & Hfs).
  assert (s'' = s') as -> by congruence.
  exists s', (evs ++ seed_events (amr s_r) ++ [EvSpread]
              ++ sweep_events E (max_iters s) ++ final_events a_f).
  split; [done|]. split; [by rewrite Htr, Htr_r, <- app_assoc|].
  split; [|split; [|split; [|split]]].
  - rewrite !List.filter_app.
    rewrite (filter_none is_sweep evs) by (by apply prepare_trace_quiet).
    rewrite (filter_none is_sweep (seed_events _)).
    2:{ eapply Forall_impl; [apply seed_events_quiet|]. by intros e (_ & ? & _). }
    rewrite (filter_none is_sweep (final_events _)).
    2:{ eapply Forall_impl; [apply final_events_quiet|]. by intros e (_ & ? & _). }
    rewrite (filter_all is_sweep (sweep_events _ _)).
    2:{ eapply Forall_impl; [apply sweep_events_sweeps|]. by intros e (_ & ? & _). }
    cbn. by rewrite app_nil_r.
  - unfold sweep_events. by rewrite length_fmap, length_seqZ.
  - intros k Hk. unfold sweep_events, sweep_flags.
    rewrite list_lookup_fmap, lookup_seqZ_lt by lia. cbn.
    destruct (Z.eqb_spec (0 + Z.of_nat (Z.to_nat k)) (max_iters s - 1)); [lia|].
    destruct (Z.eqb_spec k (max_iters s - 1)); [lia|done].
  - intros Hpos. unfold sweep_events, sweep_flags.
    rewrite list_lookup_fmap, lookup_seqZ_lt by lia. cbn.
    destruct (Z.eqb_spec (0 + Z.of_nat (Z.to_nat (max_iters s - 1))) (max_iters s - 1));
      [|lia].
    by rewrite Z.eqb_refl.
  - by exists s_q', s1, dt0, qs.
Qed.

(** C9, as the code has it.  A step from a ready controller returns with
    the step counter of the stepped level, the base level, one higher.
    The sub-step counter of the base level is one higher too, unless the
    step regridded from the base level: then it is [1].  The counters of
    the finer levels are not incremented: the step counter of each is as
    it was, and its sub-step counter is as it was unless a regrid of the
    step from a base level at or below it reset it to zero.  In a step
    that regrids nothing, as when none of the levels that the regrid loop
    visits is due, the only changes of the counters are the two increments
    of the base level. *)
Theorem counters_of_base_level (time : Real) (iteration niter : Z)
    (stop_time : Real) (s : SDCAmr) :
  ready P s -> can_count (amr s) ->
  exists s' evs,
    timeStep P E 0 time iteration niter stop_time s = Done s' /\
    trace s' = trace s ++ evs /\
    (exists n, level_steps (amr s) !! 0%nat = Some n /\
               level_steps (amr s') = <[0%nat := n + 1]> (level_steps (amr s))) /\
    (exists c, level_count (amr s) !! 0%nat = Some c /\
               level_count (amr s') !! 0%nat
               = Some ((if bool_decide (0 ∈ regrid_levels evs) then 0 else c) + 1) /\
               (regrid_levels evs = [] ->
                level_count (amr s') = <[0%nat := c + 1]> (level_count (amr s)))) /\
    (forall lev : nat, (0 < lev)%nat ->
       level_steps (amr s') !! lev = level_steps (amr s) !! lev /\
       (level_count (amr s') !! lev = level_count (amr s) !! lev \/
        (level_count (amr s') !! lev = Some 0 /\
         exists l, l ∈ regrid_levels evs /\ l <= Z.of_nat lev))) /\
    ((forall j, 0 <= j <= Z.min (finest_level (amr s)) (max_level P - 1) ->
        okToRegrid E (amr s) j = false) ->
     regrid_levels evs = []).
Proof.
  intros Hready Hcount.
  destruct (timeStep_spec P E Law time iteration niter stop_time s Hready Hcount)
    as (s_r & s_q & s' & Hprep & _ & Hstep & _ & _ & _ & _ & (a_f & Htr) & _ & _
        & (n & Hn & Hls) & (c_r & Hc_r & Hlc) & _).
  destruct (preparing_counts P E Law time stop_time s Hready)
    as (s_r' & evs & Hprep' & Htr_r & Hany & H0 & Hquiet).
  assert (s_r' = s_r) as -> by congruence.
  destruct Hcount as (n' & c & _ & Hc & _).
  exists s', (evs ++ seed_events (amr s_r) ++ [EvSpread]
              ++ sweep_events E (max_iters s) ++ final_events a_f).
  rewrite step_rest_quiet.
  split; [done|]. split; [by rewrite Htr, Htr_r, <- app_assoc|].
  split; [by exists n|].
  assert (Hfine : forall lev : nat, (0 < lev)%nat ->
    level_count (amr s') !! lev = level_count (amr s) !! lev \/
    (level_count (amr s') !! lev = Some 0 /\
     exists l, l ∈ regrid_levels evs /\ l <= Z.of_nat lev)).
  { intros lev Hlev. rewrite Hlc, list_lookup_insert_ne by lia. apply Hany. }
  assert (Hbase : level_count (amr s') !! 0%nat
                  = Some ((if bool_decide (0 ∈ regrid_levels evs) then 0 else c) + 1)).
  { rewrite Hlc, list_lookup_insert_eq by (by apply lookup_lt_Some in Hc_r).
    rewrite H0 in Hc_r. destruct (bool_decide _); congruence. }
  split; [|split].
  - exists c. split; [done|]. split; [done|]. intros Hnil.
    apply list_eq. intros [|j].
    + rewrite Hbase, Hnil, list_lookup_insert_eq by (by apply lookup_lt_Some in Hc).
      done.
    + rewrite list_lookup_insert_ne by done.
      destruct (Hfine (S j) ltac:(lia)) as [H|(_ & l & Hl & _)]; [done|].
      rewrite Hnil in Hl. by apply elem_of_nil in Hl.
  - intros lev Hlev. split; [|by apply Hfine].
    rewrite Hls. by rewrite list_lookup_insert_ne by lia.
  - intros Hidle. by apply Hquiet.
Qed.

End StepSentences.

(** ** The constructor, steps and regrids *)

Section StepFacts.
Context `{Car : Carriers}.
Variable P : AmrParams.
Variable E : Externals.
Hypothesis Law : Lawful P E.

(** The controller that the constructor returns. *)
Lemma SDCAmr_new_Done (pp : ParmParse) (a : Amr) (s : SDCAmr) :
  SDCAmr_new P pp a = Done s ->
  0 <= max_level P /\
  s = {| amr := a; max_iters := default 22 (pp_max_iters pp);
         max_trefs := default 3 (pp_max_trefs pp);
         mg := sdc_mg_hooks_add SDC_HOOK_POST_TRANS (sdc_mg_build (max_level P + 1));
         sweepers := replicate (Z.to_nat (max_level P + 1)) None;
         encaps := replicate (Z.to_nat (max_level P + 1)) None;
         trace := [] |}.
Proof.
  unfold SDCAmr_new. destruct (Z.ltb_spec (max_level P) 0) as [|HM]; [discriminate|].
  intros H. apply bind_Done in H as (u & _ & H). injection H as <-. done.
Qed.

Lemma SDCAmr_new_ready (pp : ParmParse) (a : Amr) (s : SDCAmr) :
  mesh_ok P a -> counters_ok P a -> max_level P <= 29 ->
  SDCAmr_new P pp a = Done s ->
  ready P s /\ sweepers s !! 0%nat = Some None.
Proof.
  intros Hm Hc HM H. destruct (SDCAmr_new_Done pp a s H) as (H0 & Hs).
  clear H. subst s.
  assert (Hz : replicate (Z.to_nat (max_level P + 1)) (@None sdc_sweeper) !! 0%nat
               = Some None) by (apply lookup_replicate_2; lia).
  split; [|exact Hz]. split; [exact Hm|]. split; [exact Hc|]. split; [|by left].
  unfold slots_ok. cbn [sweepers encaps mg mg_capacity sdc_mg_hooks_add sdc_mg_build].
  rewrite !length_replicate. split; [done|]. split; [lia|]. split; [lia|].
  split; [done|]. intros i sw Hi. apply lookup_replicate in Hi as (Hi & _).
  discriminate.
Qed.

Lemma regrid_trace_kinds (evs : list Event) :
  regrid_trace evs ->
  Forall (fun e => is_sweep e = false /\ (is_regrid e = true \/ is_rebuild e = true)) evs.
Proof.
  induction 1 as [|lbase changed evs _ IH]; [constructor|].
  constructor; [split; [done|by left]|].
  constructor; [split; [done|by right]|]. exact IH.
Qed.

(** X5.  A controller as the constructor returns it builds its sweepers
    on its first step, before anything else: the first event of the step's
    history is the rebuild.  The step makes the sweeps that the inputs ask
    for, [22] of them when [mlsdc.max_iters] is not given: these are the
    sweeps of its history, and the node fields that it leaves are those
    that seeding left, after the spread and after that many calls of
    [sdc_mg_sweep], each on the fields that the call before returned. *)
Theorem first_step_builds_sweepers (pp : ParmParse) (a : Amr) (s : SDCAmr)
    (time : Real) (iteration niter : Z) (stop_time : Real) :
  mesh_ok P a -> counters_ok P a -> can_count a -> max_level P <= 29 ->
  SDCAmr_new P pp a = Done s ->
  exists s' evs,
    timeStep P E 0 time iteration niter stop_time s = Done s' /\
    trace s' = EvRebuild :: evs /\
    List.filter is_sweep evs = sweep_events E (default 22 (pp_max_iters pp)) /\
    sweepers s' !! 0%nat <> Some None /\
    exists s_q s1 dt0 qs,
      timeStep_seeded P E 0 time stop_time s = Done s_q /\
      set_times time s_q = Done s1 /\
      lookupZ (dt_level (amr s1)) 0 = Done dt0 /\
      fields s_q = Done qs /\
      fields s'
      = Done (fold_left
                (fun qs k => sdc_mg_sweep E (amr s1) qs time dt0
                               (sweep_flags E (default 22 (pp_max_iters pp)) k))
                (seqZ 0 (default 22 (pp_max_iters pp)))
                (sdc_mg_spread E (amr s1) qs time dt0 0)).
Proof.
  intros Hm Hc Hcan HM Hnew.
  destruct (SDCAmr_new_ready pp a s Hm Hc HM Hnew) as (Hready & Hnull).
  apply SDCAmr_new_Done in Hnew as (_ & Hs).
  assert (Ha : amr s = a) by (by rewrite Hs).
  assert (Htr0 : trace s = []) by (by rewrite Hs).
  assert (Hmi0 : max_iters s = default 22 (pp_max_iters pp)) by (by rewrite Hs).
  rewrite <- Ha in Hcan.
  destruct (timeStep_more P E Law time iteration niter stop_time s Hready Hcan)
    as (s_r & evs & s' & _ & Hstep & _ & Hs' & Htr_r & Hrt & _ & _ & _ & Htr & Hmi & _).
  rewrite Hnull, Htr0 in Htr_r. cbn [app] in Htr_r.
  destruct (timeStep_fields P E Law time iteration niter stop_time s Hready Hcan)
    as (s_q & s1 & s'' & dt0 & qs & Hq & H1 & Hstep' & Hdt & Hqs & _ & Hfs).
  assert (s'' = s') as -> by congruence.
  exists s', (evs ++ seed_events (amr s') ++ [EvSpread]
              ++ sweep_events E (max_iters s') ++ final_events (amr s')).
  split; [done|]. split; [by rewrite Htr, Htr_r|]. split; [|split].
  - rewrite !List.filter_app.
    rewrite (filter_none is_sweep evs).
    2:{ eapply Forall_impl; [by apply regrid_trace_kinds|]. by intros e (? & _). }
    rewrite (filter_none is_sweep (seed_events _)).
    2:{ eapply Forall_impl; [apply seed_events_quiet|]. by intros e (_ & ? & _). }
    rewrite (filter_none is_sweep (final_events _)).
    2:{ eapply Forall_impl; [apply final_events_quiet|]. by intros e (_ & ? & _). }
    rewrite (filter_all is_sweep (sweep_events _ _)).
    2:{ eapply Forall_impl; [apply sweep_events_sweeps|]. by intros e (_ & ? & _). }
    cbn. by rewrite app_nil_r, Hmi, Hmi0.
  - destruct Hs' as ((Hf & _) & _ & _ & _ & Hsyn).
    destruct (Hsyn 0%nat ltac:(lia)) as (L & sw & _ & Hsw & _). congruence.
  - exists s_q, s1, dt0, qs. rewrite <- Hmi0. done.
Qed.

(** X6.  In one step the regrid loop calls the mesh regrid from strictly
    increasing base levels between [0] and [max_level - 1]: at most once
    per level, at most [max_level] times, and never from level [max_level];
    with [max_level = 0] a step never regrids, whatever [okToRegrid]
    says. *)
Theorem step_regrids_below_max_level (time : Real) (iteration niter : Z)
    (stop_time : Real) (s : SDCAmr) :
  ready P s -> can_count (amr s) ->
  exists s' evs,
    timeStep P E 0 time iteration niter stop_time s = Done s' /\
    trace s' = trace s ++ evs /\
    StronglySorted Z.lt (regrid_levels evs) /\
    Forall (fun l => 0 <= l <= max_level P - 1) (regrid_levels evs) /\
    Z.of_nat (length (regrid_levels evs)) <= max_level P /\
    (max_level P = 0 -> Forall (fun e => is_regrid e = false) evs).
Proof.
  intros Hready Hcan.
  destruct (timeStep_more P E Law time iteration niter stop_time s Hready Hcan)
    as (s_r & evs & s' & _ & Hstep & _ & _ & Htr_r & Hrt & Hb & Hso & _ & Htr & _).
  pose proof Hready as ((HM & _) & _).
  set (r := match sweepers s !! 0%nat with Some None => [EvRebuild] | _ => [] end) in *.
  set (rest := seed_events (amr s') ++ [EvSpread]
               ++ sweep_events E (max_iters s') ++ final_events (amr s')) in *.
  assert (Hr : Forall (fun e => is_regrid e = false) r).
  { unfold r. destruct (sweepers s !! 0%nat) as [[sw|]|]; by repeat constructor. }
  assert (Hrest : Forall (fun e => is_regrid e = false) rest).
  { unfold rest. repeat apply Forall_app_2.
    - eapply Forall_impl; [apply seed_events_quiet|]. by intros e (? & _).
    - by repeat constructor.
    - eapply Forall_impl; [apply sweep_events_sweeps|]. by intros e (? & _).
    - eapply Forall_impl; [apply final_events_quiet|]. by intros e (? & _). }
  assert (Hlev : regrid_levels (r ++ evs ++ rest) = regrid_levels evs).
  { unfold regrid_levels. rewrite !omap_app. fold (regrid_levels r).
    fold (regrid_levels evs). fold (regrid_levels rest).
    rewrite (regrid_levels_quiet r Hr), (regrid_levels_quiet rest Hrest).
    by rewrite app_nil_r. }
  exists s', (r ++ evs ++ rest). split; [done|].
  split; [by rewrite Htr, Htr_r, <- !app_assoc|]. rewrite Hlev.
  split; [done|]. split; [done|]. split.
  - pose proof (increasing_length _ 0 (max_level P - 1) Hso Hb). lia.
  - intros H0. apply Forall_app_2; [done|]. apply Forall_app_2; [|done].
    rewrite H0 in Hb. destruct Hrt as [|lbase changed evs' _]; [constructor|].
    apply Forall_cons_1 in Hb as (Hb & _). lia.
Qed.

(** X7.  When the base level is due for a regrid at the start of a step
    (and the hierarchy may have more than one level), the step leaves the
    sub-step counter of the base level at [1] and those of all the finer
    levels at [0]: the regrid loop sets them to zero from the base level up
    and only the base level counts the step. *)
Theorem base_regrid_restarts_counts (time : Real) (iteration niter : Z)
    (stop_time : Real) (s : SDCAmr) :
  ready P s -> can_count (amr s) ->
  1 <= max_level P -> okToRegrid E (amr s) 0 = true ->
  exists s',
    timeStep P E 0 time iteration niter stop_time s = Done s' /\
    lookupZ (level_count (amr s')) 0 = Done 1 /\
    forall k, 1 <= k <= finest_level (amr s') ->
      lookupZ (level_count (amr s')) k = Done 0.
Proof.
  intros Hready Hcan HM Hok.
  destruct (timeStep_more P E Law time iteration niter stop_time s Hready Hcan)
    as (s_r & evs & s' & _ & Hstep & Hsr & _ & _ & _ & _ & _ & Hz & _ & _ & Hf
        & (c & Hc & Hlc) & _).
  specialize (Hz HM Hok). pose proof Hsr as ((Hfr & _) & _).
  assert (c = 0) as ->.
  { specialize (Hz 0%nat ltac:(lia)). congruence. }
  exists s'. split; [done|]. rewrite Hlc. split.
  - apply lookupZ_Some; [lia|]. apply list_lookup_insert_eq.
    by apply lookup_lt_Some in Hc.
  - intros k Hk. apply lookupZ_Some; [lia|].
    rewrite list_lookup_insert_ne by lia.
    specialize (Hz (Z.to_nat k)). apply Hz. lia.
Qed.

(** X8.  A step sets the time of every state of every level, the fine
    levels too, to [time + dt_level[0]], and both step sizes of its time
    level to [dt_level[0]], the step size of the base level: all the levels
    advance together by the base level's step.  That step size is the one
    the controller came with when the step regrids nothing. *)
Theorem step_sets_every_time (time : Real) (iteration niter : Z)
    (stop_time : Real) (s : SDCAmr) :
  ready P s -> can_count (amr s) ->
  exists s' dt0,
    timeStep P E 0 time iteration niter stop_time s = Done s' /\
    lookupZ (dt_level (amr s')) 0 = Done dt0 /\
    (forall lev L st sd,
       0 <= lev <= finest_level (amr s') ->
       getLevel (amr s') lev = Done L -> state L !! st = Some sd ->
       time_level sd = Some (Rplus time dt0, dt0, dt0)) /\
    (sweepers s !! 0%nat <> Some None ->
     (forall j, 0 <= j <= max_level P - 1 -> okToRegrid E (amr s) j = false) ->
     dt_level (amr s') = dt_level (amr s)).
Proof.
  intros Hready Hcan.
  destruct (timeStep_more P E Law time iteration niter stop_time s Hready Hcan)
    as (s_r & evs & s' & Hprep & Hstep & _ & Hs' & _ & _ & _ & _ & _ & _ & _ & _ & _
        & Ht & Hdt).
  destruct (dt_level_0 P s' Hs') as (dt0 & Hdt0).
  exists s', dt0. split; [done|]. split; [done|]. split.
  - intros lev L st sd Hlev HL Hsd. apply lookupZ_Done in HL as (_ & HL).
    specialize (Ht dt0 lev (time_level <$> state L) Hdt0 Hlev).
    unfold times in Ht. rewrite list_lookup_fmap, HL in Ht. specialize (Ht eq_refl).
    eapply Forall_lookup_1 in Ht; [exact Ht|]. by rewrite list_lookup_fmap, Hsd.
  - intros Hsw Hidle.
    assert (Hvis : forall j,
              0 <= j <= Z.min (finest_level (amr s)) (max_level P - 1) ->
              okToRegrid E (amr s) j = false) by (intros j Hj; apply Hidle; lia).
    rewrite (preparing_idle P E time stop_time s Hready Hsw Hvis) in Hprep.
    injection Hprep as <-. exact Hdt.
Qed.

(** X9.  The history of a step, in order: mesh regrids and rebuilds only;
    then, level by level and state by state, a boundary fill and a copy
    into [Q[0]]; then one call of [sdc_mg_spread]; then the sweeps; then,
    level by level and state by state, the copy back. *)
Theorem step_history (time : Real) (iteration niter : Z)
    (stop_time : Real) (s : SDCAmr) :
  ready P s -> can_count (amr s) ->
  exists s' evs,
    timeStep P E 0 time iteration niter stop_time s = Done s' /\
    trace s' = trace s ++ evs ++ seed_events (amr s') ++ [EvSpread]
               ++ sweep_events E (max_iters s') ++ final_events (amr s') /\
    Forall (fun e => is_regrid e = true \/ is_rebuild e = true) evs.
Proof.
  intros Hready Hcan.
  destruct (timeStep_more P E Law time iteration niter stop_time s Hready Hcan)
    as (s_r & evs & s' & _ & Hstep & _ & _ & Htr_r & Hrt & _ & _ & _ & Htr & _).
  exists s', (match sweepers s !! 0%nat with Some None => [EvRebuild] | _ => [] end
              ++ evs).
  split; [done|]. split; [by rewrite Htr, Htr_r, <- !app_assoc|].
  apply Forall_app_2.
  - destruct (sweepers s !! 0%nat) as [[sw|]|];
      [constructor|constructor; [by right|constructor]|constructor].
  - eapply Forall_impl; [by apply regrid_trace_kinds|]. by intros e (_ & ?).
Qed.

(** X10.  A step keeps the controller in step with the mesh: from a ready
    controller it returns one whose orchestrator has a sweeper for each of
    the [finest_level + 1] levels, the nodes of which are laid out like the
    state fields of their level, so that the next step needs no rebuild of
    its own. *)
Theorem step_keeps_in_sync (time : Real) (iteration niter : Z)
    (stop_time : Real) (s : SDCAmr) :
  ready P s -> can_count (amr s) ->
  exists s',
    timeStep P E 0 time iteration niter stop_time s = Done s' /\
    in_sync P s' /\
    nlevels (mg s') = finest_level (amr s') + 1 /\
    sweepers s' !! 0%nat <> Some None /\
    forall lev, 0 <= lev <= finest_level (amr s') ->
      exists sw L,
        mg_sweeper s' lev = Done (lev, sw) /\ getLevel (amr s') lev = Done L /\
        nnodes (nset sw) = Z.of_nat (length (Q (nset sw))) /\
        Forall (fun U => Forall (fun sd => same_shape U (new_data sd)) (state L))
               (Q (nset sw)).
Proof.
  intros Hready Hcan.
  destruct (timeStep_more P E Law time iteration niter stop_time s Hready Hcan)
    as (s_r & evs & s' & _ & Hstep & _ & Hs' & _).
  exists s'. split; [done|]. split; [done|].
  pose proof Hs' as ((Hf & _) & _ & _ & Hmg & Hsyn).
  split; [|split].
  - unfold nlevels. rewrite Hmg, length_seqZ. lia.
  - destruct (Hsyn 0%nat ltac:(lia)) as (L & sw & _ & Hsw & _). congruence.
  - intros lev Hlev. destruct (synced_level P s' lev Hs' Hlev)
      as (L & sw & HL & Hsw & Hn1 & _ & _ & Hn3).
    exists sw, L. split; [by apply mg_sweeper_synced|].
    split; [apply lookupZ_Some; [lia|done]|]. split; [done|].
    eapply Forall_impl; [exact Hn3|]. by intros U (_ & ?).
Qed.

(** X11.  [regrid] takes the hierarchy that the mesh regrid returns and
    rebuilds for it, whatever the sweepers were: the controller it returns
    is in step with the new mesh.  Unlike the regrid loop of a step, it
    neither computes new step sizes nor sets a sub-step counter to zero. *)
Theorem regrid_syncs_and_keeps_counters (lbase : Z) (time : Real) (initial : bool)
    (s : SDCAmr) :
  mesh_ok P (amr s) -> counters_ok P (amr s) -> slots_ok P s ->
  exists s',
    regrid P E lbase time initial s = Done s' /\
    in_sync P s' /\
    (finest_level (amr s'), amr_level (amr s')) = Amr_regrid E lbase time initial (amr s) /\
    nlevels (mg s') = finest_level (amr s') + 1 /\
    level_steps (amr s') = level_steps (amr s) /\
    level_count (amr s') = level_count (amr s) /\
    n_cycle (amr s') = n_cycle (amr s) /\
    dt_min (amr s') = dt_min (amr s) /\
    dt_level (amr s') = dt_level (amr s).
Proof.
  intros Hm Hc Hs. rewrite regrid_rebuilt by done.
  pose proof (regrid_mesh_ok P E Law lbase time initial (amr s) Hm) as Hm'.
  eexists. split; [done|]. split.
  { apply rebuilt_in_sync; done. }
  cbn [amr rebuilt log set_amr set_mesh finest_level amr_level mg mg_sweepers
       level_steps level_count n_cycle dt_min dt_level].
  split; [by destruct (Amr_regrid E lbase time initial (amr s))|].
  split; [|done]. unfold nlevels. cbn [mg_sweepers]. rewrite length_seqZ.
  destruct Hm' as ((? & _) & _). cbn [set_mesh finest_level] in *. lia.
Qed.

(** A call: what it does to the step counter of the base level. *)
Lemma call_level_steps (c : Call) (s : SDCAmr) (k : nat) :
  ready P s -> base_call c -> can_count_n (S k) (amr s) ->
  exists s' n,
    call P E c s = Done s' /\ in_sync P s' /\ can_count_n k (amr s') /\
    level_steps (amr s) !! 0%nat = Some n /\
    level_steps (amr s')
    = <[0%nat := n + (if is_Step c then 1 else 0)]> (level_steps (amr s)).
Proof.
  intros Hready Hbase Hcount.
  destruct (call_spec P E Law c s k Hready Hbase Hcount)
    as (s' & evs & Hcall & Hs' & Hcount' & _).
  destruct c as [level time iteration niter stop_time|lbase time initial];
    cbn [call base_call is_Step] in *.
  - subst level. pose proof (can_count_n_S _ _ Hcount) as Hcan.
    destruct (timeStep_spec P E Law time iteration niter stop_time s Hready Hcan)
      as (s_r & s_q & s'' & _ & _ & Hstep & _ & _ & _ & _ & _ & _ & _
          & (n & Hn & Hls) & _).
    assert (s'' = s') as -> by congruence.
    exists s', n. done.
  - destruct Hcount as (n & c & Hn & _). exists s', n.
    split; [done|]. split; [done|]. split; [done|]. split; [done|].
    destruct Hready as (Hm & _ & Hs & _).
    rewrite regrid_rebuilt in Hcall by done. injection Hcall as <-.
    cbn [amr rebuilt log set_amr set_mesh level_steps].
    rewrite Z.add_0_r. symmetry. by apply list_insert_id.
Qed.

(** X15.  Steps count one by one: after any sequence of base-level
    [Step] and [Regrid] calls the step counter of the base level has grown
    by the number of [Step] calls in the sequence, a [Regrid] leaving it as
    it is. *)
Theorem run_counts_steps (calls : list Call) (s : SDCAmr) :
  ready P s -> Forall base_call calls -> can_count_n (length calls) (amr s) ->
  exists s' n,
    run P E calls s = Done s' /\
    level_steps (amr s) !! 0%nat = Some n /\
    level_steps (amr s') = <[0%nat := n + steps_of calls]> (level_steps (amr s)).
Proof.
  revert s. induction calls as [|c calls IH]; intros s Hready Hbase Hcount.
  - destruct Hcount as (n & c & Hn & _). exists s, n.
    split; [done|]. split; [done|]. unfold steps_of. cbn.
    rewrite Z.add_0_r. symmetry. by apply list_insert_id.
  - apply Forall_cons_1 in Hbase as (Hc & Hbase).
    destruct (call_level_steps c s (length calls) Hready Hc Hcount)
      as (s1 & n & Hcall & Hs1 & Hcount1 & Hn & Hls1).
    destruct (IH s1 (in_sync_ready P s1 Hs1) Hbase Hcount1)
      as (s2 & n1 & Hrun & Hn1 & Hls2).
    exists s2, n. unfold run in *. cbn [forM]. rewrite Hcall. cbn [bind].
    split; [done|]. split; [done|].
    rewrite Hls1 in Hn1. rewrite list_lookup_insert_eq in Hn1
      by (by apply lookup_lt_Some in Hn).
    injection Hn1 as <-. rewrite Hls2, Hls1, list_insert_insert_eq.
    f_equal. unfold steps_of. cbn [List.filter].
    destruct (is_Step c); cbn [length]; lia.
Qed.

End StepFacts.

(** ** The assertion on a seeded node, and interpolation *)

Section Checks.
Context `{Car : Carriers}.
Variable P : AmrParams.
Variable E : Externals.

(** X12.  When the boundary fill of a state field leaves a not-a-number in
    it, seeding that state aborts on its assertion in a debug build; built
    with [NDEBUG], it returns, and the not-a-number is in [Q[0]]. *)
Theorem seed_state_nan_check (time : Real) (lev : Z) (st : nat) (s : SDCAmr)
    (L : AmrLevel) (sd : StateData) :
  in_sync P s -> 0 <= lev <= finest_level (amr s) ->
  amr_level (amr s) !! Z.to_nat lev = Some L -> state L !! st = Some sd ->
  wf_mf (fill_boundary E (amr s) lev (new_data sd) time (seed_mode lev)) ->
  same_shape (fill_boundary E (amr s) lev (new_data sd) time (seed_mode lev))
             (new_data sd) ->
  contains_nan (fill_boundary E (amr s) lev (new_data sd) time (seed_mode lev)) = true ->
  (ndebug P = false ->
   seed_state P E time lev st s
   = Aborted "Assertion `U0.contains_nan() == false' failed") /\
  (ndebug P = true ->
   exists s' U,
     seed_state P E time lev st s = Done s' /\
     node s' lev 0 = Done U /\ contains_nan U = true).
Proof.
  intros Hsync Hlev HL Hsd HwU HshU Hnan.
  destruct (synced_level P s lev Hsync Hlev) as (L' & sw & HL' & Hsw & Hn1 & Hn2 & Hnu & Hn3).
  assert (L' = L) as -> by congruence.
  pose proof Hsync as (Hmesh & _ & _ & Hmg & _).
  assert (Hwsd : wf_mf (new_data sd)) by (by eapply mesh_ok_wf).
  set (U := fill_boundary E (amr s) lev (new_data sd) time (seed_mode lev)) in *.
  destruct (Q (nset sw)) as [|U0 q] eqn:HQ.
  { simpl in Hn1. lia. }
  apply Forall_cons_1 in Hn3 as ((HwU0 & HshU0) & _).
  eapply Forall_lookup_1 in HshU0; [|exact Hsd].
  assert (Hrun : forall U0',
    wf_mf U0' -> same_shape U0' U ->
    U0' = (if ndebug P then U0 else setVal NAN (nGrow U0) U0) ->
    seed_state P E time lev st s
    = if negb (ndebug P) && contains_nan U
      then Aborted "Assertion `U0.contains_nan() == false' failed"
      else Done (seeded E time lev st sd s)).
  { intros U0' HwU0' HshU0' HU0'.
    unfold seed_state, getLevel, lookup_nat.
    rewrite (lookupZ_Some _ lev L) by (done || lia). cbn [bind]. rewrite Hsd. cbn [bind].
    fold U. rewrite (mg_sweeper_synced _ lev sw); [|exact Hmg|exact Hlev|exact Hsw].
    cbn [bind]. rewrite HQ.
    change (lookupZ (U0 :: q) 0) with (Done (A:=MultiFab) U0). cbn [bind].
    rewrite <- HU0'. rewrite (MultiFab_Copy_full U0' U) by done. cbn [bind].
    destruct (negb (ndebug P) && contains_nan U); done. }
  assert (HU0' : wf_mf (if ndebug P then U0 else setVal NAN (nGrow U0) U0) /\
                 same_shape (if ndebug P then U0 else setVal NAN (nGrow U0) U0) U).
  { destruct (ndebug P).
    - split; [done|]. eapply same_shape_trans; [exact HshU0|by apply same_shape_sym].
    - split; [by apply setVal_wf|].
      eapply same_shape_trans; [apply setVal_shape|].
      eapply same_shape_trans; [exact HshU0|by apply same_shape_sym]. }
  destruct HU0' as (Hw' & Hsh').
  rewrite (Hrun _ Hw' Hsh' eq_refl), Hnan. split; intros Hnd; rewrite Hnd; cbn.
  - done.
  - exists (seeded E time lev st sd s), U. split; [done|]. split; [|done].
    unfold node.
    assert (Hsw' : sweepers (log (EvSeed lev st)
        (alter_sweeper (fun sw => set_Q (<[0%nat := U]> (Q (nset sw))) sw) lev
           (log (EvFill lev st (seed_mode lev))
              (set_amr (alter_state (set_new_data U) lev st (amr s)) s)))) !! Z.to_nat lev
      = Some (Some (set_Q (<[0%nat := U]> (Q (nset sw))) sw))).
    { cbn [sweepers log alter_sweeper set_sweepers set_amr].
      by rewrite list_lookup_alter_eq, Hsw. }
    rewrite (mg_sweeper_synced (seeded E time lev st sd s) lev _ Hmg Hlev Hsw').
    cbn [bind].
    cbn [set_Q set_nset nset Q]. by rewrite HQ.
Qed.

(** Setting every region of a well-formed field leaves nothing of it but
    its layout. *)
Lemma setVal_all (v : Val) (U : MultiFab) :
  wf_mf U ->
  setVal v (nGrow U) U
  = {| boxArray := boxArray U; nGrow := nGrow U;
       fabs := replicate (nComp U) (replicate (S (nGrow U)) v) |}.
Proof.
  intros Hwf. unfold setVal, nComp. f_equal.
  unfold wf_mf in Hwf. induction Hwf as [|row rows Hrow _ IH]; [done|].
  cbn [map length replicate]. rewrite IH. f_equal.
  rewrite Hrow, Nat.min_id, drop_ge by lia. by rewrite app_nil_r.
Qed.

Variable I : Interp.

(** X13.  In a debug build [mlsdc_amr_interpolate] sets the whole fine
    field to not-a-number before it interpolates: what the call returns
    depends on the fine field it is given through its layout only, and on
    the state through its time only, a solution and a correction being
    treated alike. *)
Theorem interpolate_overwrites_fine (a : Amr) (F1 F2 G : MultiFab)
    (sdc1 sdc2 : sdc_state) (ctxF ctxG : Z) :
  ndebug P = false ->
  wf_mf F1 -> wf_mf F2 -> same_shape F1 F2 -> t sdc1 = t sdc2 ->
  mlsdc_amr_interpolate P E I a F1 G sdc1 ctxF ctxG
  = mlsdc_amr_interpolate P E I a F2 G sdc2 ctxF ctxG.
Proof.
  intros Hnd Hw1 Hw2 (Hb & Hg & Hc) Ht. unfold mlsdc_amr_interpolate.
  rewrite Hnd, Ht. cbn [negb andb].
  rewrite (setVal_all NAN F1 Hw1), (setVal_all NAN F2 Hw2).
  unfold patches. by rewrite Hb, Hg, Hc.
Qed.

(** X14.  The two assertions of [mlsdc_amr_interpolate].  In a debug build
    the call aborts on the first assertion when the coarse copy [UC], after
    the copy from [G] and its boundary fill, holds a not-a-number; failing
    that, it aborts on the second when the interpolated fine field [UF],
    after its boundary fill, holds one; otherwise it returns that fine
    field, so that a field that it returns holds no not-a-number.  Built
    with [NDEBUG] it checks nothing and returns the interpolated fine field
    whenever the fine level has a state descriptor; without one it has no
    defined behaviour. *)
Theorem interpolate_nan_checks (a : Amr) (F G : MultiFab) (sdc : sdc_state)
    (ctxF ctxG : Z) :
  (ndebug P = false ->
   forall levelF dl0,
     getLevel a ctxF = Done levelF -> state levelF !! 0%nat = Some dl0 ->
     mlsdc_amr_interpolate P E I a F G sdc ctxF ctxG
     = if contains_nan (interpolate_UC P E I a F G sdc ctxF ctxG (nComp (new_data dl0)))
       then Aborted "Assertion `UC.contains_nan() == false' failed"
       else if contains_nan
                 (interpolate_UF P E I a F G sdc ctxF ctxG (nComp (new_data dl0)))
       then Aborted "Assertion `UF.contains_nan() == false' failed"
       else Done (interpolate_UF P E I a F G sdc ctxF ctxG (nComp (new_data dl0)))) /\
  (ndebug P = false ->
   match mlsdc_amr_interpolate P E I a F G sdc ctxF ctxG with
   | Done U => contains_nan U = false
   | _ => True
   end) /\
  (ndebug P = true ->
   forall levelF dl0,
     getLevel a ctxF = Done levelF -> state levelF !! 0%nat = Some dl0 ->
     mlsdc_amr_interpolate P E I a F G sdc ctxF ctxG
     = Done (interpolate_UF P E I a F G sdc ctxF ctxG (nComp (new_data dl0)))) /\
  ((forall levelF, getLevel a ctxF = Done levelF -> state levelF = []) ->
   mlsdc_amr_interpolate P E I a F G sdc ctxF ctxG = Undefined).
Proof.
  unfold mlsdc_amr_interpolate, interpolate_UF, interpolate_UC, lookup_nat.
  split; [|split; [|split]].
  - intros Hnd levelF dl0 -> Hdl. cbn [bind]. rewrite Hdl, Hnd.
    cbv zeta. cbn [negb andb bind].
    destruct (contains_nan _); [done|].
    destruct (contains_nan _); done.
  - intros Hnd. rewrite Hnd. cbn [negb andb].
    destruct (getLevel a ctxF) as [levelF| |]; cbn [bind]; [|done..].
    destruct (state levelF !! 0%nat) as [dl0|]; cbn [bind]; [|done].
    destruct (contains_nan _); [done|].
    destruct (contains_nan _) eqn:Hn; done.
  - intros Hnd levelF dl0 -> Hdl. cbn [bind]. rewrite Hdl, Hnd. done.
  - intros Hno. unfold getLevel, lookupZ in *.
    destruct (ctxF <? 0); [done|].
    destruct (amr_level a !! Z.to_nat ctxF) as [levelF|]; cbn [bind]; [|done].
    by rewrite (Hno levelF eq_refl).
Qed.

End Checks.

(** ** On the two-level hierarchy *)

Section DemoMore.
#[local] Existing Instance demo_carriers.

(** Being in step depends on the parameters through [max_level] only. *)
Lemma in_sync_max_level (P P' : AmrParams) (s : SDCAmr) :
  max_level P' = max_level P -> in_sync P s -> in_sync P' s.
Proof.
  intros HM ((H1 & H2 & H3) & (H4 & H5 & H6) & (H7 & H8 & H9 & H10 & H11) & H12).
  unfold in_sync, mesh_ok, counters_ok, slots_ok. rewrite HM. done.
Qed.

Lemma demo_constructed :
  SDCAmr_new demo_params demo_inputs demo_amr = Done demo_state.
Proof. reflexivity. Qed.

Lemma rebuild_drops_levels_above_finest_witness :
  exists s',
    rebuild_mlsdc demo_params (demo_externals true true)
      (set_amr (set_mesh (0, amr_level demo_amr) demo_amr) (demo_built true true)) = Done s' /\
    lookupZ (sweepers s') 1 = Done None /\
    lookupZ (encaps s') 1 = Done (Some (demo_encap demo_amr 1)) /\
    nlevels (mg s') = 1.
Proof.
  destruct (rebuild_drops_levels_above_finest demo_params (demo_externals true true)
              (set_amr (set_mesh (0, amr_level demo_amr) demo_amr) (demo_built true true)))
    as (s' & H1 & _ & H3 & _ & H5).
  - exact (regrid_mesh_ok _ _ (demo_lawful true true) 0 0 false demo_amr
             (proj1 demo_ready)).
  - apply (demo_built_in_sync true true).
  - exists s'. split; [exact H1|]. destruct (H5 1) as (H6 & H7); [cbn; lia|].
    split; [exact H6|]. split; [exact H7|exact H3].
Defined.

Lemma rebuild_allocates_fresh_nodes_witness :
  exists s',
    rebuild_mlsdc demo_params (demo_externals false false) (demo_built false false)
    = Done s' /\
    forall lev, 0 <= lev <= 1 ->
      (forall m, 0 <= m < nnodes_of lev ->
         node s' lev m
         = Done (encap_create (demo_externals false false)
                   (build_encap (demo_externals false false) demo_amr lev))) /\
      node s' lev (nnodes_of lev) = Undefined /\
      last_node s' lev
      = Done (encap_create (demo_externals false false)
                (build_encap (demo_externals false false) demo_amr lev)).
Proof.
  apply (rebuild_allocates_fresh_nodes demo_params (demo_externals false false)
           (demo_built false false));
    apply (demo_built_in_sync false false).
Defined.

Lemma rebuild_beyond_max_level_witness :
  rebuild_mlsdc demo_params (demo_externals false false)
    (set_amr demo_deep_amr demo_state) = Undefined.
Proof.
  apply rebuild_beyond_max_level; cbn; lia.
Defined.

Lemma first_step_builds_sweepers_witness :
  exists s' evs,
    timeStep demo_params (demo_externals false false) 0 0 0 1 100 demo_state = Done s' /\
    trace s' = EvRebuild :: evs /\
    List.filter is_sweep evs
    = sweep_events (demo_externals false false) (default 22 (pp_max_iters demo_inputs)) /\
    sweepers s' !! 0%nat <> Some None /\
    exists s_q s1 dt0 qs,
      timeStep_seeded demo_params (demo_externals false false) 0 0 100 demo_state
      = Done s_q /\
      set_times 0 s_q = Done s1 /\
      lookupZ (dt_level (amr s1)) 0 = Done dt0 /\
      fields s_q = Done qs /\
      fields s'
      = Done (fold_left
                (fun qs k => sdc_mg_sweep (demo_externals false false) (amr s1) qs 0 dt0
                               (sweep_flags (demo_externals false false) 2 k))
                [0; 1]
                (sdc_mg_spread (demo_externals false false) (amr s1) qs 0 dt0 0)).
Proof.
  apply (first_step_builds_sweepers demo_params (demo_externals false false)
           (demo_lawful false false) demo_inputs demo_amr demo_state).
  - apply demo_ready.
  - apply demo_ready.
  - exact demo_can_count.
  - cbn. lia.
  - exact demo_constructed.
Defined.

Lemma step_regrids_below_max_level_witness :
  exists s' evs,
    timeStep demo_params (demo_externals true true) 0 0 0 1 100 demo_state = Done s' /\
    trace s' = trace demo_state ++ evs /\
    StronglySorted Z.lt (regrid_levels evs) /\
    Forall (fun l => 0 <= l <= max_level demo_params - 1) (regrid_levels evs) /\
    Z.of_nat (length (regrid_levels evs)) <= max_level demo_params /\
    (max_level demo_params = 0 -> Forall (fun e => is_regrid e = false) evs).
Proof.
  exact (step_regrids_below_max_level demo_params (demo_externals true true)
           (demo_lawful true true) 0 0 1 100 demo_state demo_ready demo_can_count).
Defined.

Lemma base_regrid_restarts_counts_witness :
  exists s',
    timeStep demo_params (demo_externals true false) 0 0 0 1 100 demo_state = Done s' /\
    lookupZ (level_count (amr s')) 0 = Done 1 /\
    forall k, 1 <= k <= finest_level (amr s') ->
      lookupZ (level_count (amr s')) k = Done 0.
Proof.
  apply (base_regrid_restarts_counts demo_params (demo_externals true false)
           (demo_lawful true false) 0 0 1 100 demo_state demo_ready demo_can_count).
  - cbn. lia.
  - reflexivity.
Defined.

Lemma step_sets_every_time_witness :
  exists s' dt0,
    timeStep demo_params (demo_externals false false) 0 0 0 1 100 demo_state = Done s' /\
    lookupZ (dt_level (amr s')) 0 = Done dt0 /\
    forall lev L st sd,
      0 <= lev <= finest_level (amr s') ->
      getLevel (amr s') lev = Done L -> state L !! st = Some sd ->
      time_level sd = Some (Rplus 0 dt0, dt0, dt0).
Proof.
  destruct (step_sets_every_time demo_params (demo_externals false false)
              (demo_lawful false false) 0 0 1 100 demo_state demo_ready demo_can_count)
    as (s' & dt0 & H1 & H2 & H3 & _).
  exists s', dt0. split; [exact H1|]. split; [exact H2|exact H3].
Defined.

Lemma run_counts_steps_witness :
  exists s' n,
    run demo_params (demo_externals true true)
        [Step 0 0 0 1 100; Regrid 0 5 false; Step 0 5 1 1 100] demo_state = Done s' /\
    level_steps (amr demo_state) !! 0%nat = Some n /\
    level_steps (amr s')
    = <[0%nat := n + steps_of [Step 0 0 0 1 100; Regrid 0 5 false; Step 0 5 1 1 100]]>
        (level_steps (amr demo_state)).
Proof.
  apply (run_counts_steps demo_params (demo_externals true true) (demo_lawful true true)).
  - exact demo_ready.
  - repeat constructor.
  - exists 0, 0. unfold INT_MIN, INT_MAX. cbn. repeat split; lia.
Defined.

Lemma step_history_witness :
  exists s' evs,
    timeStep demo_params (demo_externals true true) 0 0 0 1 100 demo_state = Done s' /\
    trace s' = trace demo_state ++ evs ++ seed_events (amr s') ++ [EvSpread]
               ++ sweep_events (demo_externals true true) (max_iters s')
               ++ final_events (amr s') /\
    Forall (fun e => is_regrid e = true \/ is_rebuild e = true) evs.
Proof.
  exact (step_history demo_params (demo_externals true true)
           (demo_lawful true true) 0 0 1 100 demo_state demo_ready demo_can_count).
Defined.

Lemma step_keeps_in_sync_witness :
  exists s',
    timeStep demo_params (demo_externals true true) 0 0 0 1 100 demo_state = Done s' /\
    in_sync demo_params s' /\
    nlevels (mg s') = finest_level (amr s') + 1 /\
    sweepers s' !! 0%nat <> Some None.
Proof.
  destruct (step_keeps_in_sync demo_params (demo_externals true true)
              (demo_lawful true true) 0 0 1 100 demo_state demo_ready demo_can_count)
    as (s' & H1 & H2 & H3 & H4 & _).
  exists s'. split; [exact H1|]. split; [exact H2|]. split; [exact H3|exact H4].
Defined.

Lemma regrid_syncs_and_keeps_counters_witness :
  exists s',
    regrid demo_params (demo_externals true true) 0 5 false demo_state = Done s' /\
    in_sync demo_params s' /\
    nlevels (mg s') = finest_level (amr s') + 1 /\
    level_count (amr s') = level_count (amr demo_state) /\
    dt_level (amr s') = dt_level (amr demo_state).
Proof.
  destruct (regrid_syncs_and_keeps_counters demo_params (demo_externals true true)
              (demo_lawful true true) 0 5 false demo_state)
    as (s' & H1 & H2 & _ & H4 & _ & H6 & _ & _ & H9); [apply demo_ready..|].
  exists s'. split; [exact H1|]. split; [exact H2|]. split; [exact H4|].
  split; [exact H6|exact H9].
Defined.

Lemma seed_state_nan_check_witness :
  seed_state demo_debug demo_nan_externals 0 0 0 (demo_built false false)
  = Aborted "Assertion `U0.contains_nan() == false' failed" /\
  exists s' U,
    seed_state demo_params demo_nan_externals 0 0 0 (demo_built false false) = Done s' /\
    node s' 0 0 = Done U /\ contains_nan U = true.
Proof.
  split.
  - apply (proj1 (seed_state_nan_check demo_debug demo_nan_externals 0 0 0
                    (demo_built false false) (demo_level 7 10 11)
                    {| new_data := demo_field 7 10 11; time_level := None |}
                    (in_sync_max_level demo_params demo_debug _ eq_refl
                       (demo_built_in_sync false false))
                    ltac:(cbn; lia) eq_refl eq_refl
                    ltac:(repeat constructor) ltac:(repeat split) eq_refl)).
    reflexivity.
  - apply (proj2 (seed_state_nan_check demo_params demo_nan_externals 0 0 0
                    (demo_built false false) (demo_level 7 10 11)
                    {| new_data := demo_field 7 10 11; time_level := None |}
                    (demo_built_in_sync false false)
                    ltac:(cbn; lia) eq_refl eq_refl
                    ltac:(repeat constructor) ltac:(repeat split) eq_refl)).
    reflexivity.
Defined.

Lemma interpolate_overwrites_fine_witness :
  mlsdc_amr_interpolate demo_debug (demo_externals false false) demo_interp demo_amr
    (demo_field 15 20 21) (demo_field 7 10 11) {| t := 0; kind := 1 |} 1 0
  = mlsdc_amr_interpolate demo_debug (demo_externals false false) demo_interp demo_amr
      (demo_field 15 0 0) (demo_field 7 10 11) {| t := 0; kind := 0 |} 1 0.
Proof.
  apply interpolate_overwrites_fine.
  - reflexivity.
  - repeat constructor.
  - repeat constructor.
  - repeat split.
  - reflexivity.
Defined.

Lemma interpolate_nan_checks_witness :
  mlsdc_amr_interpolate demo_debug (demo_externals false false) demo_interp demo_amr
    (demo_field 15 20 21) (demo_field 7 (-1) 11) {| t := 0; kind := 1 |} 1 0
  = Aborted "Assertion `UC.contains_nan() == false' failed" /\
  mlsdc_amr_interpolate demo_debug demo_nan_externals demo_interp demo_amr
    (demo_field 15 20 21) (demo_field 7 10 11) {| t := 0; kind := 1 |} 1 0
  = Aborted "Assertion `UF.contains_nan() == false' failed" /\
  mlsdc_amr_interpolate demo_params demo_nan_externals demo_interp demo_amr
    (demo_field 15 20 21) (demo_field 7 10 11) {| t := 0; kind := 1 |} 1 0
  = Done (demo_field 15 10 (-1)).
Proof.
  split; [|split].
  - etransitivity.
    + apply (proj1 (interpolate_nan_checks demo_debug (demo_externals false false)
                      demo_interp demo_amr (demo_field 15 20 21) (demo_field 7 (-1) 11)
                      (@mkSdcState demo_carriers 0 1) 1 0)
               eq_refl (demo_level 15 20 21)
               {| new_data := demo_field 15 20 21; time_level := None |});
        reflexivity.
    + reflexivity.
  - etransitivity.
    + apply (proj1 (interpolate_nan_checks demo_debug demo_nan_externals
                      demo_interp demo_amr (demo_field 15 20 21) (demo_field 7 10 11)
                      (@mkSdcState demo_carriers 0 1) 1 0)
               eq_refl (demo_level 15 20 21)
               {| new_data := demo_field 15 20 21; time_level := None |});
        reflexivity.
    + reflexivity.
  - etransitivity.
    + apply (proj1 (proj2 (proj2 (interpolate_nan_checks demo_params demo_nan_externals
                      demo_interp demo_amr (demo_field 15 20 21) (demo_field 7 10 11)
                      (@mkSdcState demo_carriers 0 1) 1 0)))
               eq_refl (demo_level 15 20 21)
               {| new_data := demo_field 15 20 21; time_level := None |});
        reflexivity.
    + reflexivity.
Defined.


Lemma sweeps_exactly_max_iters_witness :
  exists s' evs,
    timeStep demo_params (demo_externals false false) 0 0 0 1 100 demo_state = Done s' /\
    trace s' = trace demo_state ++ evs /\
    List.filter is_sweep evs = [EvSweep 0; EvSweep 1] /\
    exists s_q s1 dt0 qs,
      timeStep_seeded demo_params (demo_externals false false) 0 0 100 demo_state
      = Done s_q /\
      set_times 0 s_q = Done s1 /\
      lookupZ (dt_level (amr s1)) 0 = Done dt0 /\
      fields s_q = Done qs /\
      fields s'
      = Done (fold_left
                (fun qs k => sdc_mg_sweep (demo_externals false false) (amr s1) qs 0 dt0
                               (sweep_flags (demo_externals false false) 2 k))
                [0; 1]
                (sdc_mg_spread (demo_externals false false) (amr s1) qs 0 dt0 0)).
Proof.
  destruct (sweeps_exactly_max_iters demo_params (demo_externals false false)
              (demo_lawful false false) 0 0 1 100 demo_state demo_ready demo_can_count)
    as (s' & evs & H1 & H2 & H3 & _ & _ & _ & H7).
  exists s', evs. split; [exact H1|]. split; [exact H2|]. split; [exact H3|exact H7].
Defined.

Lemma counters_of_base_level_witness :
  exists s' evs,
    timeStep demo_params (demo_externals false false) 0 0 0 1 100 demo_state = Done s' /\
    trace s' = trace demo_state ++ evs /\
    regrid_levels evs = [] /\
    level_steps (amr s') = [1; 0] /\ level_count (amr s') = [1; 0].
Proof.
  destruct (counters_of_base_level demo_params (demo_externals false false)
              (demo_lawful false false) 0 0 1 100 demo_state demo_ready demo_can_count)
    as (s' & evs & H1 & H2 & (n & Hn & Hls) & (c & Hc & _ & Hnil) & _ & Hq).
  assert (Hr : regrid_levels evs = []) by (apply Hq; intros j _; reflexivity).
  assert (n = 0) as -> by (cbn in Hn; congruence).
  assert (c = 0) as -> by (cbn in Hc; congruence).
  exists s', evs. split; [exact H1|]. split; [exact H2|]. split; [exact Hr|].
  split; [exact Hls|exact (Hnil Hr)].
Defined.

End DemoMore.
